(** * RAG_EVERYTHING: the rate-limited embedding / retrieval core

    A shallow embedding of the Python sources
      - [backend/config.py]
      - [backend/core/ai_parser.py]    (class [AIParser])
      - [backend/core/embedder.py]     (class [Embedder])
      - [backend/core/vector_store.py] (class [VectorStore])
      - [backend/core/retriever.py]    (class [Retriever])
      - [backend/core/request_counter.py]
      - [backend/ingestion/website.py] (class [WebsiteIngester], the
        batches of pages, the chunking and the deduplication)
    followed by the properties of the pipeline that were checked against
    them.

    Modelling conventions.
    - A Python [int] is a [Z]; a Python [str] is the list of its Unicode
      code points ([Py.str]).
    - A Python [float] is [Py.pyfloat]: NaN, the two infinities, or a finite
      value carried as a rational.  Comparisons follow IEEE 754 and are
      exact.  The few arithmetic operations the sources perform on floats
      (the shrink ratio of [Embedder.embed_documents], clock differences) are
      computed exactly on rationals: binary64 rounding is not modelled.
    - Instance attributes that the methods mutate, the wall clock read by
      [time.time()] and advanced by [time.sleep()], and what is printed, are
      fields of an explicit state threaded by a state-and-exception monad.
      A raised exception keeps the mutations made before it.  The clock
      moves only while the program sleeps or waits for a remote service:
      two readings of [time.time()] with nothing in between are equal.
    - Remote services (Groq, Jina, Voyage, Milvus) are parameters: the
      answer of the service is an input of the model.
    - [print] calls are modelled only where they report an outcome
      (the skip report of [VectorStore.upsert], the error line of
      [AIParser.parse_content]); purely diagnostic [[DEBUG]] lines are
      left out. *)

From Stdlib Require Import ZArith QArith Qround Lia Lqa Ascii String Sorted
  DecimalString.
From stdpp Require Import base option list gmap.

Local Open Scope Z_scope.

(* ===================================================================== *)
(** * Python values                                                       *)
(* ===================================================================== *)

Module Py.

(** ** Strings *)

Abbreviation str := (list N) (only parsing).

(** A string literal of the sources. *)
Definition lit (s : string) : str := map N_of_ascii (list_ascii_of_string s).

Definition len {A} (l : list A) : Z := Z.of_nat (length l).

(** [c.isspace()] for one code point: the Unicode white-space characters
    that [str.strip()] removes. *)
Definition isspace (c : N) : bool :=
  ((9 <=? c) && (c <=? 13) || (28 <=? c) && (c <=? 32)
   || (c =? 133) || (c =? 160) || (c =? 5760)
   || (8192 <=? c) && (c <=? 8202)
   || (c =? 8232) || (c =? 8233) || (c =? 8239) || (c =? 8287)
   || (c =? 12288))%N.

Fixpoint lstrip (s : str) : str :=
  match s with
  | c :: s' => if isspace c then lstrip s' else s
  | [] => []
  end.

Definition rstrip (s : str) : str := rev (lstrip (rev s)).

(** [s.strip()] *)
Definition strip (s : str) : str := rstrip (lstrip s).

(** Truth value of a string: [not s] is [negb (truthy s)]. *)
Definition truthy {A} (s : list A) : bool :=
  match s with [] => false | _ => true end.

Fixpoint startswith (p s : str) : bool :=
  match p, s with
  | [], _ => true
  | a :: p', b :: s' => (a =? b)%N && startswith p' s'
  | _ :: _, [] => false
  end.

(** [needle in hay] on strings. *)
Fixpoint contains (needle hay : str) : bool :=
  startswith needle hay ||
  match hay with
  | [] => false
  | _ :: hay' => contains needle hay'
  end.

(** [sep.join(parts)] *)
Definition str_join (sep : str) (parts : list str) : str :=
  match parts with
  | [] => []
  | p :: ps => p ++ flat_map (λ q, sep ++ q) ps
  end.

(** [s.replace(old, new)] for a pattern [old] of one character. *)
Definition replace_char (old : N) (new : str) (s : str) : str :=
  flat_map (λ c, if (c =? old)%N then new else [c]) s.

(** [s.split()]: the maximal runs of characters that are not white space;
    [word] is the run being read. *)
Fixpoint split_from (s : str) (word : str) : list str :=
  match s with
  | [] => if truthy word then [word] else []
  | c :: s' =>
    if isspace c
    then (if truthy word then word :: split_from s' [] else split_from s' [])
    else split_from s' (word ++ [c])
  end.

Definition split (s : str) : list str := split_from s [].

(** [hay.rfind(needle)]: the highest index at which [needle] occurs in
    [hay], or -1; [i] is the index of the first character of [hay]. *)
Fixpoint rfind_from (needle hay : str) (i : Z) : Z :=
  match hay with
  | [] => if startswith needle [] then i else -1
  | _ :: hay' =>
    let later := rfind_from needle hay' (i + 1) in
    if later >=? 0 then later
    else if startswith needle hay then i else -1
  end.

Definition rfind (needle hay : str) : Z := rfind_from needle hay 0.

(** [str(n)] for an integer. *)
Definition str_of_int (n : Z) : str :=
  lit (NilZero.string_of_int (Z.to_int n)).

Definition str_eqb (a b : str) : bool := bool_decide (a = b).

(** ** Sequences: slices and indexing *)

(** A slice bound [k] of a sequence of length [n], as Python clips it. *)
Definition clip (n : nat) (k : Z) : nat :=
  if k <? 0 then Z.to_nat (Z.max 0 (Z.of_nat n + k)) else Z.to_nat k.

(** [l[:k]] *)
Definition slice_to {A} (k : Z) (l : list A) : list A :=
  take (clip (length l) k) l.

(** [l[i:j]] *)
Definition slice {A} (i j : Z) (l : list A) : list A :=
  drop (clip (length l) i) (take (clip (length l) j) l).

(** ** Exceptions *)

Inductive message :=
| DailyTokenLimitExceeded (limit used : Z)
| GroqNotInstalled
| NoEmbeddingReturned
| UnexpectedResponseFormat.

Inductive exn :=
| RuntimeError (m : message)
| IndexError
| TimeoutException
| HTTPStatusError (status : Z)
| OtherException.

Inductive Exc (A : Type) :=
| Ok (a : A)
| Raise (e : exn).
Arguments Ok {A} a.
Arguments Raise {A} e.

(** [l[i]]: a negative index counts from the end; out of range raises. *)
Definition getitem {A} (l : list A) (i : Z) : Exc A :=
  let j := if i <? 0 then len l + i else i in
  if j <? 0 then Raise IndexError
  else match l !! Z.to_nat j with
       | Some x => Ok x
       | None => Raise IndexError
       end.

(** ** Floats *)

Inductive pyfloat :=
| NaN
| Inf (negative : bool)
| Fin (q : Q).

Definition of_int (z : Z) : pyfloat := Fin (inject_Z z).

(** IEEE comparison: [None] when an operand is NaN. *)
Definition fcompare (a b : pyfloat) : option comparison :=
  match a, b with
  | NaN, _ | _, NaN => None
  | Inf true, Inf true => Some Eq
  | Inf false, Inf false => Some Eq
  | Inf true, _ => Some Lt
  | Inf false, _ => Some Gt
  | Fin _, Inf true => Some Gt
  | Fin _, Inf false => Some Lt
  | Fin p, Fin q => Some (p ?= q)%Q
  end.

(** [a < b], [a <= b], [a == b], [a > b], [a >= b], [a != b] *)
Definition flt (a b : pyfloat) : bool :=
  match fcompare a b with Some Lt => true | _ => false end.
Definition fle (a b : pyfloat) : bool :=
  match fcompare a b with Some Lt | Some Eq => true | _ => false end.
Definition feq (a b : pyfloat) : bool :=
  match fcompare a b with Some Eq => true | _ => false end.
Definition fgt (a b : pyfloat) : bool := flt b a.
Definition fge (a b : pyfloat) : bool := fle b a.
Definition fne (a b : pyfloat) : bool := negb (feq a b).

(** [-a] *)
Definition fneg (a : pyfloat) : pyfloat :=
  match a with
  | NaN => NaN
  | Inf s => Inf (negb s)
  | Fin q => Fin (- q)%Q
  end.

(** The builtins [min(a, b)] and [max(a, b)]: the first argument is kept
    unless the second is strictly smaller (resp. larger). *)
Definition min (a b : pyfloat) : pyfloat := if flt b a then b else a.
Definition max (a b : pyfloat) : pyfloat := if fgt b a then b else a.

(** [int(x)] on a finite float: truncation toward zero. *)
Definition Qtrunc (x : Q) : Z :=
  if Qle_bool 0 x then Qfloor x else Qceiling x.

End Py.

Import Py.

(* ===================================================================== *)
(** * Stateful code: a state-and-exception monad                           *)
(* ===================================================================== *)

(** A method body is a function from the state before to its outcome (a
    value or a raised exception) and the state after. *)
Definition M (S A : Type) : Type := S → Exc A * S.

#[global] Instance M_ret {S} : MRet (M S) := λ A a s, (Ok a, s).
#[global] Instance M_bind {S} : MBind (M S) := λ A B f m s,
  match m s with
  | (Ok a, s') => f a s'
  | (Raise e, s') => (Raise e, s')
  end.

Definition raise {S A} (e : exn) : M S A := λ s, (Raise e, s).
Definition gets {S A} (f : S → A) : M S A := λ s, (Ok (f s), s).
Definition modify {S} (f : S → S) : M S unit := λ s, (Ok (), f s).

(** [try: body  except <handled>: handler] *)
Definition try_except {S A} (body : M S A) (handled : exn → bool)
    (handler : exn → M S A) : M S A := λ s,
  match body s with
  | (Raise e, s') => if handled e then handler e s' else (Raise e, s')
  | r => r
  end.

(** [if c: body] *)
Definition when {S} (c : bool) (body : M S unit) : M S unit :=
  if c then body else mret ().

Definition is_RuntimeError (e : exn) : bool :=
  match e with RuntimeError _ => true | _ => false end.

(* ===================================================================== *)
(** * backend/config.py                                                    *)
(* ===================================================================== *)

Module Config.

Definition EMBEDDING_batch_size : Z := 50.
Definition EMBEDDING_dimensions : Z := 1024.

Definition RETRIEVAL_top_k_search : Z := 50.
Definition RETRIEVAL_top_k_rerank : Z := 10.
Definition RETRIEVAL_score_threshold : pyfloat := Fin (-5).

Definition VECTOR_DB_collection_docs : str := lit "rag_documents".
Definition VECTOR_DB_collection_chats : str := lit "rag_conversations".
Definition VECTOR_DB_dimensions : Z := 1024.

Definition AI_PARSER_max_tokens : Z := 1024.
Definition AI_PARSER_rpm_limit : Z := 30.
Definition AI_PARSER_tpm_limit : Z := 30000.
Definition AI_PARSER_tpd_limit : Z := 500000.

End Config.

(* ===================================================================== *)
(** * backend/core/ai_parser.py                                            *)
(* ===================================================================== *)

Module AIParser.

(** What [chat.completions.create] does on one call: it returns a
    completion whose message content may be absent, or raises; an
    exception is carried as [str(e).lower()]. *)
Inductive completion :=
| Completed (content : option str)
| Failed (error_str : str).

Inductive line :=
| PrintError (e : exn)
| PrintRateLimit (rpm : bool) (sleep_for : Q).

(** The attributes set by [__init__] and the world the methods act on. *)
Record state := mk {
  _max_tokens : Z;
  _rpm_limit : Z;
  _tpm_limit : Z;
  _tpd_limit : Z;
  _window_start : Q;
  _window_requests : Z;
  _window_tokens : Z;
  _daily_tokens : Z;
  (* the world *)
  clock : Q;                 (* what [time.time()] returns *)
  requests_sent : nat;       (* calls made to the Groq client so far *)
  stdout : list line
}.

Definition _window_seconds : Q := 60.

(** [__init__], with the limits of [config.AI_PARSER], at time [now]. *)
Definition init (now : Q) : state :=
  mk Config.AI_PARSER_max_tokens Config.AI_PARSER_rpm_limit
     Config.AI_PARSER_tpm_limit Config.AI_PARSER_tpd_limit
     now 0 0 0 now 0 [].

Definition set_window (ws : Q) (wr wt : Z) (s : state) : state :=
  mk (_max_tokens s) (_rpm_limit s) (_tpm_limit s) (_tpd_limit s)
     ws wr wt (_daily_tokens s) (clock s) (requests_sent s) (stdout s).

Definition set_daily_tokens (d : Z) (s : state) : state :=
  mk (_max_tokens s) (_rpm_limit s) (_tpm_limit s) (_tpd_limit s)
     (_window_start s) (_window_requests s) (_window_tokens s) d
     (clock s) (requests_sent s) (stdout s).

Definition set_clock (c : Q) (s : state) : state :=
  mk (_max_tokens s) (_rpm_limit s) (_tpm_limit s) (_tpd_limit s)
     (_window_start s) (_window_requests s) (_window_tokens s)
     (_daily_tokens s) c (requests_sent s) (stdout s).

Definition set_requests_sent (n : nat) (s : state) : state :=
  mk (_max_tokens s) (_rpm_limit s) (_tpm_limit s) (_tpd_limit s)
     (_window_start s) (_window_requests s) (_window_tokens s)
     (_daily_tokens s) (clock s) n (stdout s).

Definition set_stdout (o : list line) (s : state) : state :=
  mk (_max_tokens s) (_rpm_limit s) (_tpm_limit s) (_tpd_limit s)
     (_window_start s) (_window_requests s) (_window_tokens s)
     (_daily_tokens s) (clock s) (requests_sent s) o.

Definition time_time : M state Q := gets clock.
Definition time_sleep (d : Q) : M state unit :=
  modify (λ s, set_clock (clock s + d)%Q s).
Definition print (l : line) : M state unit :=
  modify (λ s, set_stdout (stdout s ++ [l]) s).

(** [self._window_start = time.time(); self._window_requests = 0;
     self._window_tokens = 0] *)
Definition reset_window : M state unit :=
  t ← time_time; modify (set_window t 0 0).

Definition _estimate_tokens (text : str) : Z := Z.max 1 (len text / 4).

Definition estimate_request_tokens (s : state) (raw_content : str) : Z :=
  if negb (truthy raw_content) then _max_tokens s
  else
    let max_input_chars := 6000 in
    let trimmed := slice_to max_input_chars raw_content in
    let input_tokens := _estimate_tokens trimmed in
    input_tokens + _max_tokens s.

Definition _sleep_with_jitter (seconds : Q) : M state unit :=
  if Qle_bool seconds 0 then mret ()
  else
    t ← time_time;
    let jitter := ((5 # 100) * (1 + (1 # 10) * (t - inject_Z (Qfloor t))))%Q in
    time_sleep (seconds + jitter)%Q.

Definition _wait_for_budget (estimated_tokens : Z) : M state unit :=
  now ← time_time;
  ws ← gets _window_start;
  let elapsed := (now - ws)%Q in
  when (Qle_bool _window_seconds elapsed) reset_window;;
  wr ← gets _window_requests;
  wt ← gets _window_tokens;
  dt ← gets _daily_tokens;
  rpm ← gets _rpm_limit;
  tpm ← gets _tpm_limit;
  tpd ← gets _tpd_limit;
  let exceeds_rpm := wr + 1 >? rpm in
  let exceeds_tpm := wt + estimated_tokens >? tpm in
  let exceeds_tpd := dt + estimated_tokens >? tpd in
  if negb (exceeds_rpm || exceeds_tpm || exceeds_tpd) then mret ()
  else
    (if exceeds_tpd then
       raise (RuntimeError (DailyTokenLimitExceeded tpd dt))
     else
       ws ← gets _window_start;
       let sleep_for := (ws + _window_seconds - now)%Q in
       when (negb (Qle_bool sleep_for 0))
            (print (PrintRateLimit exceeds_rpm sleep_for);;
             _sleep_with_jitter sleep_for));;
    reset_window.

Section Groq.

(** The Groq service: whether the [groq] package can be imported, and what
    the [n]-th call to [chat.completions.create] does. *)
Variable groq_installed : bool.
Variable groq : nat → completion.

Definition _get_client : M state unit :=
  if groq_installed then mret () else raise (RuntimeError GroqNotInstalled).

Definition create_completion : M state completion :=
  n ← gets requests_sent;
  modify (set_requests_sent (S n));;
  mret (groq n).

Definition max_retries : Z := 5.
Definition base_backoff : Q := 2.

(** The truncation at the head of [parse_content]:
<<
    max_input_chars = 6000
    if len(raw_content) > max_input_chars:
        raw_content = raw_content[:max_input_chars] + "\n...[truncated]"
>> *)
Definition truncate_input (raw_content : str) : str :=
  let max_input_chars := 6000 in
  if len raw_content >? max_input_chars
  then slice_to max_input_chars raw_content
         ++ lit (String "010" "...[truncated]")
  else raw_content.

(** The body of [parse_content]; [self_parse_content] is the method itself,
    for the call [self.parse_content(raw_content[:3000], page_url)]. *)
Section Body.

Variable self_parse_content : str → M state (option str).

(** [for attempt in range(max_retries): ...] followed by [return None];
    [attempts] is what is left of [range(max_retries)]. *)
Fixpoint retry_loop (raw_content : str) (attempts : list Z)
    : M state (option str) :=
  match attempts with
  | [] => mret None
  | attempt :: rest =>
    c ← create_completion;
    match c with
    | Completed result =>
      match result with
      | None => mret None
      | Some r =>
        if negb (truthy r) || str_eqb (strip r) (lit "NO_VALID_CONTENT")
        then mret None
        else mret (Some (strip r))
      end
    | Failed error_str =>
      if contains (lit "429") error_str
         || contains (lit "rate limit") error_str
         || contains (lit "too many requests") error_str
      then
        let backoff := (base_backoff ^ (attempt + 1))%Q in
        _sleep_with_jitter backoff;;
        retry_loop raw_content rest
      else if contains (lit "token") error_str
              && (contains (lit "limit") error_str
                  || contains (lit "exceed") error_str)
      then
        if len raw_content >? 3000
        then self_parse_content (slice_to 3000 raw_content)
        else mret None
      else if attempt <? max_retries - 1
      then _sleep_with_jitter 1;; retry_loop raw_content rest
      else mret None
    end
  end.

Definition parse_content_body (raw_content : str) : M state (option str) :=
  if negb (truthy raw_content) || negb (truthy (strip raw_content))
  then mret None
  else
    let raw_content := truncate_input raw_content in
    let input_tokens := _estimate_tokens raw_content in
    mt ← gets _max_tokens;
    let estimated_tokens := input_tokens + mt in
    (* with self._budget_lock: *)
    reserved ← try_except
      (_wait_for_budget estimated_tokens;; mret true)
      is_RuntimeError
      (λ e, print (PrintError e);; mret false);
    if negb reserved then mret None
    else
      modify (λ s, set_window (_window_start s) (_window_requests s + 1)
                     (_window_tokens s + estimated_tokens) s);;
      modify (λ s, set_daily_tokens (_daily_tokens s + estimated_tokens) s);;
      _get_client;;
      retry_loop raw_content (map Z.of_nat (seq 0 (Z.to_nat max_retries))).

End Body.

(** [parse_content] calls itself at most once, on an input of at most 3000
    characters, for which the nested call cannot occur again
    ([parse_content_body_short] below): two unfoldings of the body are the
    method. *)
Definition parse_content : str → M state (option str) :=
  parse_content_body (parse_content_body (λ _, mret None)).

(** [parse_batch]: the contents are parsed one after the other, with a
    pause after each of them but the last.
<<
    results = []
    for i, (raw_content, page_url) in enumerate(contents):
        parsed = self.parse_content(raw_content, page_url)
        results.append((page_url, parsed))
        if i < len(contents) - 1:
            self._sleep_with_jitter(2.5)
    return results
>>
    [total] is [len(contents)] and [rest] what is left of
    [enumerate(contents)] from [i] on. *)
Fixpoint parse_batch_loop (total i : Z) (rest : list (str * str))
    (results : list (str * option str))
    : M state (list (str * option str)) :=
  match rest with
  | [] => mret results
  | (raw_content, page_url) :: rest =>
    parsed ← parse_content raw_content;
    let results := results ++ [(page_url, parsed)] in
    when (i <? total - 1) (_sleep_with_jitter (5 # 2));;
    parse_batch_loop total (i + 1) rest results
  end.

Definition parse_batch (contents : list (str * str))
    : M state (list (str * option str)) :=
  parse_batch_loop (len contents) 0 contents [].

End Groq.

End AIParser.

(* ===================================================================== *)
(** * backend/core/embedder.py                                             *)
(* ===================================================================== *)

Module Embedder.

Definition vector := list pyfloat.

Inductive task := retrieval_passage | retrieval_query.

(** The attributes set by [__init__] and the clock.  [_rpm_limit] and
    [_tpm_limit] come from the environment ([JINA_EMBED_RPM],
    [JINA_EMBED_TPM]). *)
Record state := mk {
  batch_size : Z;
  dimensions : Z;
  _rpm_limit : Z;
  _tpm_limit : Z;
  _window_start : Q;
  _window_requests : Z;
  _window_tokens : Z;
  clock : Q
}.

Definition _window_seconds : Q := 60.

(** [__init__] at time [now], with the limits read from the environment. *)
Definition init (rpm tpm : Z) (now : Q) : state :=
  mk Config.EMBEDDING_batch_size Config.EMBEDDING_dimensions rpm tpm
     now 0 0 now.

Definition set_window (ws : Q) (wr wt : Z) (s : state) : state :=
  mk (batch_size s) (dimensions s) (_rpm_limit s) (_tpm_limit s)
     ws wr wt (clock s).

Definition set_clock (c : Q) (s : state) : state :=
  mk (batch_size s) (dimensions s) (_rpm_limit s) (_tpm_limit s)
     (_window_start s) (_window_requests s) (_window_tokens s) c.

Definition time_time : M state Q := gets clock.
Definition time_sleep (d : Q) : M state unit :=
  modify (λ s, set_clock (clock s + d)%Q s).

Definition reset_window : M state unit :=
  t ← time_time; modify (set_window t 0 0).

Definition sum (l : list Z) : Z := foldr Z.add 0 l.

Section Tokenizer.

(** [self._tokenizer]: [None] when [tiktoken] is not installed, otherwise
    [tok t] is [len(self._tokenizer.encode(t))]. *)
Variable _tokenizer : option (str → nat).

Definition _estimate_tokens (texts : list str) : Z :=
  match _tokenizer with
  | None =>
    let total_chars := sum (map len texts) in
    Z.max 1 (total_chars / 4)
  | Some tok =>
    let total :=
      sum (map (λ t, if negb (truthy t) then 0 else Z.of_nat (tok t)) texts) in
    Z.max 1 total
  end.

Definition _sleep_with_jitter (seconds : Q) : M state unit :=
  if Qle_bool seconds 0 then mret ()
  else time_sleep (seconds + (5 # 100))%Q.

Definition _wait_for_budget (requests_cost tokens_cost : Z) : M state unit :=
  now ← time_time;
  ws ← gets _window_start;
  let elapsed := (now - ws)%Q in
  when (Qle_bool _window_seconds elapsed) reset_window;;
  wr ← gets _window_requests;
  wt ← gets _window_tokens;
  rpm ← gets _rpm_limit;
  tpm ← gets _tpm_limit;
  let exceeds_rpm := wr + requests_cost >? rpm in
  let exceeds_tpm := wt + tokens_cost >? tpm in
  if negb (exceeds_rpm || exceeds_tpm) then mret ()
  else
    ws ← gets _window_start;
    let sleep_for := (ws + _window_seconds - now)%Q in
    when (negb (Qle_bool sleep_for 0)) (_sleep_with_jitter sleep_for);;
    reset_window.

(** The reservation made by [embed_documents] and by [embed_query]:
<<
    self._wait_for_budget(requests_cost=1, tokens_cost=estimated_tokens)
    self._window_requests += 1
    self._window_tokens += estimated_tokens
>> *)
Definition reserve (estimated_tokens : Z) : M state unit :=
  _wait_for_budget 1 estimated_tokens;;
  modify (λ s, set_window (_window_start s) (_window_requests s + 1)
                 (_window_tokens s + estimated_tokens) s).

(** The reconciliation that follows the call:
<<
    if isinstance(prompt_tokens, int) and prompt_tokens >= 0:
        self._window_tokens += (prompt_tokens - estimated_tokens)
>> *)
Definition reconcile (prompt_tokens : option Z) (estimated_tokens : Z)
    : M state unit :=
  match prompt_tokens with
  | Some p =>
    when (p >=? 0)
      (modify (λ s, set_window (_window_start s) (_window_requests s)
                      (_window_tokens s + (p - estimated_tokens)) s))
  | None => mret ()
  end.

(** [max(0.01, tpm / float(estimated_tokens))] *)
Definition shrink_ratio (tpm estimated_tokens : Z) : Q :=
  let r := (inject_Z tpm / inject_Z estimated_tokens)%Q in
  if Qle_bool r (1 # 100) then (1 # 100)%Q else r.

(** [max(1, int(len(batch) * shrink_ratio))] *)
Definition new_size (tpm estimated_tokens : Z) (batch : list str) : Z :=
  Z.max 1 (Qtrunc (inject_Z (len batch) * shrink_ratio tpm estimated_tokens)).

(** The batch that one iteration of [embed_documents] sends, with its
    estimated cost: [texts[i:i + batch_size]], shrunk once when its
    estimate exceeds the TPM limit and it has more than one item. *)
Definition next_batch (s : state) (texts : list str) (i : Z)
    : list str * Z :=
  let batch := slice i (i + batch_size s) texts in
  let estimated_tokens := _estimate_tokens batch in
  if (estimated_tokens >? _tpm_limit s) && (len batch >? 1) then
    let n := new_size (_tpm_limit s) estimated_tokens batch in
    let batch := slice i (i + n) texts in
    (batch, _estimate_tokens batch)
  else (batch, estimated_tokens).

(** The HTTP exchange of [_embed_batch] with the Jina service, including
    its wait-and-retry loop on status 429, is a parameter: for a batch, a
    task and the time of the call, [jina] gives what [_embed_batch] returns
    or raises, and the time at which it does. *)
Variable jina :
  list str → task → Q → Exc (list vector * option Z) * Q.

Definition _embed_batch (batch : list str) (task : task)
    : M state (list vector * option Z) := λ s,
  let '(r, t) := jina batch task (clock s) in (r, set_clock t s).

(** One iteration of the [while i < len(texts)] loop of [embed_documents];
    it returns the new [i] and the vectors received.  (The call of
    [increment_embedding_count], which keeps a usage file up to date, is
    left out, here and in [embed_query].) *)
Definition embed_documents_iter (texts : list str) (i : Z)
    : M state (Z * list vector) :=
  s ← gets id;
  let '(batch, estimated_tokens) := next_batch s texts i in
  reserve estimated_tokens;;
  '(embeddings, prompt_tokens) ← _embed_batch batch retrieval_passage;
  reconcile prompt_tokens estimated_tokens;;
  let i := i + len batch in
  when (i <? len texts) (_sleep_with_jitter 3);;
  mret (i, embeddings).

(** [embed_documents]: the loop, run for at most [fuel] iterations; [None]
    when the fuel runs out before [i] reaches [len(texts)]. *)
Fixpoint embed_documents_loop (fuel : nat) (texts : list str) (i : Z)
    (all_embeddings : list vector) : M state (option (list vector)) :=
  if i <? len texts then
    match fuel with
    | O => mret None
    | S fuel' =>
      '(i', embeddings) ← embed_documents_iter texts i;
      embed_documents_loop fuel' texts i' (all_embeddings ++ embeddings)
    end
  else mret (Some all_embeddings).

Definition embed_documents (fuel : nat) (texts : list str)
    : M state (option (list vector)) :=
  embed_documents_loop fuel texts 0 [].

Definition embed_query (query : str) : M state vector :=
  let estimated_tokens := _estimate_tokens [query] in
  reserve estimated_tokens;;
  '(embeddings, prompt_tokens) ← _embed_batch [query] retrieval_query;
  reconcile prompt_tokens estimated_tokens;;
  match embeddings with
  | [] => raise (RuntimeError NoEmbeddingReturned)
  | v :: _ => mret v
  end.

End Tokenizer.

End Embedder.

(* ===================================================================== *)
(** * backend/core/embedder.py: the exchange with the Jina service         *)
(* ===================================================================== *)

Module EmbedderHttp.

(** A response of the endpoint, as [_embed_batch] reads it: the status 429,
    with what [_get_retry_after_seconds] finds in the headers (a finite
    number of seconds, or [None]); another status for which
    [raise_for_status] raises; or a decoded body, with the ["embedding"] of
    each item of ["data"] ([None] when it is not a list) and the
    ["prompt_tokens"] of ["usage"]. *)
Inductive response :=
| TooManyRequests (retry_after_s : option Q)
| ErrorStatus (status_code : Z)
| Body (data : list (option Embedder.vector)) (prompt_tokens : option Z).

(** [min(60.0, 2.0 ** min(attempt, 5))] *)
Definition default_backoff (attempt : Z) : Q :=
  let b := (2 ^ Z.min attempt 5)%Q in
  if Qle_bool 60 b then 60%Q else b.

(** The loop that reads the vectors out of ["data"]. *)
Fixpoint collect (data : list (option Embedder.vector))
    (embeddings : list Embedder.vector) : Exc (list Embedder.vector) :=
  match data with
  | [] => Ok embeddings
  | None :: _ => Raise (RuntimeError UnexpectedResponseFormat)
  | Some vec :: rest => collect rest (embeddings ++ [vec])
  end.

Section Http.

(** [self._http.post(self._endpoint, headers=headers, json=payload)]: the
    answer to the request number [attempt] for a batch and a task. *)
Variable http_post : list str → Embedder.task → Z → response.

(** The [while True] loop of [_embed_batch], run for at most [fuel]
    requests; [None] when the last of them was still answered by 429.  (The
    record of the tokens used, kept in the file of [request_counter], is
    left out.) *)
Fixpoint _embed_batch_loop (fuel : nat) (batch : list str)
    (task : Embedder.task) (attempt : Z)
    : M Embedder.state (option (list Embedder.vector * option Z)) :=
  match fuel with
  | O => mret None
  | S fuel' =>
    let attempt := attempt + 1 in
    match http_post batch task attempt with
    | TooManyRequests retry_after_s =>
      let backoff :=
        match retry_after_s with
        | Some x => x
        | None => default_backoff attempt
        end in
      Embedder._sleep_with_jitter backoff;;
      _embed_batch_loop fuel' batch task attempt
    | ErrorStatus status_code => raise (HTTPStatusError status_code)
    | Body data prompt_tokens =>
      match collect data [] with
      | Raise e => raise e
      | Ok embeddings => mret (Some (embeddings, prompt_tokens))
      end
    end
  end.

Definition _embed_batch (fuel : nat) (batch : list str)
    (task : Embedder.task)
    : M Embedder.state (option (list Embedder.vector * option Z)) :=
  _embed_batch_loop fuel batch task 0.

End Http.

End EmbedderHttp.

(* ===================================================================== *)
(** * backend/ingestion/base.py and backend/core/vector_store.py           *)
(* ===================================================================== *)

Module VectorStore.

(** [Chunk], the dataclass of [ingestion/base.py].  The metadata dictionary
    is an open string-keyed map. *)
Record Chunk := mkChunk {
  text : str;
  source_type : str;
  source_name : str;
  metadata : gmap str str
}.

(** One entity handed to [MilvusClient.insert]. *)
Record Row := mkRow {
  row_vector : list pyfloat;
  row_text : str;
  row_source_type : str;
  row_source_name : str;
  row_metadata : gmap str str
}.

Inductive line :=
| WarnWrongDim (got expected : Z)
| WarnNaNInf
| WarnSkipped (skipped total : Z)
| WarnNoValidData
| DebugInserted (n : Z) (collection_name : str).

(** The attributes set by [__init__], the content of the Milvus collections
    (by collection name) and what was printed. *)
Record state := mk {
  collection_docs : str;
  collection_chats : str;
  dimensions : Z;
  milvus : gmap str (list Row);
  stdout : list line
}.

Definition init : state :=
  mk Config.VECTOR_DB_collection_docs Config.VECTOR_DB_collection_chats
     Config.VECTOR_DB_dimensions
     (<[Config.VECTOR_DB_collection_docs := []]>
        (<[Config.VECTOR_DB_collection_chats := []]> ∅))
     [].

Definition print (l : line) : M state unit := λ s,
  (Ok (), mk (collection_docs s) (collection_chats s) (dimensions s)
             (milvus s) (stdout s ++ [l])).

(** [self.client.insert(collection_name=..., data=...)] followed by
    [flush] and [load_collection]: the rows are added to that collection. *)
Definition client_insert (collection_name : str) (data : list Row)
    : M state unit := λ s,
  (Ok (), mk (collection_docs s) (collection_chats s) (dimensions s)
             (<[collection_name := milvus s !!! collection_name ++ data]>
                (milvus s))
             (stdout s)).

Definition _get_collection (s : state) (source_type : str) : str :=
  if str_eqb source_type (lit "chat") then collection_chats s
  else collection_docs s.

(** [any(v != v or v == float('inf') or v == float('-inf') for v in e)] *)
Definition has_nan_or_inf (embedding : list pyfloat) : bool :=
  existsb (λ v, fne v v || feq v (Inf false) || feq v (Inf true)) embedding.

Definition to_row (chunk : Chunk) (embedding : list pyfloat) : Row :=
  mkRow embedding (slice_to 32000 (text chunk)) (source_type chunk)
        (slice_to 512 (source_name chunk)) (metadata chunk).

(** The [for chunk, embedding in zip(chunks, embeddings)] loop, with its
    local variables [data] and [skipped] and the lines it prints. *)
Fixpoint upsert_loop (dims : Z) (pairs : list (Chunk * list pyfloat))
    (data : list Row) (skipped : Z) (out : list line)
    : list Row * Z * list line :=
  match pairs with
  | [] => (data, skipped, out)
  | (chunk, embedding) :: rest =>
    if negb (truthy (text chunk)) || negb (truthy (strip (text chunk)))
    then upsert_loop dims rest data (skipped + 1) out
    else if negb (truthy embedding) || negb (len embedding =? dims)
    then upsert_loop dims rest data (skipped + 1)
           (out ++ [WarnWrongDim (len embedding) dims])
    else if has_nan_or_inf embedding
    then upsert_loop dims rest data (skipped + 1) (out ++ [WarnNaNInf])
    else upsert_loop dims rest (data ++ [to_row chunk embedding]) skipped out
  end.

Definition upsert (chunks : list Chunk) (embeddings : list (list pyfloat))
    : M state unit :=
  match chunks with
  | [] => mret ()
  | chunks_0 :: _ =>
    if negb (truthy embeddings) then mret ()
    else
      s ← gets id;
      let collection_name := _get_collection s (source_type chunks_0) in
      let '(data, skipped, out) :=
        upsert_loop (dimensions s) (zip chunks embeddings) [] 0 [] in
      foldr (λ l k, print l;; k) (mret ()) out;;
      when (negb (skipped =? 0)) (print (WarnSkipped skipped (len chunks)));;
      if negb (truthy data) then print WarnNoValidData
      else
        client_insert collection_name data;;
        print (DebugInserted (len data) collection_name)
  end.

End VectorStore.

(* ===================================================================== *)
(** * backend/core/retriever.py                                            *)
(* ===================================================================== *)

Module Retriever.

(** One search result: the dictionary built by [VectorStore.search], to
    which [search] and [_rerank] add the keys ["boosted"], ["rerank_score"]
    and ["_is_fallback"].  A key that may be absent is an [option]. *)
Record Hit := mkHit {
  id : str;
  score : option pyfloat;
  text : str;
  source_type : str;
  source_name : str;
  metadata : gmap str str;
  boosted : option bool;
  rerank_score : option pyfloat;
  _is_fallback : option bool
}.

Definition set_boosted (b : bool) (r : Hit) : Hit :=
  mkHit (id r) (score r) (text r) (source_type r) (source_name r)
        (metadata r) (Some b) (rerank_score r) (_is_fallback r).

Definition set_rerank_score (x : pyfloat) (r : Hit) : Hit :=
  mkHit (id r) (score r) (text r) (source_type r) (source_name r)
        (metadata r) (boosted r) (Some x) (_is_fallback r).

Definition set_is_fallback (b : bool) (r : Hit) : Hit :=
  mkHit (id r) (score r) (text r) (source_type r) (source_name r)
        (metadata r) (boosted r) (rerank_score r) (Some b).

(** [r.get("metadata", {}).get("file_path", '')] *)
Definition file_path (r : Hit) : str :=
  default [] (metadata r !! lit "file_path").

(** [r.get("rerank_score", 0)] *)
Definition get_rerank_score (r : Hit) : pyfloat :=
  default (of_int 0) (rerank_score r).

(** [list.sort(key=...)]: a stable sort; [lt] is [<] on the keys. *)
Fixpoint insert_by {A K} (lt : K → K → bool) (key : A → K) (x : A)
    (l : list A) : list A :=
  match l with
  | [] => [x]
  | y :: l' =>
    if lt (key y) (key x) then y :: insert_by lt key x l' else x :: l
  end.

Definition sort_by {A K} (lt : K → K → bool) (key : A → K) (l : list A)
    : list A :=
  foldr (insert_by lt key) [] l.

(** [list.sort(key=..., reverse=True)]: descending, equal keys keep their
    order. *)
Definition sort_by_reverse {A K} (lt : K → K → bool) (key : A → K)
    (l : list A) : list A :=
  sort_by (λ a b, lt b a) key l.

(** [<] on the tuples [(bool, float)] used as sort key by [search]. *)
Definition tuple_lt (a b : bool * pyfloat) : bool :=
  if negb (eqb a.1 b.1) then negb a.1 && b.1
  else if fne a.2 b.2 then flt a.2 b.2
  else false.

(** The attributes set by [__init__]. *)
Record t := mk {
  top_k_search : Z;
  top_k_rerank : Z;
  score_threshold : pyfloat;
  voyage_api_key : option str
}.

(** [__init__]; [VOYAGE_API_KEY] is [os.getenv("VOYAGE_API_KEY")]. *)
Definition init (VOYAGE_API_KEY : option str) : t :=
  mk Config.RETRIEVAL_top_k_search Config.RETRIEVAL_top_k_rerank
     Config.RETRIEVAL_score_threshold VOYAGE_API_KEY.

(** The request posted to the Voyage rerank endpoint, and what comes back:
    the call raises, or a response arrives with a status code and a body
    whose decoding ([response.json()]) raises or has a ["data"] list
    (empty when the key is missing). *)
Record rerank_request := mkRequest {
  req_query : str;
  req_documents : list str;
  req_top_k : Z
}.

Record rerank_item := mkItem {
  index : option Z;
  relevance_score : option pyfloat
}.

Inductive post_result :=
| PostRaises (e : exn)
| Response (status_code : Z) (json_data : Exc (list rerank_item)).

Definition _fallback_rank (self : t) (results : list Hit) : list Hit :=
  let top := slice_to (top_k_rerank self) results in
  let top :=
    map (λ r,
      let raw_score := default (Fin (1 # 2)) (score r) in
      let r := set_rerank_score (Py.max (Fin 0) (Py.min (Fin 1) raw_score)) r in
      set_is_fallback true r) top in
  sort_by_reverse flt get_rerank_score top.

(** [f"[File: {file_path}]\n{text}"] or [text] *)
Definition document (r : Hit) : str :=
  if truthy (file_path r)
  then lit "[File: " ++ file_path r ++ lit (String "]" (String "010" EmptyString))
         ++ text r
  else text r.

(** The [for item in items] loop of [_rerank]. *)
Fixpoint map_items (results : list Hit) (items : list rerank_item)
    (reranked_results : list Hit) : Exc (list Hit) :=
  match items with
  | [] => Ok reranked_results
  | item :: rest =>
    let index := default 0 (index item) in
    let score := default (of_int 0) (relevance_score item) in
    if index <? len results then
      match getitem results index with
      | Raise e => Raise e
      | Ok r =>
        map_items results rest (reranked_results ++ [set_rerank_score score r])
      end
    else map_items results rest reranked_results
  end.

(** [build_context]: one block per result, a label followed by the text.
    The values of the metadata are the strings that the f-string prints. *)
Definition has_key (metadata : gmap str str) (k : string) : bool :=
  bool_decide (is_Some (metadata !! lit k)).

Definition source_label (result : Hit) : str :=
  let source_name := source_name result in
  let source_type := source_type result in
  let metadata := metadata result in
  let source_label := lit "[Source: " ++ source_name in
  let source_label :=
    if str_eqb source_type (lit "pdf") && has_key metadata "page_number"
    then source_label ++ lit " | page " ++ metadata !!! lit "page_number"
    else if str_eqb source_type (lit "github") && has_key metadata "file_path"
    then source_label ++ lit " | file: " ++ metadata !!! lit "file_path"
    else if str_eqb source_type (lit "code")
            && has_key metadata "function_name"
    then source_label ++ lit " | function "
           ++ metadata !!! lit "function_name"
    else if str_eqb source_type (lit "csv") && has_key metadata "row_index"
    then source_label ++ lit " | row " ++ metadata !!! lit "row_index"
    else if str_eqb source_type (lit "chat") && has_key metadata "turn_index"
    then source_label ++ lit " | turn " ++ metadata !!! lit "turn_index"
    else if str_eqb source_type (lit "youtube")
            && has_key metadata "chunk_index"
    then
      let source_label :=
        source_label ++ lit " | transcript chunk "
          ++ metadata !!! lit "chunk_index" in
      if has_key metadata "video_url"
      then source_label ++ lit " | " ++ metadata !!! lit "video_url"
      else source_label
    else source_label in
  source_label ++ lit "]".

(** [f"{source_label}\n{text}\n"] *)
Definition context_part (result : Hit) : str :=
  source_label result ++ [10%N] ++ text result ++ [10%N].

Definition build_context (results : list Hit) : str :=
  let context_parts := map context_part results in
  str_join [10%N] context_parts.

Section Voyage.

Variable httpx_post : rerank_request → post_result.

(** The [try] block of [_rerank]. *)
Definition rerank_try (self : t) (query : str) (results : list Hit)
    (documents : list str) : Exc (list Hit) :=
  match httpx_post (mkRequest query documents (top_k_rerank self)) with
  | PostRaises e => Raise e
  | Response status_code json_data =>
    if negb (status_code =? 200) then Ok (_fallback_rank self results)
    else
      match json_data with
      | Raise e => Raise e
      | Ok items =>
        if negb (truthy items) then Ok (_fallback_rank self results)
        else map_items results items []
      end
  end.

Definition _rerank (self : t) (query : str) (results : list Hit)
    : Exc (list Hit) :=
  if negb (truthy results) then Ok []
  else if negb (truthy (default [] (voyage_api_key self)))
  then Ok (_fallback_rank self results)
  else
    let documents := map document results in
    match rerank_try self query results documents with
    | Ok reranked_results => Ok reranked_results
    | Raise TimeoutException => Ok (_fallback_rank self results)
    | Raise _ => Ok (_fallback_rank self results)
    end.

(** Lines 108-125 of [search]: the threshold in force, the filter, and the
    guarantee of a non-empty answer. *)
Definition is_fallback (reranked : list Hit) : bool :=
  forallb (λ r, bool_decide (is_Some (rerank_score r))
                && default false (_is_fallback r)) reranked.

(** The literal [0.2], the binary64 value nearest to one fifth. *)
Definition fallback_floor : pyfloat :=
  Fin (3602879701896397 # 18014398509481984).

Definition threshold (self : t) (reranked : list Hit) : pyfloat :=
  if is_fallback reranked then fallback_floor else score_threshold self.

Definition filter_by_threshold (self : t) (reranked : list Hit) : list Hit :=
  let threshold := threshold self reranked in
  let filtered :=
    List.filter (λ r, fge (get_rerank_score r) threshold) reranked in
  if negb (truthy filtered) && truthy reranked
  then slice_to 3 reranked
  else filtered.

(** The filename boost of [search]. *)
Definition boost (filename : str) (results : list Hit) : list Hit :=
  let results :=
    map (λ r, if contains filename (file_path r) then set_boosted true r
              else r) results in
  sort_by tuple_lt
    (λ x, (negb (default false (boosted x)),
           fneg (default (of_int 0) (score x)))) results.

(** [_extract_filename_from_query] (a regular-expression search) and
    [VectorStore.search] (the Milvus query) are parameters, and so are the
    tokenizer and the remote service of the embedder [self.embedder]. *)
Variable _extract_filename_from_query : str → option str.
Variable vector_store_search :
  Embedder.vector → Z → option (list str) → list Hit.
Variable _tokenizer : option (str → nat).
Variable jina :
  list str → Embedder.task → Q →
  Exc (list Embedder.vector * option Z) * Q.

(** Lines 74-93 of [search]: the hits of the vector store, those whose file
    path contains the file name found in the query moved to the front. *)
Definition candidates (self : t) (query : str)
    (source_types : option (list str)) (query_embedding : Embedder.vector)
    : list Hit :=
  let results :=
    vector_store_search query_embedding (top_k_search self) source_types in
  let filename := _extract_filename_from_query query in
  if truthy (default [] filename)
  then boost (default [] filename) results
  else results.

Definition search (self : t) (query : str)
    (source_types : option (list str)) : M Embedder.state (list Hit) :=
  query_embedding ← Embedder.embed_query _tokenizer jina query;
  let results := candidates self query source_types query_embedding in
  if negb (truthy results) then mret []
  else
    match _rerank self query results with
    | Raise e => raise e
    | Ok reranked => mret (filter_by_threshold self reranked)
    end.

End Voyage.

End Retriever.

(* ===================================================================== *)
(** * backend/core/vector_store.py: the queries                            *)
(* ===================================================================== *)

Module VectorStoreQueries.

(** One hit of [MilvusClient.search]: a field is found inside the
    ["entity"] dictionary or on the hit itself. *)
Record Entity := mkEntity {
  entity_text : option str;
  entity_source_type : option str;
  entity_source_name : option str;
  entity_metadata : option (gmap str str)
}.

Record MilvusHit := mkMilvusHit {
  hit_id : str;
  hit_distance : option pyfloat;
  hit_entity : option Entity;
  hit_text : option str;
  hit_source_type : option str;
  hit_source_name : option str;
  hit_metadata : option (gmap str str)
}.

(** [a or b], where [a] is the result of a [dict.get]. *)
Definition py_or {A} (truth : A → bool) (a : option A) (b : A) : A :=
  match a with
  | Some x => if truth x then x else b
  | None => b
  end.

(** The dictionary appended to [results] for one hit. *)
Definition to_result (hit : MilvusHit) : Retriever.Hit :=
  let entity := default (mkEntity None None None None) (hit_entity hit) in
  Retriever.mkHit
    (hit_id hit)
    (Some (default (of_int 0) (hit_distance hit)))
    (py_or truthy (entity_text entity) (default [] (hit_text hit)))
    (py_or truthy (entity_source_type entity)
       (default [] (hit_source_type hit)))
    (py_or truthy (entity_source_name entity)
       (default [] (hit_source_name hit)))
    (py_or (λ m, bool_decide (m ≠ ∅)) (entity_metadata entity)
       (default ∅ (hit_metadata hit)))
    None None None.

(** The filter sent to Milvus:
<<
    filter_expr = None
    if source_types and "All" not in source_types:
        allowed = ", ".join([f'"{t}"' for t in source_types])
        filter_expr = f"source_name in [{allowed}]"
>> *)
Definition filter_expr (source_types : option (list str)) : option str :=
  let source_types := default [] source_types in
  if truthy source_types && negb (bool_decide (lit "All" ∈ source_types))
  then
    let allowed :=
      str_join (lit ", ") (map (λ t, [34%N] ++ t ++ [34%N]) source_types) in
    Some (lit "source_name in [" ++ allowed ++ lit "]")
  else None.

(** [source_name.replace('\\', '\\\\').replace('"', '\\"')]: a backslash
    is doubled, then a backslash is put before each double quote. *)
Definition escape (source_name : str) : str :=
  replace_char 34 [92%N; 34%N] (replace_char 92 [92%N; 92%N] source_name).

(** [f'source_name == "{escaped}"'] *)
Definition source_name_filter (escaped : str) : str :=
  lit "source_name == " ++ [34%N] ++ escaped ++ [34%N].

Section Client.

(** The Milvus client: [client_search] is [self.client.search] (the
    collection, the query vector, [limit] and [filter]; one list of hits
    per query vector, or an exception), [client_query] is
    [self.client.query] (the collection, [filter], [limit] and [offset]).
    Neither changes the store. *)
Variable client_search :
  str → list pyfloat → Z → option str → Exc (list (list MilvusHit)).
Variable client_query : str → str → Z → Z → Exc (list VectorStore.Row).

(** The second [try] block of the loop of [search], for one collection:
    the results it appends.  (The first [try] block only prints
    statistics.) *)
Definition search_collection (collection_name : str)
    (query_embedding : list pyfloat) (top_k : Z) (filter_expr : option str)
    : list Retriever.Hit :=
  match client_search collection_name query_embedding top_k filter_expr with
  | Raise _ => []
  | Ok search_results =>
    match search_results with
    | [] => []
    | search_results_0 :: _ => map to_result search_results_0
    end
  end.

(** [search]; the sort key [x["score"]] is set on every element by
    [to_result]. *)
Definition search (self : VectorStore.state) (query_embedding : list pyfloat)
    (top_k : Z) (source_types : option (list str)) : list Retriever.Hit :=
  let collections_to_search :=
    [VectorStore.collection_docs self; VectorStore.collection_chats self] in
  let results :=
    foldl (λ results collection_name,
             results ++ search_collection collection_name query_embedding
                          top_k (filter_expr source_types))
          [] collections_to_search in
  let results :=
    Retriever.sort_by_reverse flt
      (λ x, default (of_int 0) (Retriever.score x)) results in
  slice_to top_k results.

(** [get_chunk_count]: the [while True] loop over the pages of one
    collection, inside its [try]; it gives the new value of [count],
    whether it ends by [break] or by an exception, and [None] when [fuel]
    iterations did not end it. *)
Definition batch : Z := 16383.

Fixpoint count_pages (fuel : nat) (collection_name filter : str)
    (offset count : Z) : option Z :=
  match fuel with
  | O => None
  | S fuel' =>
    match client_query collection_name filter batch offset with
    | Raise _ => Some count
    | Ok results =>
      let count := count + len results in
      if len results <? batch then Some count
      else count_pages fuel' collection_name filter (offset + batch) count
    end
  end.

Definition get_chunk_count (fuel : nat) (self : VectorStore.state)
    (source_name : str) : option Z :=
  let count := 0 in
  let escaped := escape source_name in
  count ← count_pages fuel (VectorStore.collection_docs self)
            (source_name_filter escaped) 0 count;
  count_pages fuel (VectorStore.collection_chats self)
    (source_name_filter escaped) 0 count.

End Client.

End VectorStoreQueries.

(* ===================================================================== *)
(** * backend/core/request_counter.py                                      *)
(* ===================================================================== *)

Module RequestCounter.

(** The JSON object kept in [COUNTER_FILE]; a key may be missing, and
    ["embedding_tokens_remaining"] may hold [None]. *)
Record Counter := mkCounter {
  date : option str;
  embedding_requests : option Z;
  embedding_chunks : option Z;
  embedding_tokens_remaining : option (option Z);
  embedding_tokens_used : option Z
}.

(** The state is the file: absent, or holding an object. *)
Abbreviation file := (option Counter) (only parsing).

Definition KeyError : exn := OtherException.

(** [_load_counter] *)
Definition _load_counter : M file Counter :=
  f ← gets id;
  match f with
  | Some data =>
    mret (mkCounter
            (Some (default [] (date data)))
            (Some (default 0 (embedding_requests data)))
            (Some (default 0 (embedding_chunks data)))
            (Some (default None (embedding_tokens_remaining data)))
            (Some (default 0 (embedding_tokens_used data))))
  | None =>
    mret (mkCounter (Some []) (Some 0) (Some 0) (Some (Some 100000)) (Some 0))
  end.

(** [_save_counter] *)
Definition _save_counter (data : Counter) : M file unit :=
  modify (λ _, Some data).

(** [counter[key]] *)
Definition getkey {A} (v : option A) : M file A :=
  match v with
  | Some x => mret x
  | None => raise KeyError
  end.

(** The dictionary written when the day has changed; it has no
    ["embedding_tokens_used"] key. *)
Definition fresh (today : str) : Counter :=
  mkCounter (Some today) (Some 0) (Some 0) (Some None) None.

Section Today.

(** [get_today_date()], the UTC date at the time of the call. *)
Variable today : str.

Definition increment_embedding_count (requests_count chunks_count : Z)
    : M file unit :=
  counter ← _load_counter;
  d ← getkey (date counter);
  let counter := if negb (str_eqb d today) then fresh today else counter in
  r ← getkey (embedding_requests counter);
  let counter :=
    mkCounter (date counter) (Some (r + requests_count))
      (embedding_chunks counter) (embedding_tokens_remaining counter)
      (embedding_tokens_used counter) in
  c ← getkey (embedding_chunks counter);
  let counter :=
    mkCounter (date counter) (embedding_requests counter)
      (Some (c + chunks_count)) (embedding_tokens_remaining counter)
      (embedding_tokens_used counter) in
  _save_counter counter.

Definition set_embedding_tokens_remaining (tokens_remaining : Z)
    : M file unit :=
  counter ← _load_counter;
  d ← getkey (date counter);
  let counter := if negb (str_eqb d today) then fresh today else counter in
  let counter :=
    mkCounter (date counter) (embedding_requests counter)
      (embedding_chunks counter) (Some (Some tokens_remaining))
      (embedding_tokens_used counter) in
  _save_counter counter.

Definition get_embedding_stats : M file Counter :=
  counter ← _load_counter;
  d ← getkey (date counter);
  if negb (str_eqb d today) then mret (fresh today)
  else mret counter.

End Today.

End RequestCounter.

(* ===================================================================== *)
(** * backend/ingestion/website.py                                         *)
(* ===================================================================== *)

Module WebsiteIngester.

(** A crawled page, the dictionary returned by [_crawl_one_crawl4ai_raw]
    and [_crawl_one_httpx_raw]; the empty dictionary of a page that could
    not be fetched is [None]. *)
Record Page := mkPage {
  url : str;
  title : str;
  raw : str
}.

(** [[p for p in pages if p and p.get("raw")]] *)
Definition with_raw (pages : list (option Page)) : list Page :=
  omap (λ p, p ≫= λ p, if truthy (raw p) then Some p else None) pages.

Section Batching.

Variables rpm_limit tpm_limit : Z.
Variable pages : list Page.
Variable estimated : list Z.

(** The inner loop of [_pages_to_chunks_ai], which fills one batch:
<<
    while idx < total_pages and len(batch_pages) < rpm_limit:
        t = estimated[idx]
        if batch_pages and (batch_sum + t) > tpm_limit:
            break
        if not batch_pages and t > tpm_limit:
            batch_pages.append(pages[idx])
            batch_sum += t
            idx += 1
            break
        batch_pages.append(pages[idx])
        batch_sum += t
        idx += 1
>>
    It gives [idx], [batch_pages] and [batch_sum] at the exit of the loop,
    and [None] when [fuel] iterations did not reach it. *)
Fixpoint fill_batch (fuel : nat) (idx : Z) (batch_pages : list Page)
    (batch_sum : Z) : Exc (option (Z * list Page * Z)) :=
  if (idx <? len pages) && (len batch_pages <? rpm_limit) then
    match fuel with
    | O => Ok None
    | S fuel' =>
      match getitem estimated idx with
      | Raise e => Raise e
      | Ok t =>
        if truthy batch_pages && (batch_sum + t >? tpm_limit)
        then Ok (Some (idx, batch_pages, batch_sum))
        else
          match getitem pages idx with
          | Raise e => Raise e
          | Ok p =>
            if negb (truthy batch_pages) && (t >? tpm_limit)
            then Ok (Some (idx + 1, batch_pages ++ [p], batch_sum + t))
            else fill_batch fuel' (idx + 1) (batch_pages ++ [p])
                   (batch_sum + t)
          end
      end
    end
  else Ok (Some (idx, batch_pages, batch_sum)).

(** The outer loop, [while idx < total_pages], reduced to the batches it
    forms: what is done with a batch (the calls of [parse_content] and the
    chunking) changes neither [idx] nor the two lists. *)
Fixpoint batches_from (fuel : nat) (idx : Z) (batches : list (list Page))
    : Exc (option (list (list Page))) :=
  if idx <? len pages then
    match fuel with
    | O => Ok None
    | S fuel' =>
      match fill_batch fuel idx [] 0 with
      | Raise e => Raise e
      | Ok None => Ok None
      | Ok (Some (idx, batch_pages, _)) =>
        batches_from fuel' idx (batches ++ [batch_pages])
      end
    end
  else Ok (Some batches).

End Batching.

Section Pages.

(** [_clean_text], a pipeline of regular expressions, is a parameter;
    [_ai_parser] is the parser whose [estimate_request_tokens] is called. *)
Variable _clean_text : str → str.
Variable _ai_parser : AIParser.state.

(** The batches of pages that [_pages_to_chunks_ai] hands to the parser,
    one batch after the other. *)
Definition _pages_to_chunks_ai_batches (fuel : nat)
    (pages : list (option Page)) : Exc (option (list (list Page))) :=
  if negb (truthy pages) then Ok (Some [])
  else
    let rpm_limit := Config.AI_PARSER_rpm_limit in
    let tpm_limit := Config.AI_PARSER_tpm_limit in
    let pages := with_raw pages in
    if negb (truthy pages) then Ok (Some [])
    else
      let estimated :=
        map (λ p, AIParser.estimate_request_tokens _ai_parser
                    (_clean_text (raw p))) pages in
      batches_from rpm_limit tpm_limit pages estimated fuel 0 [].

End Pages.

Section Chunking.

(** [MIN_WORDS_PER_CHUNK] and [MIN_CHUNK_CHARS] *)
Definition MIN_WORDS_PER_CHUNK : Z := 15.
Definition MIN_CHUNK_CHARS : Z := 80.

(** [self.chunk_size] and [self.overlap], which [__init__] reads from
    [CHUNKING["website"]] (800 and 100), and the time of the call
    ([datetime.now(timezone.utc).isoformat()]). *)
Variables chunk_size overlap : Z.
Variable now : str.

(** The search for a natural break point:
<<
    for boundary in ["\n\n", "\n", ". ", "! ", "? "]:
        pos = chunk_text.rfind(boundary)
        if pos > self.chunk_size // 2:
            chunk_text = chunk_text[: pos + len(boundary)]
            break
>> *)
Fixpoint cut_at_boundary (boundaries : list str) (chunk_text : str) : str :=
  match boundaries with
  | [] => chunk_text
  | boundary :: rest =>
    let pos := rfind boundary chunk_text in
    if pos >? chunk_size / 2
    then slice_to (pos + len boundary) chunk_text
    else cut_at_boundary rest chunk_text
  end.

Definition boundaries : list str :=
  [[10%N; 10%N]; [10%N]; lit ". "; lit "! "; lit "? "].

(** The [while start < len(text)] loop of [_text_to_chunks], run for at
    most [fuel] iterations. *)
Fixpoint chunks_from (fuel : nat) (text page_url root_url title : str)
    (start chunk_idx : Z) (chunks : list VectorStore.Chunk)
    : option (list VectorStore.Chunk) :=
  if start <? len text then
    match fuel with
    | O => None
    | S fuel' =>
      let end_ := start + chunk_size in
      let chunk_text := slice start end_ text in
      let chunk_text :=
        if end_ <? len text then cut_at_boundary boundaries chunk_text
        else chunk_text in
      let chunk_text := strip chunk_text in
      let word_count := len (split chunk_text) in
      let '(chunks, chunk_idx) :=
        if (word_count >=? MIN_WORDS_PER_CHUNK)
           && (len chunk_text >=? MIN_CHUNK_CHARS)
        then
          (chunks ++ [VectorStore.mkChunk chunk_text (lit "website") root_url
                        (<[lit "page_url" := page_url]>
                           (<[lit "page_title" := slice_to 200 title]>
                              (<[lit "chunk_index" := str_of_int chunk_idx]>
                                 (<[lit "ingested_at" := now]> ∅))))],
           chunk_idx + 1)
        else (chunks, chunk_idx) in
      let advance := Z.max (len chunk_text - overlap) 1 in
      let start := start + advance in
      if chunk_idx >? 5000 then Some chunks
      else chunks_from fuel' text page_url root_url title start chunk_idx
             chunks
    end
  else Some chunks.

Definition _text_to_chunks (fuel : nat) (text page_url root_url title : str)
    : option (list VectorStore.Chunk) :=
  if len text <? MIN_CHUNK_CHARS then Some []
  else chunks_from fuel text page_url root_url title 0 0 [].

End Chunking.

Section Dedup.

(** [hashlib.md5(s.encode("utf-8")).hexdigest()] *)
Variable md5_hexdigest : str → str.

(** The loop of [_deduplicate_chunks], with its variables [seen_hashes]
    and [unique]. *)
Fixpoint dedup_loop (chunks : list VectorStore.Chunk)
    (seen_hashes : gset str) (unique : list VectorStore.Chunk)
    : list VectorStore.Chunk :=
  match chunks with
  | [] => unique
  | chunk :: rest =>
    let fingerprint :=
      md5_hexdigest (slice_to 300 (VectorStore.text chunk)) in
    if bool_decide (fingerprint ∉ seen_hashes)
    then dedup_loop rest (seen_hashes ∪ {[fingerprint]}) (unique ++ [chunk])
    else dedup_loop rest seen_hashes unique
  end.

Definition _deduplicate_chunks (chunks : list VectorStore.Chunk)
    : list VectorStore.Chunk :=
  dedup_loop chunks ∅ [].

End Dedup.

End WebsiteIngester.

(* ===================================================================== *)
(** * Specification vocabulary                                             *)
(* ===================================================================== *)

(** ** Reranker *)

(** The ways in which the remote reranker is unavailable to [_rerank]: no
    API key, a time-out or another exception of the HTTP call, a status
    other than 200, a body that cannot be decoded, an empty ["data"]. *)
Inductive reranker_unavailable
    (httpx_post : Retriever.rerank_request → Retriever.post_result)
    (self : Retriever.t) (query : str) (results : list Retriever.Hit)
    : Prop :=
| Unconfigured :
    truthy (default [] (Retriever.voyage_api_key self)) = false →
    reranker_unavailable httpx_post self query results
| CallRaises e :
    httpx_post (Retriever.mkRequest query (map Retriever.document results)
                  (Retriever.top_k_rerank self)) = Retriever.PostRaises e →
    reranker_unavailable httpx_post self query results
| StatusNot200 status_code body :
    httpx_post (Retriever.mkRequest query (map Retriever.document results)
                  (Retriever.top_k_rerank self))
      = Retriever.Response status_code body →
    status_code ≠ 200 →
    reranker_unavailable httpx_post self query results
| BodyUndecodable e :
    httpx_post (Retriever.mkRequest query (map Retriever.document results)
                  (Retriever.top_k_rerank self))
      = Retriever.Response 200 (Raise e) →
    reranker_unavailable httpx_post self query results
| EmptyData :
    httpx_post (Retriever.mkRequest query (map Retriever.document results)
                  (Retriever.top_k_rerank self))
      = Retriever.Response 200 (Ok []) →
    reranker_unavailable httpx_post self query results.

(** A result scored by the local fallback: it has a ["rerank_score"] and
    its ["_is_fallback"] flag is set. *)
Definition fallback_scored (r : Retriever.Hit) : Prop :=
  is_Some (Retriever.rerank_score r) ∧ Retriever._is_fallback r = Some true.

(** A candidate with its similarity, clamped into the unit interval, as
    rerank score, and flagged as a fallback. *)
Definition with_fallback_score (r : Retriever.Hit) : Retriever.Hit :=
  Retriever.set_is_fallback true
    (Retriever.set_rerank_score
       (Py.max (Fin 0)
          (Py.min (Fin 1) (default (Fin (1 # 2)) (Retriever.score r))))
       r).

(** Descending order of the rerank scores. *)
Definition by_score_desc (a b : Retriever.Hit) : Prop :=
  fge (Retriever.get_rerank_score a) (Retriever.get_rerank_score b) = true.

(** ** Rate budgets *)

(** The lazy roll-over of [AIParser._wait_for_budget]: a window that is 60
    seconds old is reopened with its two counters at zero. *)
Definition rolled_over (s : AIParser.state) : AIParser.state :=
  if Qle_bool AIParser._window_seconds
       (AIParser.clock s - AIParser._window_start s)
  then AIParser.set_window (AIParser.clock s) 0 0 s
  else s.

(** The three counters of the parser's budget. *)
Definition counters (s : AIParser.state) : Z * Z * Z :=
  (AIParser._window_requests s, AIParser._window_tokens s,
   AIParser._daily_tokens s).

(** What happens to the budget of an embedder, call after call: a
    reservation, the reconciliation with the usage reported by the service,
    or time passing. *)
Inductive event :=
| Reserve (estimated_tokens : Z)
| Reconcile (prompt_tokens : option Z) (estimated_tokens : Z)
| Elapse (seconds : Q).

Definition run_event (e : event) : M Embedder.state unit :=
  match e with
  | Reserve c => Embedder.reserve c
  | Reconcile p c => Embedder.reconcile p c
  | Elapse d => Embedder.time_sleep d
  end.

(** The states of the embedder just after each reservation of a run. *)
Fixpoint after_reservations (es : list event) (s : Embedder.state)
    : list Embedder.state :=
  match es with
  | [] => []
  | e :: es' =>
    let s' := (run_event e s).2 in
    match e with
    | Reserve _ => s' :: after_reservations es' s'
    | _ => after_reservations es' s'
    end
  end.

Definition within_limits (s : Embedder.state) : Prop :=
  Embedder._window_requests s <= Embedder._rpm_limit s
  ∧ Embedder._window_tokens s <= Embedder._tpm_limit s.

(** ** Storage *)

(** Empty or white space only. *)
Definition blank (t : str) : Prop := Forall (λ c, isspace c = true) t.

(** NaN or an infinity. *)
Definition non_finite (v : pyfloat) : Prop := v = NaN ∨ ∃ b, v = Inf b.

Definition is_finite (v : pyfloat) : bool :=
  match v with Fin _ => true | _ => false end.

(** The three checks a fragment and its vector must pass: the text is not
    empty or made of white space only, the vector is not empty and has the
    configured dimension, and its values are finite. *)
Definition passes_checks (dims : Z) (p : VectorStore.Chunk * list pyfloat)
    : bool :=
  negb (forallb isspace (VectorStore.text p.1))
  && (truthy p.2 && (len p.2 =? dims))
  && forallb is_finite p.2.

Definition row_of (p : VectorStore.Chunk * list pyfloat) : VectorStore.Row :=
  VectorStore.to_row p.1 p.2.

(* ===================================================================== *)
(** * Concrete inputs                                                      *)
(* ===================================================================== *)

Definition example_hit (name : string) (similarity : Q) : Retriever.Hit :=
  Retriever.mkHit (lit name) (Some (Fin similarity)) (lit "some text")
    (lit "pdf") (lit "paper.pdf") ∅ None None None.

Definition example_key : option str := Some (lit "voyage-key").

(** A reranker that answers 503, and one that answers 200 with [items]. *)
Definition post_503 (_ : Retriever.rerank_request) : Retriever.post_result :=
  Retriever.Response 503 (Ok []).

Definition post_items (items : list Retriever.rerank_item)
    (_ : Retriever.rerank_request) : Retriever.post_result :=
  Retriever.Response 200 (Ok items).

(** An embedding service that returns one vector per text and reports no
    usage. *)
Definition example_jina (batch : list str) (_ : Embedder.task) (now : Q)
    : Exc (list Embedder.vector * option Z) * Q :=
  (Ok (map (λ _, [Fin 1; Fin 0]) batch, None), now).

Definition example_embedder : Embedder.state := Embedder.init 100 100000 0.

Definition two_hits : list Retriever.Hit :=
  [example_hit "a" (7 # 8); example_hit "b" (3 # 4)].

Definition four_hits : list Retriever.Hit :=
  [example_hit "a" (7 # 8); example_hit "b" (3 # 4);
   example_hit "c" (1 # 2); example_hit "d" (1 # 4)].

(** Four remote scores, all below the configured floor of -5.0. *)
Definition low_items : list Retriever.rerank_item :=
  [Retriever.mkItem (Some 0) (Some (Fin (-6)));
   Retriever.mkItem (Some 1) (Some (Fin (-7)));
   Retriever.mkItem (Some 2) (Some (Fin (-8)));
   Retriever.mkItem (Some 3) (Some (Fin (-9)))].

Definition low_reranked : list Retriever.Hit :=
  [Retriever.set_rerank_score (Fin (-6)) (example_hit "a" (7 # 8));
   Retriever.set_rerank_score (Fin (-7)) (example_hit "b" (3 # 4));
   Retriever.set_rerank_score (Fin (-8)) (example_hit "c" (1 # 2));
   Retriever.set_rerank_score (Fin (-9)) (example_hit "d" (1 # 4))].

(** One result scored by the fallback (0.5) and one by the remote
    reranker (0.125). *)
Definition mixed_results : list Retriever.Hit :=
  [with_fallback_score (example_hit "a" (1 # 2));
   Retriever.set_rerank_score (Fin (1 # 8)) (example_hit "b" (1 # 4))].

(** A parser whose daily budget is spent, 100 seconds after its window
    opened, and the same 10 seconds after. *)
Definition stale_parser : AIParser.state :=
  AIParser.mk 1024 30 30000 500000 0 3 900 500000 100 0 [].
Definition fresh_parser : AIParser.state :=
  AIParser.mk 1024 30 30000 500000 0 3 900 500000 10 0 [].

Definition groq_down (_ : nat) : AIParser.completion :=
  AIParser.Failed (lit "connection refused").

(** An embedder limited to 100 requests and 100 tokens per minute, a text
    of 404 characters, and a batch whose first text has 800 characters. *)
Definition small_embedder : Embedder.state := Embedder.init 100 100 0.
Definition big_text : str := repeat 97%N 404.
Definition heavy_first : list str := [repeat 97%N 800; []; []; []].

(** A store for vectors of dimension 2, with the collections of
    [config.VECTOR_DB]. *)
Definition small_store : VectorStore.state :=
  VectorStore.mk Config.VECTOR_DB_collection_docs
    Config.VECTOR_DB_collection_chats 2 (VectorStore.milvus VectorStore.init)
    [].

Definition example_chunk (source_type text : string) : VectorStore.Chunk :=
  VectorStore.mkChunk (lit text) (lit source_type) (lit "source") ∅.

Definition unit_vector : list pyfloat := [Fin 1; Fin 0].

Definition mixed_chunks : list VectorStore.Chunk :=
  [example_chunk "chat" "hello there"; example_chunk "pdf" "chapter one"].


(* ===================================================================== *)
(** * Further vocabulary                                                   *)
(* ===================================================================== *)

(** ** Retrieval *)

(** A result whose rerank score reaches the threshold [thr]. *)
Definition above (thr : pyfloat) (r : Retriever.Hit) : Prop :=
  fge (Retriever.get_rerank_score r) thr = true.

(** The candidate at the position named by a pair of the reranker, with
    the score of the pair. *)
Definition mapped_item (results : list Retriever.Hit)
    (it : Retriever.rerank_item) : option Retriever.Hit :=
  Retriever.set_rerank_score
    (default (of_int 0) (Retriever.relevance_score it))
  <$> results !! Z.to_nat (default 0 (Retriever.index it)).

(** Similarities that are numbers, in descending order. *)
Definition by_similarity_desc (a b : Retriever.Hit) : Prop :=
  ∃ p q, Retriever.score a = Some (Fin p) ∧ Retriever.score b = Some (Fin q)
         ∧ (q <= p)%Q.

Definition is_boosted (r : Retriever.Hit) : bool :=
  default false (Retriever.boosted r).

Definition similarity (r : Retriever.Hit) : pyfloat :=
  default (of_int 0) (Retriever.score r).

(** Hits whose file path contains the file name first; among hits of the
    same kind, the higher similarity first. *)
Definition boost_order (a b : Retriever.Hit) : Prop :=
  (is_boosted b = true → is_boosted a = true)
  ∧ (is_boosted a = is_boosted b → fge (similarity a) (similarity b) = true).

(** A hit, flagged when its file path contains the file name. *)
Definition marked (filename : str) (r : Retriever.Hit) : Retriever.Hit :=
  if contains filename (Retriever.file_path r)
  then Retriever.set_boosted true r else r.

(** The hits that the two collections give for one query, those of the
    documents first; a collection whose search fails gives none. *)
Definition found
    (client_search :
       str → list pyfloat → Z → option str
       → Exc (list (list VectorStoreQueries.MilvusHit)))
    (self : VectorStore.state) (query_embedding : list pyfloat) (top_k : Z)
    (source_types : option (list str)) : list Retriever.Hit :=
  VectorStoreQueries.search_collection client_search
    (VectorStore.collection_docs self) query_embedding top_k
    (VectorStoreQueries.filter_expr source_types)
  ++ VectorStoreQueries.search_collection client_search
       (VectorStore.collection_chats self) query_embedding top_k
       (VectorStoreQueries.filter_expr source_types).

(** ** Embedding *)

(** A service that answers every batch of documents with one vector per
    text, the vector [f t] for the text [t]. *)
Definition answers_pointwise
    (jina : list str → Embedder.task → Q →
            Exc (list Embedder.vector * option Z) * Q)
    (f : str → Embedder.vector) : Prop :=
  ∀ batch now, ∃ usage now',
    jina batch Embedder.retrieval_passage now = (Ok (map f batch, usage), now').

(** ** Computations *)

(** Every run of [m] takes a state to one that [R] relates to it; and [m]
    never raises. *)
Definition respects {S A} (R : S → S → Prop) (m : M S A) : Prop :=
  ∀ s, R s (m s).2.

Definition returns {S A} (m : M S A) : Prop :=
  ∀ s, ∃ a, (m s).1 = Ok a.

(** ** The parser *)

(** The daily budget: the ceiling stays the same and, once respected,
    remains so; the count never goes down when [max_tokens] is not
    negative. *)
Definition keeps_daily (s s' : AIParser.state) : Prop :=
  AIParser._tpd_limit s' = AIParser._tpd_limit s
  ∧ AIParser._max_tokens s' = AIParser._max_tokens s
  ∧ (AIParser._daily_tokens s <= AIParser._tpd_limit s →
     AIParser._daily_tokens s' <= AIParser._tpd_limit s)
  ∧ (0 <= AIParser._max_tokens s →
     AIParser._daily_tokens s <= AIParser._daily_tokens s').

(** A step that touches neither the daily count nor the constants. *)
Definition daily_frame (s s' : AIParser.state) : Prop :=
  AIParser._tpd_limit s' = AIParser._tpd_limit s
  ∧ AIParser._max_tokens s' = AIParser._max_tokens s
  ∧ AIParser._daily_tokens s' = AIParser._daily_tokens s.

(** The clock never goes back. *)
Definition clock_le (s s' : AIParser.state) : Prop :=
  (AIParser.clock s <= AIParser.clock s')%Q.

(** A computation that sends at most [n] requests to the Groq service. *)
Definition sends_at_most (n : nat) {A} (m : M AIParser.state A) : Prop :=
  ∀ s, (AIParser.requests_sent (m s).2 <= AIParser.requests_sent s + n)%nat.

(** ** The vector store *)

(** A stored row that respects the schema of the collections: a vector of
    the configured dimension with finite values, a text of at most 32000
    characters and a source name of at most 512. *)
Definition row_ok (dims : Z) (r : VectorStore.Row) : Prop :=
  len (VectorStore.row_vector r) = dims
  ∧ Forall (λ v, is_finite v = true) (VectorStore.row_vector r)
  ∧ len (VectorStore.row_text r) <= 32000
  ∧ len (VectorStore.row_source_name r) <= 512.

Definition store_ok (s : VectorStore.state) : Prop :=
  ∀ c rows,
    VectorStore.milvus s !! c = Some rows →
    Forall (row_ok (VectorStore.dimensions s)) rows.

(** A client that pages faithfully through the rows [rows] that match the
    filter [filter] in the collection [collection_name]. *)
Definition pages_through
    (client_query : str → str → Z → Z → Exc (list VectorStore.Row))
    (collection_name filter : str) (rows : list VectorStore.Row) : Prop :=
  ∀ limit offset, 0 <= limit → 0 <= offset →
    client_query collection_name filter limit offset
    = Ok (take (Z.to_nat limit) (drop (Z.to_nat offset) rows)).

(** A client that gives [k] full pages of the collection and fails on the
    next one. *)
Definition fails_at_page
    (client_query : str → str → Z → Z → Exc (list VectorStore.Row))
    (collection_name filter : str) (k : nat) : Prop :=
  (∀ j, (j < k)%nat →
        ∃ page, client_query collection_name filter 16383
                  (Z.of_nat j * 16383) = Ok page
                ∧ len page = 16383)
  ∧ ∃ e, client_query collection_name filter 16383 (Z.of_nat k * 16383)
         = Raise e.

(** What [escape] does to one character. *)
Definition escape_char (c : N) : str :=
  if (c =? 92)%N then [92; 92]%N
  else if (c =? 34)%N then [92; 34]%N
  else [c].

(** ** The usage file *)

(** The numbers of requests and of fragments that [get_embedding_stats]
    reports on the day [today]. *)
Definition reported (today : str) (f : option RequestCounter.Counter)
    : Exc (Z * Z) :=
  match (RequestCounter.get_embedding_stats today f).1 with
  | Ok stats =>
    Ok (default 0 (RequestCounter.embedding_requests stats),
        default 0 (RequestCounter.embedding_chunks stats))
  | Raise e => Raise e
  end.

(** ** Web pages *)

(** A batch that respects the limits of the parser: it is not empty, holds
    at most [rpm] pages, and its estimates add up to at most [tpm] unless
    it is made of one page alone. *)
Definition batch_within (rpm tpm : Z) (est : WebsiteIngester.Page → Z)
    (b : list WebsiteIngester.Page) : Prop :=
  b ≠ [] ∧ len b <= rpm
  ∧ (Embedder.sum (map est b) <= tpm ∨ len b = 1).

(** The pages from [idx] up to [idx']. *)
Definition between (pages : list WebsiteIngester.Page) (idx idx' : Z)
    : list WebsiteIngester.Page :=
  take (Z.to_nat (idx' - idx)) (drop (Z.to_nat idx) pages).

(** The fingerprint of a fragment: the digest of its first 300
    characters. *)
Definition fingerprint (md5_hexdigest : str → str)
    (chunk : VectorStore.Chunk) : str :=
  md5_hexdigest (slice_to 300 (VectorStore.text chunk)).

(** [a] occurs in [b]. *)
Definition substring (a b : str) : Prop := ∃ pre post, b = pre ++ a ++ post.

(** The text of the fragment that [_text_to_chunks] reads at [start]. *)
Definition piece (chunk_size : Z) (text : str) (start : Z) : str :=
  let end_ := start + chunk_size in
  let chunk_text := slice start end_ text in
  strip (if end_ <? len text
         then WebsiteIngester.cut_at_boundary chunk_size
                WebsiteIngester.boundaries chunk_text
         else chunk_text).

(** A fragment cut out of [text] for the site [root_url]: an excerpt of
    the text, of at least 80 and at most [chunk_size] characters and at
    least 15 words. *)
Definition excerpt_of (chunk_size : Z) (text root_url : str)
    (c : VectorStore.Chunk) : Prop :=
  contains (VectorStore.text c) text = true
  ∧ 80 <= len (VectorStore.text c) <= chunk_size
  ∧ 15 <= len (split (VectorStore.text c))
  ∧ VectorStore.source_type c = lit "website"
  ∧ VectorStore.source_name c = root_url.

(** The ["chunk_index"] of the fragments are 0, 1, 2, ... *)
Definition numbered (chunks : list VectorStore.Chunk) : Prop :=
  map (λ c, VectorStore.metadata c !! lit "chunk_index") chunks
  = map (λ k, Some (str_of_int (Z.of_nat k))) (seq 0 (length chunks)).

(** ** Further concrete inputs *)

(** An embedding service that reports 7 prompt tokens for every call. *)
Definition metered_jina (batch : list str) (_ : Embedder.task) (now : Q)
    : Exc (list Embedder.vector * option Z) * Q :=
  (Ok (map (λ _, unit_vector) batch, Some 7), now).

(** An endpoint that answers 429 to the first two requests, and one that
    always does. *)
Definition busy_twice (_ : list str) (_ : Embedder.task) (attempt : Z)
    : EmbedderHttp.response :=
  if attempt <=? 2 then EmbedderHttp.TooManyRequests None
  else EmbedderHttp.Body [Some unit_vector] (Some 3).

Definition always_busy (_ : list str) (_ : Embedder.task) (_ : Z)
    : EmbedderHttp.response :=
  EmbedderHttp.TooManyRequests None.

(** A parser that has sent its 30 requests of the minute, 10 seconds after
    its window opened. *)
Definition full_parser : AIParser.state :=
  AIParser.mk 1024 30 30000 500000 0 30 900 0 10 0 [].

(** A Milvus whose collection of documents gives two hits and whose
    collection of conversations cannot be searched. *)
Definition example_milvus_hit (name : string) (distance : Q)
    : VectorStoreQueries.MilvusHit :=
  VectorStoreQueries.mkMilvusHit (lit name) (Some (Fin distance))
    (Some (VectorStoreQueries.mkEntity (Some (lit "some text"))
             (Some (lit "pdf")) (Some (lit "paper.pdf")) None))
    None None None None.

Definition docs_only_search (collection_name : str) (_ : list pyfloat)
    (_ : Z) (_ : option str)
    : Exc (list (list VectorStoreQueries.MilvusHit)) :=
  if str_eqb collection_name Config.VECTOR_DB_collection_docs
  then Ok [[example_milvus_hit "a" (1 # 2); example_milvus_hit "b" (7 # 8)]]
  else Raise OtherException.

(** Two rows of one source, and a client that pages through [rows] in
    every collection. *)
Definition two_rows : list VectorStore.Row :=
  [row_of (example_chunk "pdf" "chapter one", unit_vector);
   row_of (example_chunk "pdf" "chapter two", unit_vector)].

Definition paging_query (rows : list VectorStore.Row) (_ _ : str)
    (limit offset : Z) : Exc (list VectorStore.Row) :=
  Ok (take (Z.to_nat limit) (drop (Z.to_nat offset) rows)).

(** A client that cannot query the collection of documents. *)
Definition chats_only_query (rows : list VectorStore.Row)
    (collection_name _ : str) (limit offset : Z)
    : Exc (list VectorStore.Row) :=
  if str_eqb collection_name Config.VECTOR_DB_collection_docs
  then Raise OtherException
  else Ok (take (Z.to_nat limit) (drop (Z.to_nat offset) rows)).

(* ===================================================================== *)
(** * Facts about Python values                                            *)
(* ===================================================================== *)

Ltac unfold_M :=
  unfold mbind, M_bind, mret, M_ret, gets, modify, raise, when, try_except in *.

Section PyFacts.

Lemma fcompare_antisym a b :
  fcompare b a = CompOpp <$> fcompare a b.
Proof.
  destruct a as [|[]|p], b as [|[]|q]; simpl; try reflexivity.
  by rewrite Qcompare_antisym.
Qed.

Lemma flt_fle a b : flt a b = true → fle a b = true.
Proof. unfold flt, fle. by destruct (fcompare a b) as [[]|]. Qed.

Lemma flt_not_fge a b : flt a b = true → fge a b = false.
Proof.
  unfold flt, fge, fle. rewrite (fcompare_antisym a b).
  by destruct (fcompare a b) as [[]|].
Qed.

Lemma fle_Fin p q : fle (Fin p) (Fin q) = true ↔ (p <= q)%Q.
Proof.
  unfold fle; simpl. rewrite Qle_alt.
  destruct (p ?= q)%Q; split; intros; congruence.
Qed.

Lemma flt_Fin p q : flt (Fin p) (Fin q) = true ↔ (p < q)%Q.
Proof.
  unfold flt; simpl. rewrite Qlt_alt.
  destruct (p ?= q)%Q; split; intros; congruence.
Qed.

Lemma fle_total a b :
  a ≠ NaN → b ≠ NaN → flt a b = false → fle b a = true.
Proof.
  intros Ha Hb. unfold flt, fle. rewrite (fcompare_antisym a b).
  destruct a as [|[]|p], b as [|[]|q]; simpl; try done.
  by destruct (p ?= q)%Q.
Qed.

Lemma fle_trans a b c : fle a b = true → fle b c = true → fle a c = true.
Proof.
  destruct a as [|[]|p], b as [|[]|q], c as [|[]|r]; try done.
  rewrite !fle_Fin. apply Qle_trans.
Qed.

(** [max(0.0, min(1.0, x))] is a number between 0 and 1, whatever [x]. *)
Lemma clamp_range x :
  ∃ q, Py.max (Fin 0) (Py.min (Fin 1) x) = Fin q ∧ (0 <= q <= 1)%Q.
Proof.
  unfold Py.max, Py.min, fgt.
  destruct (flt x (Fin 1)) eqn:H1.
  - destruct (flt (Fin 0) x) eqn:H0.
    + destruct x as [|[]|q]; try done.
      exists q. apply flt_Fin in H1, H0.
      split; [done|]. split; by apply Qlt_le_weak.
    + by exists 0%Q.
  - by exists 1%Q.
Qed.

(** On a finite similarity it is the usual clamp. *)
Lemma clamp_spec q :
  Py.max (Fin 0) (Py.min (Fin 1) (Fin q))
  = Fin (if Qle_bool q 0 then 0 else if Qle_bool 1 q then 1 else q).
Proof.
  unfold Py.max, Py.min, fgt.
  destruct (Qle_bool q 0) eqn:E0.
  - apply Qle_bool_iff in E0.
    assert (flt (Fin q) (Fin 1) = true) as ->.
    { apply flt_Fin. eapply Qle_lt_trans; [exact E0|done]. }
    assert (flt (Fin 0) (Fin q) = false) as ->; [|done].
    apply not_true_iff_false. rewrite flt_Fin. by apply Qle_not_lt.
  - assert (H0 : (0 < q)%Q).
    { apply Qnot_le_lt. rewrite <- Qle_bool_iff. congruence. }
    destruct (Qle_bool 1 q) eqn:E1.
    + apply Qle_bool_iff in E1.
      assert (flt (Fin q) (Fin 1) = false) as ->; [|done].
      apply not_true_iff_false. rewrite flt_Fin. by apply Qle_not_lt.
    + assert (H1 : (q < 1)%Q).
      { apply Qnot_le_lt. rewrite <- Qle_bool_iff. congruence. }
      apply flt_Fin in H0, H1. by rewrite H1, H0.
Qed.

Lemma truthy_nil {A} (l : list A) : truthy l = false ↔ l = [].
Proof. by destruct l. Qed.

Lemma slice_to_length {A} k (l : list A) :
  0 <= k → length (slice_to k l) = Nat.min (Z.to_nat k) (length l).
Proof.
  intros Hk. unfold slice_to, clip.
  destruct (Z.ltb_spec k 0); [lia|]. by rewrite length_take.
Qed.

Lemma slice_to_nonempty {A} k (l : list A) :
  0 < k → l ≠ [] → slice_to k l ≠ [].
Proof.
  intros Hk Hl E. apply (f_equal length) in E.
  rewrite slice_to_length in E by lia.
  destruct l; [done|]. simpl in E. lia.
Qed.

Lemma slice_take {A} (i j : Z) (l : list A) :
  0 <= i → 0 <= j →
  slice i j l = take (Z.to_nat j - Z.to_nat i) (drop (Z.to_nat i) l).
Proof.
  intros Hi Hj. unfold slice, clip.
  destruct (Z.ltb_spec i 0), (Z.ltb_spec j 0); try lia.
  apply skipn_firstn_comm.
Qed.

(** [l[i:i+n]] is the head of [l[i:i+b]] when it is not longer. *)
Lemma slice_shrink {A} (i b n : Z) (l : list A) :
  0 <= i → 0 <= n <= len (slice i (i + b) l) →
  slice i (i + n) l = take (Z.to_nat n) (slice i (i + b) l).
Proof.
  intros Hi Hn.
  rewrite (slice_take i (i + n)) by lia.
  replace (Z.to_nat (i + n) - Z.to_nat i)%nat with (Z.to_nat n) by lia.
  unfold slice at 1. unfold slice in Hn.
  set (m := clip (length l) (i + b)) in *.
  replace (clip (length l) i) with (Z.to_nat i) in *
    by (unfold clip; destruct (Z.ltb_spec i 0); lia).
  rewrite skipn_firstn_comm in *.
  unfold len in Hn. rewrite length_take in Hn.
  rewrite take_take. f_equal. lia.
Qed.

Lemma lstrip_nil s : lstrip s = [] ↔ forallb isspace s = true.
Proof.
  induction s as [|c s IH]; simpl; [done|].
  destruct (isspace c); simpl; [done|]. split; discriminate.
Qed.

Lemma lstrip_head s :
  forallb isspace s = false → forallb isspace (lstrip s) = false.
Proof.
  induction s as [|c s IH]; simpl; [done|].
  destruct (isspace c) eqn:E; simpl; [done|]. by rewrite E.
Qed.

Lemma forallb_rev {A} (f : A → bool) l : forallb f (rev l) = forallb f l.
Proof.
  induction l as [|x l IH]; simpl; [done|].
  rewrite forallb_app, IH. simpl. rewrite andb_true_r. apply andb_comm.
Qed.

(** [s.strip()] is empty exactly when [s] is empty or white space only. *)
Lemma strip_truthy s : truthy (strip s) = negb (forallb isspace s).
Proof.
  unfold strip, rstrip.
  destruct (forallb isspace s) eqn:E; simpl.
  - apply lstrip_nil in E. by rewrite E.
  - apply lstrip_head in E. rewrite <- forallb_rev in E.
    destruct (lstrip (rev (lstrip s))) as [|c r] eqn:L.
    + apply lstrip_nil in L. congruence.
    + simpl. by destruct (rev r ++ [c]) eqn:R; [destruct (rev r)|].
Qed.

Lemma strip_nonempty raw : strip raw ≠ [] → raw ≠ [].
Proof. by intros H ->. Qed.

End PyFacts.

(* ===================================================================== *)
(** * The stable sort                                                      *)
(* ===================================================================== *)

Section Sorting.

Context {A K : Type} (lt : K → K → bool) (key : A → K).

Lemma insert_by_perm x l : Retriever.insert_by lt key x l ≡ₚ x :: l.
Proof.
  induction l as [|y l IH]; simpl; [done|].
  destruct (lt (key y) (key x)); [|done].
  rewrite IH. apply Permutation_swap.
Qed.

Lemma sort_by_perm l : Retriever.sort_by lt key l ≡ₚ l.
Proof.
  induction l as [|x l IH]; simpl; [done|].
  rewrite insert_by_perm. by constructor.
Qed.

End Sorting.

Lemma sort_by_reverse_sorted (l : list Retriever.Hit) :
  Forall (λ r, Retriever.get_rerank_score r ≠ NaN) l →
  StronglySorted by_score_desc
    (Retriever.sort_by_reverse flt Retriever.get_rerank_score l).
Proof.
  unfold Retriever.sort_by_reverse, Retriever.sort_by.
  induction 1 as [|x l Hx Hl IH]; simpl; [constructor|].
  set (lt := λ a b, flt b a) in *.
  set (s := foldr _ _ l) in *.
  assert (Hs : Forall (λ r, Retriever.get_rerank_score r ≠ NaN) s).
  { unfold s. by rewrite (sort_by_perm lt Retriever.get_rerank_score l). }
  clearbody s. clear Hl l.
  induction IH as [|y s Hsorted IHs Hy]; simpl; [repeat constructor|].
  apply Forall_cons in Hs as [Hyn Hs].
  unfold lt at 1.
  destruct (flt (Retriever.get_rerank_score x) (Retriever.get_rerank_score y))
    eqn:E.
  - constructor; [by apply IHs|].
    rewrite (insert_by_perm lt Retriever.get_rerank_score x s).
    constructor; [|done]. unfold by_score_desc, fge. by apply flt_fle.
  - assert (Hxy : by_score_desc x y).
    { unfold by_score_desc, fge. by apply fle_total. }
    constructor; [by constructor|].
    constructor; [done|].
    eapply Forall_impl; [exact Hy|]. intros z Hz.
    unfold by_score_desc, fge in *. by eapply fle_trans.
Qed.

(* ===================================================================== *)
(** * Facts about the retriever                                            *)
(* ===================================================================== *)

Section RetrieverFacts.

Lemma fallback_rank_perm self results :
  Retriever._fallback_rank self results
  ≡ₚ map with_fallback_score (slice_to (Retriever.top_k_rerank self) results).
Proof.
  unfold Retriever._fallback_rank, Retriever.sort_by_reverse.
  apply sort_by_perm.
Qed.

Lemma with_fallback_score_spec r :
  Retriever._is_fallback (with_fallback_score r) = Some true ∧
  ∃ q, Retriever.rerank_score (with_fallback_score r) = Some (Fin q)
       ∧ (0 <= q <= 1)%Q.
Proof.
  split; [done|]. unfold with_fallback_score; simpl.
  destruct (clamp_range (default (Fin (1 # 2)) (Retriever.score r)))
    as (q & -> & Hq).
  eauto.
Qed.

(** The local ranking, for a positive [top_k_rerank]. *)
Lemma fallback_rank_spec self results :
  0 < Retriever.top_k_rerank self → results ≠ [] →
  let ranked := Retriever._fallback_rank self results in
  ranked ≠ []
  ∧ len ranked <= Retriever.top_k_rerank self
  ∧ Forall (λ r, Retriever._is_fallback r = Some true ∧
                 ∃ q, Retriever.rerank_score r = Some (Fin q)
                      ∧ (0 <= q <= 1)%Q) ranked
  ∧ ranked ≡ₚ map with_fallback_score
                (slice_to (Retriever.top_k_rerank self) results)
  ∧ StronglySorted by_score_desc ranked.
Proof.
  intros Hk Hne ranked.
  pose proof (fallback_rank_perm self results) as Hp. fold ranked in Hp.
  assert (Hall : Forall (λ r, Retriever._is_fallback r = Some true ∧
                 ∃ q, Retriever.rerank_score r = Some (Fin q)
                      ∧ (0 <= q <= 1)%Q) ranked).
  { rewrite Hp. apply Forall_map, Forall_true. intros r.
    apply with_fallback_score_spec. }
  split_and!; [| | done | done |].
  - intros E. rewrite E in Hp. apply Permutation_nil_l in Hp.
    symmetry in Hp. apply map_eq_nil in Hp.
    by apply slice_to_nonempty in Hp.
  - unfold len. rewrite Hp, length_map, slice_to_length by lia. lia.
  - unfold ranked, Retriever._fallback_rank. apply sort_by_reverse_sorted.
    apply Forall_map, Forall_true. intros r.
    destruct (with_fallback_score_spec r) as (_ & q & Hq & _).
    unfold Retriever.get_rerank_score.
    change (Retriever.set_is_fallback true _) with (with_fallback_score r).
    by rewrite Hq.
Qed.

(** Every way of being unavailable ends in the local ranking. *)
Lemma rerank_unavailable post self query results :
  results ≠ [] →
  reranker_unavailable post self query results →
  Retriever._rerank post self query results
  = Ok (Retriever._fallback_rank self results).
Proof.
  intros Hne Hun. unfold Retriever._rerank.
  destruct results as [|r0 rs]; [done|]. cbn [truthy negb].
  destruct (truthy (default [] (Retriever.voyage_api_key self))) eqn:Hkey;
    cbn [negb]; [|done].
  unfold Retriever.rerank_try.
  destruct Hun as [Hu|e He|st body He Hst|e He|He]; [congruence|rewrite He..].
  - by destruct e.
  - by destruct (Z.eqb_spec st 200).
  - by destruct e.
  - done.
Qed.

(** With indices that are not negative, the loop of [_rerank] maps each
    pair onto the candidate at that position and drops the pairs whose
    index is [len(results)] or more. *)
Lemma map_items_nonneg results items acc :
  Forall (λ it, 0 <= default 0 (Retriever.index it)) items →
  Retriever.map_items results items acc
  = Ok (acc ++
        omap (λ it,
                Retriever.set_rerank_score
                  (default (of_int 0) (Retriever.relevance_score it))
                <$> results !! Z.to_nat (default 0 (Retriever.index it)))
             items).
Proof.
  intros Hall. revert acc.
  induction Hall as [|it items Hit Hall IH]; intros acc; simpl.
  { by rewrite app_nil_r. }
  set (i := default 0 (Retriever.index it)) in *.
  destruct (Z.ltb_spec i (len results)) as [Hlt|Hge].
  - unfold getitem.
    destruct (Z.ltb_spec i 0) as [?|_]; [lia|].
    destruct (Z.ltb_spec i 0) as [?|_]; [lia|].
    destruct (results !! Z.to_nat i) as [r|] eqn:E; simpl.
    + by rewrite IH, <- app_assoc.
    + apply lookup_ge_None in E. unfold len in Hlt. lia.
  - assert (results !! Z.to_nat i = None) as ->.
    { apply lookup_ge_None. unfold len in Hge. lia. }
    simpl. apply IH.
Qed.

End RetrieverFacts.

(* ===================================================================== *)
(** * Facts about the content parser                                       *)
(* ===================================================================== *)

Section AIParserFacts.

(** When the daily ceiling would be exceeded, [_wait_for_budget] raises,
    after the roll-over of an expired window and nothing else. *)
Lemma wait_for_budget_daily s est :
  AIParser._daily_tokens s + est > AIParser._tpd_limit s →
  AIParser._wait_for_budget est s
  = (Raise (RuntimeError (DailyTokenLimitExceeded (AIParser._tpd_limit s)
                            (AIParser._daily_tokens s))),
     rolled_over s).
Proof.
  intros H.
  unfold AIParser._wait_for_budget, rolled_over, AIParser.reset_window,
    AIParser.time_time.
  unfold_M.
  destruct (Qle_bool _ _); simpl;
    (replace (AIParser._daily_tokens s + est >? AIParser._tpd_limit s)
       with true by (symmetry; apply Z.gtb_lt; lia));
    rewrite !orb_true_r; reflexivity.
Qed.

Context (groq_installed : bool) (groq : nat → AIParser.completion).

Lemma retry_loop_ext F G raw attempts s :
  (len raw > 3000 →
   ∀ s', F (slice_to 3000 raw) s' = G (slice_to 3000 raw) s') →
  AIParser.retry_loop groq F raw attempts s
  = AIParser.retry_loop groq G raw attempts s.
Proof.
  intros HFG. revert s.
  induction attempts as [|a rest IH]; intros s; [done|].
  cbn [AIParser.retry_loop]. unfold AIParser.create_completion. unfold_M.
  cbn beta iota. destruct (groq (AIParser.requests_sent s)) as [res|err].
  - done.
  - destruct (_ || _ || _).
    + destruct (AIParser._sleep_with_jitter _ _) as [[[]|e] s1];
        [apply IH|done].
    + destruct (_ && _).
      * destruct (Z.gtb_spec (len raw) 3000); [|done]. apply HFG. lia.
      * destruct (a <? _); [|done].
        destruct (AIParser._sleep_with_jitter _ _) as [[[]|e] s1];
          [apply IH|done].
Qed.

Lemma parse_content_body_ext F G raw s :
  (∀ x s', len x <= 3000 → F x s' = G x s') →
  AIParser.parse_content_body groq_installed groq F raw s
  = AIParser.parse_content_body groq_installed groq G raw s.
Proof.
  intros HFG. unfold AIParser.parse_content_body.
  destruct (_ || _); [done|]. unfold_M. cbn beta iota.
  destruct (AIParser._wait_for_budget _ s) as [[[]|e] s1]; cbn beta iota.
  - cbn [negb]. destruct (AIParser._get_client _ _) as [[[]|e] s2]; [|done].
    apply retry_loop_ext. intros _ s'. apply HFG.
    unfold len. rewrite slice_to_length by lia. lia.
  - destruct (is_RuntimeError e); [|reflexivity].
    unfold AIParser.print. unfold_M. cbn [negb]. reflexivity.
Qed.

(** On at most 3000 characters the nested call cannot occur. *)
Lemma parse_content_body_short F G raw s :
  len raw <= 3000 →
  AIParser.parse_content_body groq_installed groq F raw s
  = AIParser.parse_content_body groq_installed groq G raw s.
Proof.
  intros Hlen. unfold AIParser.parse_content_body.
  destruct (_ || _); [done|]. unfold_M. cbn beta iota.
  assert (AIParser.truncate_input raw = raw) as ->.
  { unfold AIParser.truncate_input.
    destruct (Z.gtb_spec (len raw) 6000); [lia|done]. }
  destruct (AIParser._wait_for_budget _ s) as [[[]|e] s1]; cbn beta iota.
  - cbn [negb]. destruct (AIParser._get_client _ _) as [[[]|e] s2]; [|done].
    apply retry_loop_ext. lia.
  - destruct (is_RuntimeError e); [|reflexivity].
    unfold AIParser.print. unfold_M. cbn [negb]. reflexivity.
Qed.

(** [parse_content] satisfies the recursive equation of the source. *)
Lemma parse_content_unfold raw s :
  AIParser.parse_content groq_installed groq raw s
  = AIParser.parse_content_body groq_installed groq
      (AIParser.parse_content groq_installed groq) raw s.
Proof.
  unfold AIParser.parse_content. apply parse_content_body_ext.
  intros x s' Hx. by apply parse_content_body_short.
Qed.

End AIParserFacts.

(* ===================================================================== *)
(** * Facts about the embedding client                                     *)
(* ===================================================================== *)

Section EmbedderFacts.

(** A reservation always goes through (waiting is its only recourse); it
    leaves the limits alone, and afterwards the window holds either what it
    held plus this call, within the limits, or this call only. *)
Lemma reserve_spec s c :
  ∃ s', Embedder.reserve c s = (Ok (), s')
    ∧ Embedder.batch_size s' = Embedder.batch_size s
    ∧ Embedder._rpm_limit s' = Embedder._rpm_limit s
    ∧ Embedder._tpm_limit s' = Embedder._tpm_limit s
    ∧ Embedder._window_requests s' <= Z.max 1 (Embedder._rpm_limit s)
    ∧ Embedder._window_tokens s' <= Z.max c (Embedder._tpm_limit s).
Proof.
  unfold Embedder.reserve, Embedder._wait_for_budget, Embedder.reset_window,
    Embedder._sleep_with_jitter, Embedder.time_sleep, Embedder.time_time.
  unfold_M. cbn beta iota.
  destruct (Qle_bool Embedder._window_seconds _); cbn.
  - destruct (Z.gtb_spec (0 + 1) (Embedder._rpm_limit s)),
             (Z.gtb_spec (0 + c) (Embedder._tpm_limit s)); cbn;
      repeat (match goal with
              | |- context [if ?b then _ else _] => destruct b
              end; cbn);
      eexists; (split; [reflexivity|]); cbn; split_and!; try done; lia.
  - destruct (Z.gtb_spec (Embedder._window_requests s + 1)
                (Embedder._rpm_limit s)),
             (Z.gtb_spec (Embedder._window_tokens s + c)
                (Embedder._tpm_limit s)); cbn;
      repeat (match goal with
              | |- context [if ?b then _ else _] => destruct b
              end; cbn);
      eexists; (split; [reflexivity|]); cbn; split_and!; try done; lia.
Qed.

Lemma run_event_limits e s :
  Embedder._rpm_limit (run_event e s).2 = Embedder._rpm_limit s
  ∧ Embedder._tpm_limit (run_event e s).2 = Embedder._tpm_limit s.
Proof.
  destruct e as [c|p c|d]; simpl.
  - by destruct (reserve_spec s c) as (s' & -> & ? & ? & ? & _).
  - unfold Embedder.reconcile. unfold_M.
    destruct p as [p|]; [|done]. by destruct (p >=? 0).
  - done.
Qed.

Lemma after_reservations_within rpm tpm es s :
  Embedder._rpm_limit s = rpm → Embedder._tpm_limit s = tpm →
  1 <= rpm →
  Forall (λ e, ∀ c, e = Reserve c → c <= tpm) es →
  Forall within_limits (after_reservations es s).
Proof.
  intros Hr Ht Hrpm Hes. revert s Hr Ht.
  induction Hes as [|e es He Hes IH]; intros s Hr Ht; simpl; [constructor|].
  destruct (run_event_limits e s) as [Hr' Ht'].
  assert (Hrest : Forall within_limits
                    (after_reservations es (run_event e s).2)).
  { apply IH; congruence. }
  destruct e as [c|p c|d]; try done.
  constructor; [|done].
  specialize (He c eq_refl). simpl in *.
  destruct (reserve_spec s c) as (s' & E & _ & Hr'' & Ht'' & Hwr & Hwt).
  rewrite E in *. simpl in *. unfold within_limits. lia.
Qed.

(** The shrink ratio is a proper fraction. *)
Lemma shrink_ratio_bounds tpm est :
  0 < est → tpm < est →
  (0 < Embedder.shrink_ratio tpm est)%Q
  ∧ (Embedder.shrink_ratio tpm est < 1)%Q.
Proof.
  intros Hpos Hlt. unfold Embedder.shrink_ratio.
  destruct (Qle_bool _ _) eqn:E; [done|].
  split.
  - apply Qnot_le_lt. intros Hle.
    assert (Qle_bool (inject_Z tpm / inject_Z est) (1 # 100) = true);
      [|congruence].
    apply Qle_bool_iff. eapply Qle_trans; [exact Hle|done].
  - apply Qlt_shift_div_r.
    + change 0%Q with (inject_Z 0). by rewrite <- Zlt_Qlt.
    + rewrite Qmult_1_l. by rewrite <- Zlt_Qlt.
Qed.

Lemma new_size_bounds tpm est (batch : list str) :
  0 < est → tpm < est → 1 < len batch →
  1 <= Embedder.new_size tpm est batch < len batch.
Proof.
  intros Hpos Hlt Hlen. unfold Embedder.new_size.
  destruct (shrink_ratio_bounds tpm est Hpos Hlt) as [H0 H1].
  set (r := Embedder.shrink_ratio tpm est) in *.
  assert (Hn : (0 < inject_Z (len batch))%Q).
  { change 0%Q with (inject_Z 0). rewrite <- Zlt_Qlt. lia. }
  assert (Hx0 : (0 <= inject_Z (len batch) * r)%Q).
  { apply Qmult_le_0_compat; by apply Qlt_le_weak. }
  assert (Hx1 : (inject_Z (len batch) * r < inject_Z (len batch))%Q).
  { rewrite <- (Qmult_1_r (inject_Z (len batch))) at 2.
    by apply Qmult_lt_l. }
  unfold Qtrunc. apply Qle_bool_iff in Hx0 as ->.
  assert (Qfloor (inject_Z (len batch) * r) < len batch); [|lia].
  rewrite Zlt_Qlt. eapply Qle_lt_trans; [apply Qfloor_le|done].
Qed.

Lemma sum_take_le (f : str → Z) (l : list str) n :
  (∀ x, 0 <= f x) →
  0 <= Embedder.sum (map f (take n l)) <= Embedder.sum (map f l).
Proof.
  intros Hf. revert n. induction l as [|x l IH]; intros [|n]; simpl; try lia.
  - specialize (IH 0%nat). rewrite take_0 in IH. simpl in IH.
    specialize (Hf x). lia.
  - specialize (IH n). specialize (Hf x). lia.
Qed.

(** The estimate of a head of a batch is at most that of the batch. *)
Lemma estimate_tokens_take tok (l : list str) n :
  1 <= Embedder._estimate_tokens tok (take n l)
    <= Embedder._estimate_tokens tok l.
Proof.
  unfold Embedder._estimate_tokens. destruct tok as [tok|].
  - set (g := λ t : str, if negb (truthy t) then 0 else Z.of_nat (tok t)).
    assert (Hg : ∀ x, 0 <= g x)
      by (intros x; unfold g; destruct (negb _); lia).
    pose proof (sum_take_le g l n Hg).
    change (1 <= Z.max 1 (Embedder.sum (map g (take n l)))
              <= Z.max 1 (Embedder.sum (map g l))).
    lia.
  - assert (Hg : ∀ x : str, 0 <= len x) by (intros x; unfold len; lia).
    destruct (sum_take_le len l n Hg) as [H0 H1].
    assert (Embedder.sum (map len (take n l)) / 4
            <= Embedder.sum (map len l) / 4)
      by (apply Z.div_le_mono; lia).
    lia.
Qed.

(** The batch of one iteration when the shrink applies. *)
Lemma next_batch_shrunk tok s texts i :
  0 <= i →
  let batch := slice i (i + Embedder.batch_size s) texts in
  let estimated := Embedder._estimate_tokens tok batch in
  estimated > Embedder._tpm_limit s →
  len batch > 1 →
  let n := Embedder.new_size (Embedder._tpm_limit s) estimated batch in
  let new_batch := take (Z.to_nat n) batch in
  1 <= n < len batch
  ∧ Embedder.next_batch tok s texts i
    = (new_batch, Embedder._estimate_tokens tok new_batch)
  ∧ len new_batch = n.
Proof.
  intros Hi batch estimated Hest Hlen n new_batch.
  assert (Hpos : 0 < estimated).
  { pose proof (estimate_tokens_take tok batch 0). unfold estimated. lia. }
  assert (Hn : 1 <= n < len batch) by (apply new_size_bounds; lia).
  split_and!; [lia|lia| |].
  - unfold Embedder.next_batch. fold batch. fold estimated.
    replace (estimated >? Embedder._tpm_limit s) with true
      by (symmetry; apply Z.gtb_lt; lia).
    replace (len batch >? 1) with true by (symmetry; apply Z.gtb_lt; lia).
    cbn [andb]. fold n.
    by rewrite (slice_shrink i (Embedder.batch_size s) n)
      by (fold batch; lia).
  - unfold new_batch, len in *. rewrite length_take. lia.
Qed.

Section Loop.

Context (tok : option (str → nat))
  (jina : list str → Embedder.task → Q →
          Exc (list Embedder.vector * option Z) * Q).

(** Each iteration of [embed_documents] sends at least one text. *)
Lemma next_batch_progress s texts i :
  0 <= i < len texts → 1 <= Embedder.batch_size s →
  1 <= len (Embedder.next_batch tok s texts i).1.
Proof.
  intros Hi Hbs.
  destruct ((Embedder._estimate_tokens tok
               (slice i (i + Embedder.batch_size s) texts)
             >? Embedder._tpm_limit s)
            && (len (slice i (i + Embedder.batch_size s) texts) >? 1)) eqn:E.
  - apply andb_true_iff in E as [E1 E2].
    apply Z.gtb_lt in E1, E2.
    destruct (next_batch_shrunk tok s texts i) as (Hn & -> & Hl); [lia..|].
    simpl. lia.
  - unfold Embedder.next_batch. rewrite E. simpl.
    rewrite slice_take by lia. unfold len in *.
    rewrite length_take, length_drop. lia.
Qed.

Lemma embed_documents_iter_spec texts i s :
  Embedder.batch_size (Embedder.embed_documents_iter tok jina texts i s).2
    = Embedder.batch_size s
  ∧ ∀ i' v,
      (Embedder.embed_documents_iter tok jina texts i s).1 = Ok (i', v) →
      i' = i + len (Embedder.next_batch tok s texts i).1.
Proof.
  unfold Embedder.embed_documents_iter. unfold_M. unfold id. cbn beta iota.
  destruct (Embedder.next_batch tok s texts i) as [batch est]. cbn beta iota.
  destruct (reserve_spec s est) as (s1 & -> & Hb1 & _). cbn beta iota.
  unfold Embedder._embed_batch.
  destruct (jina batch Embedder.retrieval_passage (Embedder.clock s1))
    as [[[embeddings prompt]|e] t]; cbn beta iota; [|done].
  unfold Embedder.reconcile, Embedder._sleep_with_jitter, Embedder.time_sleep.
  unfold_M.
  destruct prompt as [p|]; [destruct (p >=? 0)|]; cbn;
    destruct (i + len batch <? len texts); cbn; (split; [done|]);
    intros i' v [= <- _]; done.
Qed.

(** The loop of [embed_documents] ends within [len(texts)] iterations when
    the batch size is positive: the fuel does not run out. *)
Lemma embed_documents_loop_fuel fuel texts i all s :
  0 <= i → 1 <= Embedder.batch_size s →
  len texts - i <= Z.of_nat fuel →
  (Embedder.embed_documents_loop tok jina fuel texts i all s).1 ≠ Ok None.
Proof.
  revert i all s. induction fuel as [|fuel IH]; intros i all s Hi Hbs Hf;
    cbn [Embedder.embed_documents_loop].
  - destruct (Z.ltb_spec i (len texts)); [lia|done].
  - destruct (Z.ltb_spec i (len texts)) as [Hlt|]; [|done].
    unfold_M.
    destruct (embed_documents_iter_spec texts i s) as [Hb Hi'].
    destruct (Embedder.embed_documents_iter tok jina texts i s)
      as [[[i' v]|e] s1]; [|done].
    simpl in *. specialize (Hi' i' v eq_refl).
    pose proof (next_batch_progress s texts i).
    apply IH; lia.
Qed.

End Loop.

End EmbedderFacts.

(* ===================================================================== *)
(** * Facts about the vector store                                         *)
(* ===================================================================== *)

Section VectorStoreFacts.

Lemma has_nan_or_inf_finite e :
  VectorStore.has_nan_or_inf e = negb (forallb is_finite e).
Proof.
  unfold VectorStore.has_nan_or_inf.
  induction e as [|v e IH]; simpl; [done|]. rewrite IH.
  destruct v as [|[]|q]; simpl; try done.
  replace (fne (Fin q) (Fin q)) with false; [done|].
  unfold fne, feq. simpl. by rewrite (proj1 (Qeq_alt q q) (Qeq_refl q)).
Qed.

Lemma passes_checks_spec dims p :
  passes_checks dims p = true
  ↔ ¬ blank (VectorStore.text p.1)
    ∧ p.2 ≠ [] ∧ len p.2 = dims
    ∧ Forall (λ v, ¬ non_finite v) p.2.
Proof.
  unfold passes_checks, blank.
  rewrite !andb_true_iff, negb_true_iff, Z.eqb_eq.
  rewrite <- not_true_iff_false, !forallb_forall, !Forall_forall.
  setoid_rewrite <- list_elem_of_In.
  assert (Hf : ∀ v, is_finite v = true ↔ ¬ non_finite v).
  { intros [|b|q]; unfold non_finite; simpl; split; intros H; try done.
    - destruct H; by left.
    - destruct H; right; by eexists.
    - intros [?|[? ?]]; discriminate. }
  setoid_rewrite Hf.
  assert (truthy p.2 = true ↔ p.2 ≠ []) as -> by (by destruct p.2).
  tauto.
Qed.

(** One turn of the loop of [upsert]: the pair is kept when it passes the
    three checks, and counted as skipped otherwise. *)
Lemma upsert_loop_cons dims chunk e rest data skipped out :
  ∃ w,
    VectorStore.upsert_loop dims ((chunk, e) :: rest) data skipped out
    = if passes_checks dims (chunk, e)
      then VectorStore.upsert_loop dims rest
             (data ++ [VectorStore.to_row chunk e]) skipped out
      else VectorStore.upsert_loop dims rest data (skipped + 1) (out ++ w).
Proof.
  unfold passes_checks. cbn [VectorStore.upsert_loop fst snd].
  rewrite strip_truthy, has_nan_or_inf_finite.
  destruct (VectorStore.text chunk) as [|c t].
  { exists []. by rewrite app_nil_r. }
  cbn [truthy negb orb].
  destruct (forallb isspace (c :: t)); cbn [negb andb orb].
  { exists []. by rewrite app_nil_r. }
  destruct (truthy e), (len e =? dims); cbn [negb andb orb]; [|by eexists..].
  destruct (forallb is_finite e); cbn [negb]; by eexists.
Qed.

Lemma upsert_loop_spec dims pairs data skipped out :
  ∃ out',
    VectorStore.upsert_loop dims pairs data skipped out
    = (data ++ map row_of (List.filter (passes_checks dims) pairs),
       skipped + (len pairs - len (List.filter (passes_checks dims) pairs)),
       out').
Proof.
  revert data skipped out.
  induction pairs as [|[chunk e] pairs IH]; intros data skipped out.
  { eexists. simpl. rewrite app_nil_r. do 2 f_equal. unfold len. simpl. lia. }
  destruct (upsert_loop_cons dims chunk e pairs data skipped out) as [w ->].
  cbn [List.filter]. destruct (passes_checks dims (chunk, e)).
  - destruct (IH (data ++ [VectorStore.to_row chunk e]) skipped out)
      as [out' ->].
    eexists. rewrite <- app_assoc. do 2 f_equal. unfold len. simpl. lia.
  - destruct (IH data (skipped + 1) (out ++ w)) as [out' ->].
    eexists. do 2 f_equal. unfold len. simpl. lia.
Qed.

Lemma print_all out s :
  foldr (λ l k, VectorStore.print l;; k) (mret ()) out s
  = (Ok (), VectorStore.mk (VectorStore.collection_docs s)
              (VectorStore.collection_chats s) (VectorStore.dimensions s)
              (VectorStore.milvus s) (VectorStore.stdout s ++ out)).
Proof.
  revert s. induction out as [|l out IH]; intros s; simpl.
  - rewrite app_nil_r. by destruct s.
  - unfold_M. unfold VectorStore.print at 1. rewrite IH. simpl.
    by rewrite <- app_assoc.
Qed.

(** What one call of [upsert] does to the store. *)
Lemma upsert_spec s chunk0 chunks embeddings :
  let pairs := zip (chunk0 :: chunks) embeddings in
  let kept := List.filter (passes_checks (VectorStore.dimensions s)) pairs in
  let skipped := len pairs - len kept in
  let c := VectorStore._get_collection s (VectorStore.source_type chunk0) in
  ∃ s',
    VectorStore.upsert (chunk0 :: chunks) embeddings s = (Ok (), s')
    ∧ VectorStore.milvus s'
      = (if truthy kept
         then <[c := VectorStore.milvus s !!! c ++ map row_of kept]>
                (VectorStore.milvus s)
         else VectorStore.milvus s)
    ∧ (skipped ≠ 0 →
       VectorStore.WarnSkipped skipped (len (chunk0 :: chunks))
         ∈ VectorStore.stdout s').
Proof.
  intros pairs kept skipped c. unfold VectorStore.upsert.
  destruct embeddings as [|e0 es].
  { eexists. split; [reflexivity|]. by split_and!. }
  cbn [truthy negb]. unfold_M. unfold id. cbn beta iota.
  destruct (upsert_loop_spec (VectorStore.dimensions s) pairs [] 0 [])
    as [out' Hloop].
  fold pairs. rewrite Hloop. fold kept. cbn beta iota.
  pose proof (print_all out') as Hp. unfold_M. rewrite Hp. clear Hp.
  cbn beta iota.
  replace (0 + (len pairs - len kept)) with skipped by (unfold skipped; lia).
  rewrite app_nil_l.
  assert (truthy (map row_of kept) = truthy kept) as -> by (by destruct kept).
  destruct (Z.eqb_spec skipped 0) as [E|E]; cbn [negb];
    destruct (truthy kept); cbn; (eexists; split; [reflexivity|]); cbn;
    split_and!; try done; intros _; set_solver.
Qed.

End VectorStoreFacts.

(* ===================================================================== *)
(** * The properties of the pipeline                                       *)
(* ===================================================================== *)

(** ** Retriever *)

(** C1 (non-empty guarantee).  When the query has been embedded and the
    reranked list of [search] is not empty but every one of its scores is
    below the threshold in force, [search] returns the first three reranked
    results: a sequence of length [min(3, len(reranked))], not empty. *)
Theorem search_nonempty_guarantee post extract vsearch tok jina
    self query source_types s v reranked :
  (Embedder.embed_query tok jina query s).1 = Ok v →
  Retriever._rerank post self query
    (Retriever.candidates extract vsearch self query source_types v)
    = Ok reranked →
  reranked ≠ [] →
  Forall (λ r, flt (Retriever.get_rerank_score r)
                   (Retriever.threshold self reranked) = true) reranked →
  Retriever.search post extract vsearch tok jina self query source_types s
    = (Ok (slice_to 3 reranked), (Embedder.embed_query tok jina query s).2)
  ∧ length (slice_to 3 reranked) = Nat.min 3 (length reranked)
  ∧ slice_to 3 reranked ≠ [].
Proof.
  intros Hq Hr Hne Hall. split_and!.
  - unfold Retriever.search. unfold_M.
    destruct (Embedder.embed_query tok jina query s) as [r s'].
    simpl in Hq. subst r. simpl.
    destruct (truthy (Retriever.candidates _ _ _ _ _ _)) eqn:Hc; simpl.
    + rewrite Hr. do 2 f_equal.
      unfold Retriever.filter_by_threshold.
      assert (List.filter (λ r, fge (Retriever.get_rerank_score r)
                (Retriever.threshold self reranked)) reranked = []) as ->.
      { clear -Hall.
        generalize dependent (Retriever.threshold self reranked).
        intros thr Hall.
        induction Hall as [|r l Hr Hl IH]; simpl; [done|].
        by rewrite (flt_not_fge _ _ Hr). }
      by destruct reranked.
    + apply truthy_nil in Hc. rewrite Hc in Hr.
      unfold Retriever._rerank in Hr. simpl in Hr. congruence.
  - by apply slice_to_length.
  - by apply slice_to_nonempty.
Qed.

Lemma search_nonempty_guarantee_witness :
  Retriever.search (post_items low_items) (λ _, None) (λ _ _ _, four_hits)
    None example_jina (Retriever.init example_key) (lit "explain it")
    None example_embedder
  = (Ok (slice_to 3 low_reranked),
     (Embedder.embed_query None example_jina (lit "explain it")
        example_embedder).2)
  ∧ length (slice_to 3 low_reranked) = Nat.min 3 (length low_reranked)
  ∧ slice_to 3 low_reranked ≠ [].
Proof.
  apply (search_nonempty_guarantee _ _ _ _ _ _ _ _ _ [Fin 1; Fin 0]).
  - reflexivity.
  - reflexivity.
  - done.
  - repeat constructor.
Defined.

(** C2 (the fallback is total).  For the retriever built by [__init__] and
    a non-empty list of candidates, when the remote reranker is
    unconfigured, times out or raises, answers with a status other than
    200 or with an empty data set, [_rerank] does not raise: it returns a
    non-empty sequence of at most [top_k_rerank] results, each flagged as a
    fallback and scored by its similarity clamped into [0, 1]; these are
    the first [top_k_rerank] candidates, in descending order of score. *)
Theorem rerank_fallback_total post key query results :
  results ≠ [] →
  reranker_unavailable post (Retriever.init key) query results →
  ∃ ranked,
    Retriever._rerank post (Retriever.init key) query results = Ok ranked
    ∧ ranked ≠ []
    ∧ len ranked <= Retriever.top_k_rerank (Retriever.init key)
    ∧ Forall (λ r, Retriever._is_fallback r = Some true ∧
                   ∃ q, Retriever.rerank_score r = Some (Fin q)
                        ∧ (0 <= q <= 1)%Q) ranked
    ∧ ranked ≡ₚ map with_fallback_score
                  (slice_to (Retriever.top_k_rerank (Retriever.init key))
                     results)
    ∧ StronglySorted by_score_desc ranked.
Proof.
  intros Hne Hun. eexists. split; [by apply rerank_unavailable|].
  by apply fallback_rank_spec.
Qed.

Lemma rerank_fallback_total_witness :
  ∃ ranked,
    Retriever._rerank post_503 (Retriever.init example_key) (lit "what is x")
      two_hits = Ok ranked
    ∧ ranked ≠ []
    ∧ len ranked <= Retriever.top_k_rerank (Retriever.init example_key)
    ∧ Forall (λ r, Retriever._is_fallback r = Some true ∧
                   ∃ q, Retriever.rerank_score r = Some (Fin q)
                        ∧ (0 <= q <= 1)%Q) ranked
    ∧ ranked ≡ₚ map with_fallback_score
                  (slice_to
                     (Retriever.top_k_rerank (Retriever.init example_key))
                     two_hits)
    ∧ StronglySorted by_score_desc ranked.
Proof.
  apply rerank_fallback_total; [done|].
  eapply StatusNot200; [reflexivity|done].
Defined.

(** The local ranking on three candidates, one of them above 1. *)
Example fallback_rank_example :
  map (λ r, (Retriever.id r, Retriever.rerank_score r))
    (Retriever._fallback_rank (Retriever.init None)
       [example_hit "a" (1 # 4); example_hit "b" (3 # 4);
        example_hit "c" (3 # 2)])
  = [(lit "c", Some (Fin 1)); (lit "b", Some (Fin (3 # 4)));
     (lit "a", Some (Fin (1 # 4)))].
Proof. reflexivity. Qed.




(** C10, at the failing input.  The reranker answers with the single pair
    (index -1, score 0.75) for two candidates: the pair is not discarded,
    its score lands on the last candidate. *)
Theorem negative_index_is_mapped :
  Retriever._rerank
    (post_items [Retriever.mkItem (Some (-1)) (Some (Fin (3 # 4)))])
    (Retriever.init example_key) (lit "query") two_hits
  = Ok [Retriever.set_rerank_score (Fin (3 # 4)) (example_hit "b" (3 # 4))].
Proof. reflexivity. Qed.

(** An index below [-len(results)] raises [IndexError] inside the [try]
    block: the whole answer is dropped for the local ranking. *)
Example index_below_range_falls_back :
  Retriever._rerank
    (post_items [Retriever.mkItem (Some 0) (Some (Fin 2));
                 Retriever.mkItem (Some (-3)) (Some (Fin (3 # 4)))])
    (Retriever.init example_key) (lit "query") two_hits
  = Ok (Retriever._fallback_rank (Retriever.init example_key) two_hits).
Proof. reflexivity. Qed.

(** ** Content parser *)

(** C3, as amended (the daily ceiling is hard).  In every state, if
    [daily_tokens] plus the estimated cost exceeds the TPD ceiling,
    [_wait_for_budget] raises the daily-limit error and adds nothing to any
    counter: [daily_tokens] is unchanged, and so is the whole state when
    the window is less than 60 seconds old; when the window has expired it
    is first rolled over, which sets [window_requests] and [window_tokens] to
    zero. *)
Theorem daily_ceiling_is_hard s est :
  AIParser._daily_tokens s + est > AIParser._tpd_limit s →
  ∃ s',
    AIParser._wait_for_budget est s
    = (Raise (RuntimeError (DailyTokenLimitExceeded (AIParser._tpd_limit s)
                              (AIParser._daily_tokens s))), s')
    ∧ AIParser._daily_tokens s' = AIParser._daily_tokens s
    ∧ ((AIParser.clock s - AIParser._window_start s < 60)%Q → s' = s)
    ∧ ((60 <= AIParser.clock s - AIParser._window_start s)%Q →
       s' = AIParser.set_window (AIParser.clock s) 0 0 s).
Proof.
  intros H. eexists. split; [by apply wait_for_budget_daily|].
  unfold rolled_over.
  destruct (Qle_bool _ _) eqn:E.
  - apply Qle_bool_iff in E. split_and!; [done| |done].
    intros Hlt. exfalso. eapply Qlt_not_le; eauto.
  - split_and!; [done|done|]. intros Hle. apply Qle_bool_iff in Hle.
    unfold AIParser._window_seconds in E. congruence.
Qed.

Lemma daily_ceiling_is_hard_witness :
  ∃ s',
    AIParser._wait_for_budget 1100 fresh_parser
    = (Raise (RuntimeError (DailyTokenLimitExceeded
                              (AIParser._tpd_limit fresh_parser)
                              (AIParser._daily_tokens fresh_parser))), s')
    ∧ AIParser._daily_tokens s' = AIParser._daily_tokens fresh_parser
    ∧ ((AIParser.clock fresh_parser
        - AIParser._window_start fresh_parser < 60)%Q
       → s' = fresh_parser)
    ∧ ((60 <= AIParser.clock fresh_parser
               - AIParser._window_start fresh_parser)%Q →
       s' = AIParser.set_window (AIParser.clock fresh_parser) 0 0
              fresh_parser).
Proof. apply daily_ceiling_is_hard. reflexivity. Defined.

(** C3 as stated fails: with the daily budget spent and a window opened 100
    seconds ago, the error is raised after the counters of the window went
    from (3, 900) to (0, 0). *)
Lemma daily_error_resets_stale_window :
  AIParser._daily_tokens stale_parser + 1100
    > AIParser._tpd_limit stale_parser
  ∧ (AIParser._wait_for_budget 1100 stale_parser).1
    = Raise (RuntimeError (DailyTokenLimitExceeded 500000 500000))
  ∧ counters stale_parser = (3, 900, 500000)
  ∧ counters (AIParser._wait_for_budget 1100 stale_parser).2
    = (0, 0, 500000)
  ∧ counters (AIParser._wait_for_budget 1100 stale_parser).2
    ≠ counters stale_parser.
Proof. split_and!; [reflexivity..|discriminate]. Qed.

(** C7, as amended (daily quota exhausted).  When the daily quota is
    exhausted, [parse_content] sends no request and retries nothing: it
    prints the error and returns [None] to its caller, without raising, and
    the daily counter and the clock are as before. *)
Theorem daily_quota_is_swallowed groq_installed groq s raw_content :
  strip raw_content ≠ [] →
  AIParser._daily_tokens s
    + (AIParser._estimate_tokens (AIParser.truncate_input raw_content)
       + AIParser._max_tokens s)
    > AIParser._tpd_limit s →
  ∃ s',
    AIParser.parse_content groq_installed groq raw_content s = (Ok None, s')
    ∧ AIParser.requests_sent s' = AIParser.requests_sent s
    ∧ AIParser.clock s' = AIParser.clock s
    ∧ AIParser._daily_tokens s' = AIParser._daily_tokens s
    ∧ AIParser.stdout s'
      = AIParser.stdout s
        ++ [AIParser.PrintError
              (RuntimeError (DailyTokenLimitExceeded (AIParser._tpd_limit s)
                               (AIParser._daily_tokens s)))].
Proof.
  intros Hne Hd. eexists.
  unfold AIParser.parse_content, AIParser.parse_content_body at 1.
  pose proof (strip_nonempty _ Hne) as Hraw.
  destruct raw_content as [|c raw]; [done|].
  destruct (strip (c :: raw)) as [|c' st] eqn:Es; [done|].
  cbn [truthy negb orb].
  unfold_M. cbn beta iota.
  rewrite (wait_for_budget_daily _ _ Hd). cbn.
  split; [reflexivity|].
  unfold rolled_over. by destruct (Qle_bool _ _).
Qed.

Lemma daily_quota_is_swallowed_witness :
  ∃ s',
    AIParser.parse_content true groq_down (lit "hello world") fresh_parser
    = (Ok None, s')
    ∧ AIParser.requests_sent s' = AIParser.requests_sent fresh_parser
    ∧ AIParser.clock s' = AIParser.clock fresh_parser
    ∧ AIParser._daily_tokens s' = AIParser._daily_tokens fresh_parser
    ∧ AIParser.stdout s'
      = AIParser.stdout fresh_parser
        ++ [AIParser.PrintError
              (RuntimeError (DailyTokenLimitExceeded
                               (AIParser._tpd_limit fresh_parser)
                               (AIParser._daily_tokens fresh_parser)))].
Proof. apply daily_quota_is_swallowed; [discriminate|reflexivity]. Defined.

(** C7 as stated fails: with the daily budget spent, [parse_content]
    returns [None]; no exception reaches its caller. *)
Lemma daily_quota_does_not_surface :
  AIParser._daily_tokens fresh_parser
    + (AIParser._estimate_tokens (AIParser.truncate_input (lit "hello world"))
       + AIParser._max_tokens fresh_parser)
    > AIParser._tpd_limit fresh_parser
  ∧ (AIParser.parse_content true groq_down (lit "hello world")
       fresh_parser).1 = Ok None
  ∧ ∀ e, (AIParser.parse_content true groq_down (lit "hello world")
            fresh_parser).1 ≠ Raise e.
Proof. split_and!; [reflexivity|reflexivity|discriminate]. Qed.

(** ** Embedding client *)







(** ** Vector store *)

(** C8 (invalid fragments are skipped).  In every call of [upsert], the
    rows inserted are those of the pairs (fragment, vector) that pass the
    three checks, in order, and they go to one collection [c].  A pair whose
    text is empty or white space only, whose vector has not the configured
    dimension, or whose vector holds a NaN or an infinity is not among
    them; every pair kept has a text that is not blank, a vector of the
    configured dimension and finite values only; and the number of pairs
    skipped, when it is not zero, is printed with the number of
    fragments. *)
Theorem upsert_skips_invalid s chunks embeddings :
  let pairs := zip chunks embeddings in
  let kept := List.filter (passes_checks (VectorStore.dimensions s)) pairs in
  let skipped := len pairs - len kept in
  ∃ s',
    VectorStore.upsert chunks embeddings s = (Ok (), s')
    ∧ (∃ c, VectorStore.milvus s'
            = if truthy kept
              then <[c := VectorStore.milvus s !!! c ++ map row_of kept]>
                     (VectorStore.milvus s)
              else VectorStore.milvus s)
    ∧ (skipped ≠ 0 →
       VectorStore.WarnSkipped skipped (len chunks) ∈ VectorStore.stdout s')
    ∧ (∀ p, p ∈ pairs →
         blank (VectorStore.text p.1)
         ∨ len p.2 ≠ VectorStore.dimensions s
         ∨ Exists non_finite p.2 →
         p ∉ kept)
    ∧ (∀ p, p ∈ kept →
         p ∈ pairs
         ∧ ¬ blank (VectorStore.text p.1)
         ∧ len p.2 = VectorStore.dimensions s
         ∧ Forall (λ v, ¬ non_finite v) p.2).
Proof.
  intros pairs kept skipped.
  assert (Hkept : ∀ p, p ∈ kept →
         p ∈ pairs
         ∧ ¬ blank (VectorStore.text p.1)
         ∧ len p.2 = VectorStore.dimensions s
         ∧ Forall (λ v, ¬ non_finite v) p.2).
  { intros p Hp. apply list_elem_of_In, filter_In in Hp as [Hin Hp].
    apply passes_checks_spec in Hp. rewrite list_elem_of_In. tauto. }
  assert (Hskip : ∀ p, p ∈ pairs →
         blank (VectorStore.text p.1)
         ∨ len p.2 ≠ VectorStore.dimensions s
         ∨ Exists non_finite p.2 →
         p ∉ kept).
  { intros p _ Hbad Hp. apply Hkept in Hp as (_ & Hb & Hd & Hf).
    destruct Hbad as [?|[?|Hex]]; [done|done|].
    apply Exists_exists in Hex as (v & Hv & Hn).
    rewrite Forall_forall in Hf. by apply (Hf v). }
  destruct chunks as [|chunk0 chunks].
  { exists s. split_and!; try done. by exists []. }
  destruct (upsert_spec s chunk0 chunks embeddings) as (s' & E & Hm & Hw).
  exists s'. split_and!; try done. by eexists.
Qed.

(** Five fragments, of which four are skipped: a blank text, a vector of
    the wrong dimension, a NaN and an infinity. *)
Example upsert_example :
  let chunks := [example_chunk "pdf" "   "; example_chunk "pdf" "one";
                 example_chunk "pdf" "two"; example_chunk "pdf" "three";
                 example_chunk "pdf" "four"] in
  let embeddings := [[Fin 1; Fin 0]; [Fin 1]; [Fin 1; NaN];
                     [Fin 1; Inf false]; [Fin 0; Fin 1]] in
  let s' := (VectorStore.upsert chunks embeddings small_store).2 in
  VectorStore.milvus s' !! Config.VECTOR_DB_collection_docs
    = Some [VectorStore.to_row (example_chunk "pdf" "four") [Fin 0; Fin 1]]
  ∧ VectorStore.stdout s'
    = [VectorStore.WarnWrongDim 1 2; VectorStore.WarnNaNInf;
       VectorStore.WarnNaNInf; VectorStore.WarnSkipped 4 5;
       VectorStore.DebugInserted 1 Config.VECTOR_DB_collection_docs].
Proof. split; vm_compute; reflexivity. Qed.

(** C9, as amended (routing).  All the rows of one call of [upsert] go to
    the collection determined by the source type of its first fragment,
    conversations for ["chat"] and documents otherwise; no other collection
    changes.  Each row is then in the collection of its own source type
    when every fragment of the call is routed like the first. *)
Theorem upsert_routes_by_first_chunk s chunk0 chunks embeddings :
  let c := VectorStore._get_collection s (VectorStore.source_type chunk0) in
  let rows :=
    map row_of
      (List.filter (passes_checks (VectorStore.dimensions s))
         (zip (chunk0 :: chunks) embeddings)) in
  ∃ s',
    VectorStore.upsert (chunk0 :: chunks) embeddings s = (Ok (), s')
    ∧ VectorStore.milvus s' !!! c = VectorStore.milvus s !!! c ++ rows
    ∧ (∀ name, name ≠ c →
         VectorStore.milvus s' !! name = VectorStore.milvus s !! name)
    ∧ (Forall (λ ch, VectorStore._get_collection s (VectorStore.source_type ch)
                     = c) chunks →
       Forall (λ r, VectorStore._get_collection s
                      (VectorStore.row_source_type r) = c) rows).
Proof.
  intros c rows.
  destruct (upsert_spec s chunk0 chunks embeddings) as (s' & E & Hm & _).
  fold c in Hm. exists s'. split; [done|].
  assert (truthy (List.filter (passes_checks (VectorStore.dimensions s))
                    (zip (chunk0 :: chunks) embeddings)) = truthy rows) as Ht.
  { unfold rows. by destruct (List.filter _ _). }
  rewrite Ht in Hm. fold rows in Hm. split_and!.
  - rewrite Hm. destruct rows; simpl; [by rewrite app_nil_r|].
    by rewrite lookup_total_insert_eq.
  - intros name Hne. rewrite Hm. destruct (truthy rows); [|done].
    by rewrite lookup_insert_ne.
  - intros Hall. unfold rows. apply Forall_map.
    apply Forall_forall. intros [ch e] Hin.
    apply list_elem_of_In, filter_In in Hin as [Hin _].
    apply list_elem_of_In, elem_of_zip_l in Hin. simpl in *.
    apply elem_of_cons in Hin as [->|Hin]; [done|].
    rewrite Forall_forall in Hall. by apply Hall.
Qed.

Lemma upsert_routes_by_first_chunk_witness :
  ∃ s',
    VectorStore.upsert mixed_chunks [unit_vector; unit_vector] small_store
    = (Ok (), s')
    ∧ VectorStore.milvus s' !!! Config.VECTOR_DB_collection_chats
      = [VectorStore.to_row (example_chunk "chat" "hello there") unit_vector;
         VectorStore.to_row (example_chunk "pdf" "chapter one") unit_vector]
    ∧ VectorStore.milvus s' !! Config.VECTOR_DB_collection_docs
      = VectorStore.milvus small_store !! Config.VECTOR_DB_collection_docs.
Proof.
  destruct (upsert_routes_by_first_chunk small_store
              (example_chunk "chat" "hello there")
              [example_chunk "pdf" "chapter one"]
              [unit_vector; unit_vector]) as (s' & E & Hc & Ho & _).
  exists s'. split_and!; [exact E|exact Hc|].
  apply Ho. discriminate.
Defined.

(** C9 as stated fails: a call with a ["chat"] fragment followed by a
    ["pdf"] fragment puts both rows in the conversations collection, and
    none in the documents collection, where a ["pdf"] fragment belongs. *)
Lemma mixed_call_goes_to_one_collection :
  VectorStore._get_collection small_store (lit "pdf")
    = Config.VECTOR_DB_collection_docs
  ∧ VectorStore.milvus
      (VectorStore.upsert mixed_chunks [unit_vector; unit_vector]
         small_store).2
    !! Config.VECTOR_DB_collection_chats
    = Some [VectorStore.to_row (example_chunk "chat" "hello there")
              unit_vector;
            VectorStore.to_row (example_chunk "pdf" "chapter one")
              unit_vector]
  ∧ VectorStore.milvus
      (VectorStore.upsert mixed_chunks [unit_vector; unit_vector]
         small_store).2
    !! Config.VECTOR_DB_collection_docs
    = Some [].
Proof. split_and!; vm_compute; reflexivity. Qed.


(* ===================================================================== *)
(** * Further properties: retrieval                                        *)
(* ===================================================================== *)

Section ListFacts.
Context {A : Type}.

Lemma sublist_Forall' (P : A → Prop) (l k : list A) :
  l `sublist_of` k → Forall P k → Forall P l.
Proof.
  induction 1 as [|x l k _ IH|x l k _ IH]; intros H; [done|..];
    apply Forall_cons in H as [Hx Hk]; [constructor|]; auto.
Qed.

Lemma sublist_StronglySorted (R : A → A → Prop) (l k : list A) :
  l `sublist_of` k → StronglySorted R k → StronglySorted R l.
Proof.
  induction 1 as [|x l k Hs IH|x l k Hs IH]; intros H; [done|..];
    apply StronglySorted_inv in H as [Hk Hx]; [|by auto].
  constructor; [by auto|]. by eapply sublist_Forall'.
Qed.

Lemma sublist_List_filter (f : A → bool) (l : list A) :
  List.filter f l `sublist_of` l.
Proof.
  induction l as [|x l IH]; simpl; [done|].
  destruct (f x); by constructor.
Qed.

Lemma List_filter_nil (f : A → bool) (l : list A) :
  List.filter f l = [] ↔ Forall (λ x, f x = false) l.
Proof.
  induction l as [|x l IH]; simpl; [done|].
  destruct (f x) eqn:E.
  - split; [done|]. intros H. apply Forall_cons in H as [H _]. congruence.
  - rewrite IH. split; [by constructor|]. intros H. by apply Forall_cons in H as [_ H].
Qed.

End ListFacts.

(** ** The threshold filter of [search] *)

Lemma filter_by_threshold_cases self reranked :
  let kept := List.filter (λ r, fge (Retriever.get_rerank_score r)
                                  (Retriever.threshold self reranked)) reranked in
  Retriever.filter_by_threshold self reranked
  = if truthy kept then kept else slice_to 3 reranked.
Proof.
  unfold Retriever.filter_by_threshold. cbn zeta.
  destruct (List.filter _ reranked) eqn:E; simpl; [|done].
  destruct reranked; [done|]. done.
Qed.

Lemma filter_by_threshold_sub self reranked :
  Retriever.filter_by_threshold self reranked `sublist_of` reranked.
Proof.
  rewrite filter_by_threshold_cases. cbn zeta.
  destruct (truthy _); [apply sublist_List_filter|apply sublist_take].
Qed.

Lemma filter_by_threshold_nonempty self reranked :
  reranked ≠ [] → Retriever.filter_by_threshold self reranked ≠ [].
Proof.
  rewrite filter_by_threshold_cases. cbn zeta. intros Hne.
  destruct (List.filter _ reranked) eqn:E; simpl; [|done].
  by apply slice_to_nonempty.
Qed.

(** X1 (the threshold filter).  What [search] returns is taken from the
    reranked results, in their order, and is not empty when they are not.
    As soon as one result reaches the threshold in force, the answer
    consists of exactly the results that reach it. *)
Theorem filter_by_threshold_keeps_some self reranked :
  Retriever.filter_by_threshold self reranked `sublist_of` reranked
  ∧ (reranked ≠ [] → Retriever.filter_by_threshold self reranked ≠ [])
  ∧ (Exists (above (Retriever.threshold self reranked)) reranked →
     Forall (above (Retriever.threshold self reranked))
       (Retriever.filter_by_threshold self reranked)
     ∧ ∀ r, r ∈ reranked → above (Retriever.threshold self reranked) r →
            r ∈ Retriever.filter_by_threshold self reranked).
Proof.
  rewrite filter_by_threshold_cases. cbn zeta.
  set (thr := Retriever.threshold self reranked).
  set (kept := List.filter _ reranked).
  split_and!.
  - destruct (truthy kept); [apply sublist_List_filter|apply sublist_take].
  - intros Hne. destruct kept eqn:E; simpl; [|done].
    by apply slice_to_nonempty.
  - intros Hex.
    assert (truthy kept = true) as ->.
    { destruct kept eqn:E; [|done]. exfalso.
      apply List_filter_nil in E. apply Exists_exists in Hex as (r & Hr & Ha).
      rewrite Forall_forall in E. specialize (E r Hr). unfold above in Ha.
      fold thr in E. congruence. }
    split.
    + apply Forall_forall. intros r Hr.
      by apply list_elem_of_In, filter_In in Hr as [_ Hr].
    + intros r Hr Ha. apply list_elem_of_In, filter_In.
      split; [by apply list_elem_of_In|done].
Qed.

(** ** [search] without the reranker *)

(** X2 (degraded search).  For the retriever built by [__init__], when the
    query is embedded, the vector store gives candidates and the remote
    reranker is unavailable, [search] does not raise: it returns a
    non-empty list of at most [top_k_rerank] results, all scored by the
    fallback, in descending order of their scores, taken from what
    [_fallback_rank] makes of the candidates. *)
Theorem search_degrades_to_fallback post extract vsearch tok jina
    key query source_types s v :
  (Embedder.embed_query tok jina query s).1 = Ok v →
  Retriever.candidates extract vsearch (Retriever.init key) query
    source_types v ≠ [] →
  reranker_unavailable post (Retriever.init key) query
    (Retriever.candidates extract vsearch (Retriever.init key) query
       source_types v) →
  ∃ out,
    Retriever.search post extract vsearch tok jina (Retriever.init key)
      query source_types s
    = (Ok out, (Embedder.embed_query tok jina query s).2)
    ∧ out ≠ []
    ∧ len out <= Retriever.top_k_rerank (Retriever.init key)
    ∧ Forall fallback_scored out
    ∧ StronglySorted by_score_desc out
    ∧ out `sublist_of`
        Retriever._fallback_rank (Retriever.init key)
          (Retriever.candidates extract vsearch (Retriever.init key) query
             source_types v).
Proof.
  intros Hq Hne Hun.
  set (cands := Retriever.candidates _ _ _ _ _ _) in *.
  pose proof (rerank_unavailable _ _ _ _ Hne Hun) as Hr.
  destruct (fallback_rank_spec (Retriever.init key) cands)
    as (Hn & Hlen & Hall & _ & Hsorted); [done|done|].
  set (ranked := Retriever._fallback_rank (Retriever.init key) cands) in *.
  pose proof (filter_by_threshold_sub (Retriever.init key) ranked) as Hsub.
  exists (Retriever.filter_by_threshold (Retriever.init key) ranked).
  split_and!.
  - unfold Retriever.search. unfold_M.
    destruct (Embedder.embed_query tok jina query s) as [r s'].
    simpl in Hq. subst r. simpl. fold cands.
    destruct cands as [|c0 cs] eqn:Ec; [done|]. cbn [truthy negb].
    by rewrite Hr.
  - by apply filter_by_threshold_nonempty.
  - apply sublist_length in Hsub. unfold len in *. lia.
  - eapply sublist_Forall'; [exact Hsub|].
    eapply Forall_impl; [exact Hall|]. intros r (Hf & q & Hq' & _).
    split; [by eexists|done].
  - by eapply sublist_StronglySorted.
  - done.
Qed.

Lemma search_degrades_to_fallback_witness :
  ∃ out,
    Retriever.search post_503 (λ _, None) (λ _ _ _, two_hits) None
      example_jina (Retriever.init example_key) (lit "explain it") None
      example_embedder
    = (Ok out,
       (Embedder.embed_query None example_jina (lit "explain it")
          example_embedder).2)
    ∧ out ≠ []
    ∧ Forall fallback_scored out.
Proof.
  destruct (search_degrades_to_fallback post_503 (λ _, None)
              (λ _ _ _, two_hits) None example_jina example_key
              (lit "explain it") None example_embedder [Fin 1; Fin 0])
    as (out & H1 & H2 & _ & H4 & _).
  - reflexivity.
  - done.
  - by apply (StatusNot200 _ _ _ _ 503 (Ok [])).
  - exists out. by split_and!.
Defined.

(** ** [_rerank] with the remote scores *)

(** X3 (remote scores are mapped by position).  When the reranker answers
    200 with a non-empty list of pairs whose indices are not negative,
    [_rerank] returns, in the order of the pairs, the candidate at each
    index that is in range, with the score of the pair as its
    ["rerank_score"]; a pair whose index is out of range gives nothing.
    The fallback flag of the candidates is left as it was. *)
Theorem rerank_maps_by_position post self query results items :
  results ≠ [] →
  truthy (default [] (Retriever.voyage_api_key self)) = true →
  post (Retriever.mkRequest query (map Retriever.document results)
          (Retriever.top_k_rerank self))
    = Retriever.Response 200 (Ok items) →
  items ≠ [] →
  Forall (λ it, 0 <= default 0 (Retriever.index it)) items →
  Retriever._rerank post self query results
    = Ok (omap (mapped_item results) items)
  ∧ (length (omap (mapped_item results) items) <= length items)%nat
  ∧ (Forall (λ r, Retriever._is_fallback r = None) results →
     Forall (λ r, Retriever._is_fallback r = None)
       (omap (mapped_item results) items)).
Proof.
  intros Hne Hkey Hpost Hitems Hidx. split_and!.
  - unfold Retriever._rerank.
    destruct results as [|r0 rs]; [done|]. cbn [truthy negb].
    rewrite Hkey. cbn [negb]. unfold Retriever.rerank_try. rewrite Hpost.
    cbn [Z.eqb Pos.eqb negb]. destruct items as [|i0 its]; [done|].
    cbn [truthy negb]. by rewrite map_items_nonneg.
  - clear. induction items as [|it items IH]; [done|].
    change (omap (mapped_item results) (it :: items))
      with (match mapped_item results it with
            | Some y => y :: omap (mapped_item results) items
            | None => omap (mapped_item results) items
            end).
    destruct (mapped_item results it); simpl; lia.
  - intros Hall. apply Forall_forall. intros r Hr.
    apply list_elem_of_omap in Hr as (it & _ & Hit).
    unfold mapped_item in Hit.
    destruct (results !! _) as [c|] eqn:E; simplify_eq/=.
    rewrite Forall_forall in Hall. apply Hall.
    by eapply list_elem_of_lookup_2.
Qed.

Lemma rerank_maps_by_position_witness :
  Retriever._rerank (post_items low_items) (Retriever.init example_key)
    (lit "explain it") four_hits
  = Ok (omap (mapped_item four_hits) low_items).
Proof.
  apply (rerank_maps_by_position (post_items low_items)
           (Retriever.init example_key) (lit "explain it") four_hits
           low_items).
  - done.
  - reflexivity.
  - reflexivity.
  - done.
  - repeat constructor; simpl; lia.
Defined.

(** ** [_fallback_rank] on candidates in order *)

Lemma clamp_mono p q :
  (q <= p)%Q →
  flt (Py.max (Fin 0) (Py.min (Fin 1) (Fin p)))
      (Py.max (Fin 0) (Py.min (Fin 1) (Fin q))) = false.
Proof.
  intros Hqp. rewrite !clamp_spec.
  apply not_true_iff_false. rewrite flt_Fin. apply Qle_not_lt.
  destruct (Qle_bool q 0) eqn:Eq0, (Qle_bool p 0) eqn:Ep0;
    try apply Qle_bool_iff in Eq0; try apply Qle_bool_iff in Ep0.
  - apply Qle_refl.
  - destruct (Qle_bool 1 p) eqn:Ep1; [done|].
    apply Qlt_le_weak, Qnot_le_lt. rewrite <- Qle_bool_iff. congruence.
  - exfalso. assert (Qle_bool q 0 = true); [|congruence].
    apply Qle_bool_iff. by eapply Qle_trans.
  - destruct (Qle_bool 1 q) eqn:Eq1, (Qle_bool 1 p) eqn:Ep1;
      try apply Qle_bool_iff in Eq1; try apply Qle_bool_iff in Ep1.
    + apply Qle_refl.
    + exfalso. assert (Qle_bool 1 p = true); [|congruence].
      apply Qle_bool_iff. by eapply Qle_trans.
    + apply Qlt_le_weak, Qnot_le_lt. rewrite <- Qle_bool_iff. congruence.
    + done.
Qed.

(** Sorting a list that is already in order leaves it as it is. *)
Lemma sort_by_sorted_id {A K} (lt : K → K → bool) (key : A → K) (l : list A) :
  Sorted (λ a b, lt (key b) (key a) = false) l →
  Retriever.sort_by lt key l = l.
Proof.
  induction 1 as [|x l Hl IH Hx]; simpl; [done|].
  rewrite IH. destruct Hx as [|y l' Hxy]; simpl; [done|]. by rewrite Hxy.
Qed.

Lemma Sorted_slice_to {A} (R : A → A → Prop) k (l : list A) :
  Sorted R l → Sorted R (slice_to k l).
Proof.
  intros Hs. unfold slice_to. generalize (clip (length l) k).
  intros n. revert n. induction Hs as [|x l Hl IH Hx]; intros [|n]; simpl;
    try constructor; [apply IH|].
  destruct Hx as [|y l' Hxy]; destruct n; simpl; by constructor.
Qed.

(** Clamped scores keep the order of the similarities. *)
Lemma with_fallback_score_sorted (top : list Retriever.Hit) :
  Sorted by_similarity_desc top →
  Sorted (λ a b, flt (Retriever.get_rerank_score a)
                     (Retriever.get_rerank_score b) = false)
    (map with_fallback_score top).
Proof.
  induction 1 as [|x l Hl IH Hx]; simpl; [constructor|].
  constructor; [exact IH|].
  destruct Hx as [|y l' (p & q & Hp & Hq & Hpq)]; simpl; constructor.
  unfold Retriever.get_rerank_score. simpl. rewrite Hp, Hq. simpl.
  by apply clamp_mono.
Qed.

(** X4 (the fallback keeps the order of the vector search).  On candidates
    whose similarities are numbers in descending order, [_fallback_rank]
    changes no position: it returns the first [top_k_rerank] candidates, in
    their order, each with its clamped similarity as score. *)
Theorem fallback_rank_keeps_order self results :
  Sorted by_similarity_desc results →
  Retriever._fallback_rank self results
  = map with_fallback_score (slice_to (Retriever.top_k_rerank self) results).
Proof.
  intros Hs. unfold Retriever._fallback_rank, Retriever.sort_by_reverse.
  apply sort_by_sorted_id.
  apply (with_fallback_score_sorted
           (slice_to (Retriever.top_k_rerank self) results)).
  by apply Sorted_slice_to.
Qed.

Lemma fallback_rank_keeps_order_witness :
  Retriever._fallback_rank (Retriever.init example_key) four_hits
  = map with_fallback_score
      (slice_to (Retriever.top_k_rerank (Retriever.init example_key))
         four_hits).
Proof.
  apply fallback_rank_keeps_order.
  repeat first [ apply Sorted_cons | apply Sorted_nil
               | apply HdRel_cons | apply HdRel_nil ];
    (do 2 eexists; split_and!; [reflexivity|reflexivity|by vm_compute]).
Defined.

(** ** The file-name boost *)

Lemma sort_by_strongly_sorted {A K} (lt : K → K → bool) (key : A → K)
    (P : K → Prop) (l : list A) :
  (∀ a b, P a → P b → lt a b = true → lt b a = false) →
  (∀ a b c, P a → P b → P c →
     lt b a = false → lt c b = false → lt c a = false) →
  Forall (λ x, P (key x)) l →
  StronglySorted (λ a b, lt (key b) (key a) = false)
    (Retriever.sort_by lt key l).
Proof.
  intros Hasym Htrans. unfold Retriever.sort_by.
  induction 1 as [|x l Hx Hl IH]; simpl; [constructor|].
  set (s := foldr _ _ l) in *.
  assert (Hs : Forall (λ x, P (key x)) s).
  { unfold s. by rewrite (sort_by_perm lt key l). }
  clearbody s. clear Hl l.
  induction IH as [|y s Hsorted IHs Hy]; simpl; [repeat constructor|].
  apply Forall_cons in Hs as [Hyp Hs].
  destruct (lt (key y) (key x)) eqn:E.
  - constructor; [by apply IHs|].
    rewrite (insert_by_perm lt key x s).
    constructor; [|done]. by apply Hasym.
  - constructor; [by constructor|].
    constructor; [done|].
    rewrite Forall_forall in Hy, Hs. apply Forall_forall. intros z Hz.
    apply (Htrans (key x) (key y) (key z)); auto.
Qed.

Lemma StronglySorted_weaken {A} (R R' : A → A → Prop) (Q : A → Prop)
    (l : list A) :
  (∀ a b, Q a → Q b → R a b → R' a b) →
  Forall Q l → StronglySorted R l → StronglySorted R' l.
Proof.
  intros HR HQ. induction 1 as [|x l Hl IH Hx]; [constructor|].
  apply Forall_cons in HQ as [Hqx HQ].
  constructor; [by apply IH|].
  rewrite Forall_forall in Hx, HQ. apply Forall_forall. intros y Hy.
  apply HR; auto.
Qed.

Lemma tuple_lt_Fin b1 p b2 q :
  Retriever.tuple_lt (b1, Fin p) (b2, Fin q) = true
  ↔ (b1 = false ∧ b2 = true) ∨ (b1 = b2 ∧ (p < q)%Q).
Proof.
  unfold Retriever.tuple_lt. cbn [fst snd]. rewrite <- flt_Fin.
  assert (Hf : (if fne (Fin p) (Fin q) then flt (Fin p) (Fin q) else false)
               = flt (Fin p) (Fin q)).
  { unfold fne, feq, flt. simpl. by destruct (p ?= q)%Q. }
  rewrite Hf. destruct b1, b2; simpl; split;
    try (intros [[? ?]|[? ?]]; congruence); try congruence;
    try (intros H; by right); by left.
Qed.

(** On numbers, [not (k1 < k2)] is [k2 <= k1] in the lexicographic order. *)
Lemma tuple_lt_false_Fin b1 p b2 q :
  Retriever.tuple_lt (b1, Fin p) (b2, Fin q) = false
  ↔ (b2 = false ∧ b1 = true) ∨ (b1 = b2 ∧ (q <= p)%Q).
Proof.
  rewrite <- not_true_iff_false, tuple_lt_Fin. split.
  - intros H. destruct b1, b2.
    + right. split; [done|]. apply Qnot_lt_le. intros Hlt. apply H. by right.
    + by left.
    + destruct H. by left.
    + right. split; [done|]. apply Qnot_lt_le. intros Hlt. apply H. by right.
  - intros [[-> ->]|[-> Hle]] [[? ?]|[? Hlt]]; try congruence.
    by apply (Qle_not_lt _ _ Hle).
Qed.



(** ** [build_context] *)

Section ContainsFacts.

Lemma startswith_app p s : startswith p (p ++ s) = true.
Proof. induction p as [|a p IH]; simpl; [done|]. by rewrite N.eqb_refl. Qed.

Lemma startswith_app_l p s t :
  startswith p s = true → startswith p (s ++ t) = true.
Proof.
  revert s. induction p as [|a p IH]; intros [|b s]; simpl; try done.
  intros [-> H]%andb_true_iff. by rewrite IH.
Qed.

Lemma contains_app_l n h post :
  contains n h = true → contains n (h ++ post) = true.
Proof.
  induction h as [|c h IH]; simpl.
  - rewrite orb_false_r. destruct n; [|done]. intros _. by destruct post.
  - intros [H|H]%orb_true_iff.
    + change (c :: h ++ post) with ((c :: h) ++ post).
      by rewrite startswith_app_l.
    + rewrite IH by done. apply orb_true_r.
Qed.

Lemma contains_app_r n pre h :
  contains n h = true → contains n (pre ++ h) = true.
Proof.
  intros H. induction pre as [|c pre IH]; simpl; [done|].
  rewrite IH. apply orb_true_r.
Qed.

Lemma contains_middle n pre post : contains n (pre ++ n ++ post) = true.
Proof.
  apply contains_app_r.
  destruct (n ++ post) eqn:E; simpl.
  - destruct n; [done|discriminate].
  - rewrite <- E, startswith_app. done.
Qed.

Lemma contains_refl n : contains n n = true.
Proof.
  rewrite <- (app_nil_r n) at 2. apply (contains_middle n [] []).
Qed.

Lemma flat_map_middle {A} (g : A → list N) (l : list A) x :
  x ∈ l → ∃ pre post, flat_map g l = pre ++ g x ++ post.
Proof.
  induction l as [|y l IH]; [by intros ?%elem_of_nil|].
  intros [->|Hx]%elem_of_cons; simpl.
  - by exists [], (flat_map g l).
  - destruct (IH Hx) as (pre & post & ->).
    exists (g y ++ pre), post. by rewrite <- app_assoc.
Qed.

Lemma str_join_middle sep (parts : list (list N)) p :
  p ∈ parts → ∃ pre post, str_join sep parts = pre ++ p ++ post.
Proof.
  destruct parts as [|p0 ps]; [by intros ?%elem_of_nil|].
  intros [->|Hp]%elem_of_cons; simpl.
  { by exists [], (flat_map (λ q, sep ++ q) ps). }
  destruct (flat_map_middle (λ q, sep ++ q) ps p Hp) as (pre & post & ->).
  exists (p0 ++ pre ++ sep), post. by rewrite <- !app_assoc.
Qed.

End ContainsFacts.

(** X6 (the context shows every result).  For each result, the context
    built by [build_context] contains its label, which starts with the
    name of its source, and its text on lines of its own. *)
Theorem build_context_shows_every_result results :
  Forall (λ r,
    contains (lit "[Source: " ++ Retriever.source_name r)
      (Retriever.build_context results) = true
    ∧ contains ([10%N] ++ Retriever.text r ++ [10%N])
        (Retriever.build_context results) = true) results.
Proof.
  apply Forall_forall. intros r Hr. unfold Retriever.build_context.
  destruct (str_join_middle [10%N] (map Retriever.context_part results)
              (Retriever.context_part r)) as (pre & post & ->).
  { apply list_elem_of_fmap. by exists r. }
  unfold Retriever.context_part, Retriever.source_label. split.
  - apply contains_app_r, contains_app_l.
    rewrite <- !app_assoc.
    repeat case_match; rewrite <- ?app_assoc;
      rewrite (app_assoc (lit "[Source: "));
      apply (contains_middle _ []).
  - apply contains_app_r, contains_app_l.
    apply contains_app_r, contains_refl.
Qed.

(** ** [VectorStore.search] *)

Lemma flt_false_Fin p q : flt (Fin p) (Fin q) = false ↔ (q <= p)%Q.
Proof.
  rewrite <- not_true_iff_false, flt_Fin. split.
  - apply Qnot_lt_le.
  - intros H H'. by apply (Qle_not_lt _ _ H).
Qed.

Lemma StronglySorted_app_split {A} (R : A → A → Prop) (l1 l2 : list A) :
  StronglySorted R (l1 ++ l2) →
  StronglySorted R l1 ∧ ∀ a b, a ∈ l1 → b ∈ l2 → R a b.
Proof.
  induction l1 as [|x l1 IH]; simpl; intros H.
  { split; [constructor|]. intros a b Ha. by apply elem_of_nil in Ha. }
  apply StronglySorted_inv in H as [H Hx]. destruct (IH H) as [Hs Hab].
  apply Forall_app in Hx as [Hx1 Hx2]. split; [by constructor|].
  intros a b [->|Ha]%elem_of_cons Hb; [|by apply Hab].
  rewrite Forall_forall in Hx2. by apply Hx2.
Qed.

Lemma sort_by_score_sorted (l : list Retriever.Hit) :
  Forall (λ r, ∃ q, Retriever.score r = Some (Fin q)) l →
  StronglySorted by_similarity_desc
    (Retriever.sort_by_reverse flt
       (λ x, default (of_int 0) (Retriever.score x)) l).
Proof.
  intros Hfin. unfold Retriever.sort_by_reverse.
  set (key := λ x : Retriever.Hit, default (of_int 0) (Retriever.score x)).
  apply (StronglySorted_weaken
           (λ a b, flt (key a) (key b) = false) _
           (λ r, ∃ q, Retriever.score r = Some (Fin q))).
  - intros a b [p Ha] [q Hb] H. unfold key in H. rewrite Ha, Hb in H.
    simpl in H. apply flt_false_Fin in H. by exists p, q.
  - by rewrite (sort_by_perm _ key l).
  - apply (sort_by_strongly_sorted (λ a b, flt b a) key
             (λ k, ∃ q, k = Fin q)).
    + intros a b [p ->] [q ->] H. apply flt_Fin in H.
      apply flt_false_Fin. by apply Qlt_le_weak.
    + intros a b c [p ->] [q ->] [r ->] H1 H2.
      apply flt_false_Fin in H1, H2. apply flt_false_Fin.
      by eapply Qle_trans.
    + eapply Forall_impl; [exact Hfin|]. intros r [q Hq].
      unfold key. rewrite Hq. by eexists.
Qed.

(** X7 (the vector search returns the best hits).  When the distances are
    numbers and [top_k] is not negative, [VectorStore.search] returns
    [top_k] of the hits found in the two collections, or all of them when
    they are fewer, in descending order of their scores; no hit that is
    left out has a higher score than one that is returned.  A collection
    whose search raises contributes no hit and does not prevent the search
    of the other. *)
Theorem search_returns_best client_search self query_embedding top_k
    source_types :
  let all := found client_search self query_embedding top_k source_types in
  let results :=
    VectorStoreQueries.search client_search self query_embedding top_k
      source_types in
  Forall (λ r, ∃ q, Retriever.score r = Some (Fin q)) all →
  0 <= top_k →
  len results = Z.min top_k (len all)
  ∧ StronglySorted by_similarity_desc results
  ∧ ∃ dropped,
      results ++ dropped ≡ₚ all
      ∧ ∀ a b, a ∈ results → b ∈ dropped → by_similarity_desc a b.
Proof.
  intros all results Hfin Hk.
  set (sorted := Retriever.sort_by_reverse flt
                   (λ x, default (of_int 0) (Retriever.score x)) all).
  assert (Hr : results = take (Z.to_nat top_k) sorted).
  { unfold results, VectorStoreQueries.search, slice_to, clip.
    cbn [foldl app]. fold (found client_search self query_embedding top_k
                             source_types). fold all. fold sorted.
    by replace (top_k <? 0) with false by (symmetry; by apply Z.ltb_ge). }
  assert (Hp : sorted ≡ₚ all) by apply sort_by_perm.
  pose proof (Permutation_length Hp) as Hlen.
  pose proof (sort_by_score_sorted all Hfin) as Hs. fold sorted in Hs.
  rewrite <- (take_drop (Z.to_nat top_k) sorted) in Hs, Hp.
  rewrite <- Hr in Hs, Hp.
  split_and!.
  - rewrite Hr. unfold len. rewrite length_take.
    lia.
  - by apply StronglySorted_app_split in Hs as [Hs _].
  - exists (drop (Z.to_nat top_k) sorted). split; [done|].
    by apply StronglySorted_app_split in Hs as [_ Hs].
Qed.

Lemma search_returns_best_witness :
  len (VectorStoreQueries.search docs_only_search small_store unit_vector 1
         None) = 1
  ∧ StronglySorted by_similarity_desc
      (VectorStoreQueries.search docs_only_search small_store unit_vector 1
         None).
Proof.
  destruct (search_returns_best docs_only_search small_store unit_vector 1
              None) as (H1 & H2 & _).
  - repeat constructor; by eexists.
  - lia.
  - split; [exact H1|exact H2].
Defined.

(** ** The two searches together *)

Lemma search_sorted client_search self query_embedding top_k source_types :
  Forall (λ r, ∃ q, Retriever.score r = Some (Fin q))
    (found client_search self query_embedding top_k source_types) →
  Sorted by_similarity_desc
    (VectorStoreQueries.search client_search self query_embedding top_k
       source_types).
Proof.
  intros Hfin. unfold VectorStoreQueries.search. cbn [foldl app].
  apply Sorted_slice_to, StronglySorted_Sorted.
  by apply (sort_by_score_sorted
              (found client_search self query_embedding top_k source_types)).
Qed.

(** X8 (without the reranker, the order of the vector search is the order
    of the answer).  For the retriever built by [__init__] over the vector
    store, when the query names no file, the distances are numbers and the
    reranker is unavailable, [search] returns a non-empty selection of the
    ten best hits of the vector search, in the order of that search, each
    with its clamped similarity as score. *)
Theorem search_without_reranker_keeps_vector_order client_search store
    post extract tok jina key query source_types s v :
  let vsearch := VectorStoreQueries.search client_search store in
  let hits := vsearch v 50 source_types in
  (Embedder.embed_query tok jina query s).1 = Ok v →
  extract query = None →
  Forall (λ r, ∃ q, Retriever.score r = Some (Fin q))
    (found client_search store v 50 source_types) →
  hits ≠ [] →
  reranker_unavailable post (Retriever.init key) query hits →
  ∃ out,
    Retriever.search post extract vsearch tok jina (Retriever.init key)
      query source_types s
    = (Ok out, (Embedder.embed_query tok jina query s).2)
    ∧ out ≠ []
    ∧ out `sublist_of` map with_fallback_score (slice_to 10 hits).
Proof.
  intros vsearch hits Hq Hex Hfin Hne Hun.
  assert (Hc : Retriever.candidates extract vsearch (Retriever.init key)
                 query source_types v = hits).
  { unfold Retriever.candidates. by rewrite Hex. }
  assert (Hrank : Retriever._fallback_rank (Retriever.init key) hits
                  = map with_fallback_score (slice_to 10 hits)).
  { unfold Retriever._fallback_rank, Retriever.sort_by_reverse.
    apply sort_by_sorted_id.
    apply (with_fallback_score_sorted (slice_to 10 hits)).
    by apply Sorted_slice_to, search_sorted. }
  pose proof (rerank_unavailable _ _ _ _ Hne Hun) as Hr.
  exists (Retriever.filter_by_threshold (Retriever.init key)
            (Retriever._fallback_rank (Retriever.init key) hits)).
  split_and!.
  - unfold Retriever.search. unfold_M.
    destruct (Embedder.embed_query tok jina query s) as [r s'].
    simpl in Hq. subst r. cbn [fst snd]. cbn beta iota. rewrite Hc.
    destruct hits as [|h0 hs] eqn:Eh; [done|]. cbn [truthy negb].
    by rewrite Hr.
  - apply filter_by_threshold_nonempty. rewrite Hrank.
    destruct hits; [done|]. done.
  - rewrite <- Hrank. apply filter_by_threshold_sub.
Qed.

Lemma search_without_reranker_keeps_vector_order_witness :
  ∃ out,
    Retriever.search post_503 (λ _, None)
      (VectorStoreQueries.search docs_only_search small_store) None
      example_jina (Retriever.init example_key) (lit "explain it") None
      example_embedder
    = (Ok out,
       (Embedder.embed_query None example_jina (lit "explain it")
          example_embedder).2)
    ∧ out ≠ [].
Proof.
  destruct (search_without_reranker_keeps_vector_order docs_only_search
              small_store post_503 (λ _, None) None example_jina
              example_key (lit "explain it") None example_embedder
              [Fin 1; Fin 0])
    as (out & H1 & H2 & _).
  - reflexivity.
  - reflexivity.
  - repeat constructor; by eexists.
  - done.
  - by apply (StatusNot200 _ _ _ _ 503 (Ok [])).
  - exists out. by split.
Defined.


(* ===================================================================== *)
(** * Further properties: embedding                                        *)
(* ===================================================================== *)

(** ** [embed_documents] *)

Section Pointwise.
Context (tok : option (str → nat))
  (jina : list str → Embedder.task → Q →
          Exc (list Embedder.vector * option Z) * Q)
  (f : str → Embedder.vector).

Lemma next_batch_prefix s texts i :
  0 <= i → 1 <= Embedder.batch_size s →
  ∃ k, (Embedder.next_batch tok s texts i).1
       = take k (drop (Z.to_nat i) texts).
Proof.
  intros Hi Hbs. unfold Embedder.next_batch.
  destruct (_ && _); cbn [fst]; eexists; apply slice_take; try lia.
  unfold Embedder.new_size. lia.
Qed.

Lemma embed_documents_iter_pointwise texts i s :
  answers_pointwise jina f →
  ∃ s', Embedder.embed_documents_iter tok jina texts i s
        = (Ok (i + len (Embedder.next_batch tok s texts i).1,
               map f (Embedder.next_batch tok s texts i).1), s')
        ∧ Embedder.batch_size s' = Embedder.batch_size s.
Proof.
  intros Hj.
  unfold Embedder.embed_documents_iter. unfold_M. unfold id. cbn beta iota.
  destruct (Embedder.next_batch tok s texts i) as [batch est]. cbn beta iota.
  destruct (reserve_spec s est) as (s1 & -> & Hb1 & _). cbn beta iota.
  unfold Embedder._embed_batch.
  destruct (Hj batch (Embedder.clock s1)) as (usage & now' & ->).
  cbn beta iota.
  unfold Embedder.reconcile, Embedder._sleep_with_jitter, Embedder.time_sleep.
  unfold_M.
  destruct usage as [p|]; [destruct (p >=? 0)|]; cbn;
    destruct (i + len batch <? len texts); cbn; eexists; (split; [reflexivity|]);
    done.
Qed.

Lemma embed_documents_loop_pointwise fuel texts i all s :
  answers_pointwise jina f →
  0 <= i → 1 <= Embedder.batch_size s →
  len texts - i <= Z.of_nat fuel →
  ∃ s', Embedder.embed_documents_loop tok jina fuel texts i all s
        = (Ok (Some (all ++ map f (drop (Z.to_nat i) texts))), s').
Proof.
  intros Hj. revert i all s.
  induction fuel as [|fuel IH]; intros i all s Hi Hbs Hf;
    cbn [Embedder.embed_documents_loop].
  - destruct (Z.ltb_spec i (len texts)); [lia|].
    eexists. rewrite drop_ge by (unfold len in *; lia).
    by rewrite app_nil_r.
  - destruct (Z.ltb_spec i (len texts)) as [Hlt|Hge].
    + unfold_M.
      destruct (embed_documents_iter_pointwise texts i s Hj) as (s1 & -> & Hb).
      cbn beta iota.
      pose proof (next_batch_progress tok s texts i) as Hprog.
      destruct (next_batch_prefix s texts i Hi Hbs) as [k Hk].
      set (batch := (Embedder.next_batch tok s texts i).1) in *.
      destruct (IH (i + len batch) (all ++ map f batch) s1) as [s' ->];
        [lia|lia|lia|].
      exists s'. do 3 f_equal. rewrite <- app_assoc. f_equal.
      rewrite <- map_app. f_equal.
      replace (Z.to_nat (i + len batch))
        with (Z.to_nat i + length batch)%nat by (unfold len; lia).
      rewrite <- drop_drop.
      set (rest := drop (Z.to_nat i) texts) in *.
      rewrite Hk, length_take.
      destruct (Nat.le_gt_cases k (length rest)).
      * rewrite Nat.min_l by done. apply take_drop.
      * rewrite Nat.min_r by lia. rewrite take_ge, drop_ge by lia.
        by rewrite app_nil_r.
    + eexists. rewrite drop_ge by (unfold len in *; lia).
      by rewrite app_nil_r.
Qed.

End Pointwise.



(** ** The budget of the embedder *)

Lemma Qle_bool_false a b : Qle_bool a b = false ↔ (b < a)%Q.
Proof.
  rewrite <- not_true_iff_false, Qle_bool_iff. split.
  - apply Qnot_le_lt.
  - intros H H'. by apply (Qlt_not_le _ _ H).
Qed.

(** X10 (a reservation inside the window).  While the window is less than
    60 seconds old, a reservation that fits both limits is counted at once
    and the clock does not move; one that exceeds a limit waits until 0.05
    seconds after the end of the window, then opens a new window in which
    it is the only request counted. *)
Theorem reserve_waits_for_window s c :
  (Embedder.clock s - Embedder._window_start s < 60)%Q →
  (Embedder._window_requests s + 1 <= Embedder._rpm_limit s
   ∧ Embedder._window_tokens s + c <= Embedder._tpm_limit s →
   Embedder.reserve c s
   = (Ok (), Embedder.set_window (Embedder._window_start s)
               (Embedder._window_requests s + 1)
               (Embedder._window_tokens s + c) s))
  ∧ (Embedder._window_requests s + 1 > Embedder._rpm_limit s
     ∨ Embedder._window_tokens s + c > Embedder._tpm_limit s →
     (Embedder.reserve c s).1 = Ok ()
     ∧ (Embedder.clock (Embedder.reserve c s).2
        == Embedder._window_start s + 60 + (5 # 100))%Q
     ∧ Embedder._window_start (Embedder.reserve c s).2
       = Embedder.clock (Embedder.reserve c s).2
     ∧ Embedder._window_requests (Embedder.reserve c s).2 = 1
     ∧ Embedder._window_tokens (Embedder.reserve c s).2 = c).
Proof.
  intros Hfresh.
  assert (Hw : Qle_bool Embedder._window_seconds
                 (Embedder.clock s - Embedder._window_start s) = false).
  { by apply Qle_bool_false. }
  assert (Hsleep : Qle_bool (Embedder._window_start s + Embedder._window_seconds
                             - Embedder.clock s) 0 = false).
  { apply Qle_bool_false. unfold Embedder._window_seconds. lra. }
  unfold Embedder.reserve, Embedder._wait_for_budget, Embedder.reset_window,
    Embedder._sleep_with_jitter, Embedder.time_sleep, Embedder.time_time.
  unfold_M. unfold_M. cbn beta iota. rewrite Hw. cbn beta iota.
  split.
  - intros [H1 H2].
    replace (Embedder._window_requests s + 1 >? Embedder._rpm_limit s)
      with false by (symmetry; rewrite Z.gtb_ltb; apply Z.ltb_ge; lia).
    replace (Embedder._window_tokens s + c >? Embedder._tpm_limit s)
      with false by (symmetry; rewrite Z.gtb_ltb; apply Z.ltb_ge; lia).
    reflexivity.
  - intros H.
    assert ((Embedder._window_requests s + 1 >? Embedder._rpm_limit s)
            || (Embedder._window_tokens s + c >? Embedder._tpm_limit s)
            = true) as ->.
    { apply orb_true_iff. rewrite !Z.gtb_lt. lia. }
    cbn [negb]. cbn beta iota. rewrite !Hsleep.
    cbn [negb fst snd Embedder.clock Embedder._window_start
         Embedder._window_requests Embedder._window_tokens
         Embedder.set_window Embedder.set_clock].
    split_and!; try reflexivity.
    unfold Embedder._window_seconds. ring.
Qed.

Lemma reserve_waits_for_window_witness :
  Embedder.reserve 10 example_embedder
  = (Ok (), Embedder.set_window 0 1 10 example_embedder).
Proof.
  destruct (reserve_waits_for_window example_embedder 10) as [H _].
  - reflexivity.
  - apply H. by split.
Defined.



(** ** The exchange with the service *)

Lemma default_backoff_bounds attempt :
  1 <= attempt →
  (2 <= EmbedderHttp.default_backoff attempt
   ∧ EmbedderHttp.default_backoff attempt <= 32)%Q.
Proof.
  intros H. unfold EmbedderHttp.default_backoff.
  destruct (Z_le_gt_dec 5 attempt) as [H5|H5].
  - rewrite Z.min_r by done. by vm_compute.
  - rewrite Z.min_l by lia.
    assert (attempt = 1 ∨ attempt = 2 ∨ attempt = 3 ∨ attempt = 4)
      as [-> | [-> | [-> | ->]]] by lia; by vm_compute.
Qed.

Lemma collect_all vectors acc :
  EmbedderHttp.collect (map Some vectors) acc = Ok (acc ++ vectors).
Proof.
  revert acc. induction vectors as [|v vectors IH]; intros acc; simpl.
  - by rewrite app_nil_r.
  - by rewrite IH, <- app_assoc.
Qed.

Lemma embedder_sleep_spec d s :
  (0 < d)%Q →
  Embedder._sleep_with_jitter d s
  = (Ok (), Embedder.set_clock (Embedder.clock s + (d + (5 # 100)))%Q s).
Proof.
  intros Hd. unfold Embedder._sleep_with_jitter.
  assert (Qle_bool d 0 = false) as ->; [|done].
  rewrite <- not_true_iff_false, Qle_bool_iff. by apply Qlt_not_le.
Qed.

Section HttpFacts.
Context (http_post : list str → Embedder.task → Z → EmbedderHttp.response)
  (batch : list str) (task : Embedder.task).

Lemma embed_batch_loop_retries (k : nat) fuel attempt vectors usage s :
  0 <= attempt →
  (∀ a, attempt < a <= attempt + Z.of_nat k →
        http_post batch task a = EmbedderHttp.TooManyRequests None) →
  http_post batch task (attempt + Z.of_nat k + 1)
    = EmbedderHttp.Body (map Some vectors) usage →
  (k < fuel)%nat →
  ∃ s',
    EmbedderHttp._embed_batch_loop http_post fuel batch task attempt s
    = (Ok (Some (vectors, usage)), s')
    ∧ (Embedder.clock s + inject_Z (Z.of_nat k) * (205 # 100)
       <= Embedder.clock s')%Q
    ∧ (Embedder.clock s'
       <= Embedder.clock s + inject_Z (Z.of_nat k) * (3205 # 100))%Q
    ∧ Embedder._window_requests s' = Embedder._window_requests s
    ∧ Embedder._window_tokens s' = Embedder._window_tokens s.
Proof.
  revert fuel attempt s.
  induction k as [|k IH]; intros fuel attempt s Hatt Hbusy Hbody Hfuel;
    (destruct fuel as [|fuel]; [lia|]);
    cbn [EmbedderHttp._embed_batch_loop].
  - replace (attempt + Z.of_nat 0 + 1) with (attempt + 1) in Hbody by lia.
    rewrite Hbody, collect_all. cbn [app].
    eexists. split; [reflexivity|].
    change (inject_Z (Z.of_nat 0)) with 0%Q. split_and!; [lra|lra|done|done].
  - rewrite (Hbusy (attempt + 1)) by lia.
    pose proof (default_backoff_bounds (attempt + 1) ltac:(lia)) as [B1 B2].
    unfold_M. rewrite embedder_sleep_spec by lra. cbn beta iota.
    set (s1 := Embedder.set_clock _ s).
    destruct (IH fuel (attempt + 1) s1) as (s' & -> & C1 & C2 & W1 & W2).
    + lia.
    + intros a Ha. apply Hbusy. lia.
    + rewrite <- Hbody. f_equal. lia.
    + lia.
    + exists s'. split; [done|].
      replace (Z.of_nat (S k)) with (Z.of_nat k + 1) by lia.
      rewrite inject_Z_plus. change (inject_Z 1) with 1%Q.
      unfold s1 in C1, C2. cbn [Embedder.clock Embedder.set_clock] in C1, C2.
      set (b := EmbedderHttp.default_backoff (attempt + 1)) in *.
      set (n := inject_Z (Z.of_nat k)) in *.
      set (c' := Embedder.clock s') in *. set (c := Embedder.clock s) in *.
      clearbody b n c' c.
      split_and!; [lra|lra|by rewrite W1|by rewrite W2].
Qed.

Lemma embed_batch_loop_busy (n : nat) attempt s :
  (∀ a, attempt < a <= attempt + Z.of_nat n →
        ∃ r, http_post batch task a = EmbedderHttp.TooManyRequests r) →
  (EmbedderHttp._embed_batch_loop http_post n batch task attempt s).1
  = Ok None.
Proof.
  revert attempt s. induction n as [|n IH]; intros attempt s Hbusy; [done|].
  cbn [EmbedderHttp._embed_batch_loop].
  destruct (Hbusy (attempt + 1)) as [r ->]; [lia|].
  unfold_M.
  assert (Hs : ∀ d, ∃ s1, Embedder._sleep_with_jitter d s = (Ok (), s1)).
  { intros d. unfold Embedder._sleep_with_jitter.
    destruct (Qle_bool d 0); by eexists. }
  match goal with
  | |- context [Embedder._sleep_with_jitter ?d s] =>
      destruct (Hs d) as [s1 ->]
  end.
  cbn beta iota. apply IH. intros a Ha. apply Hbusy. lia.
Qed.

End HttpFacts.






(* ===================================================================== *)
(** * Further properties: the parser                                       *)
(* ===================================================================== *)

(** ** Relations kept by every step of a computation *)

Section Respects.
Context {S : Type} (R : S → S → Prop) `{!PreOrder R}.

Lemma respects_ret {A} (a : A) : respects R (mret a).
Proof. intros s. simpl. reflexivity. Qed.

Lemma respects_raise {A} e : respects R (raise (A:=A) e).
Proof. intros s. simpl. reflexivity. Qed.

Lemma respects_gets {A} (f : S → A) : respects R (gets f).
Proof. intros s. simpl. reflexivity. Qed.

Lemma respects_bind {A B} (m : M S A) (f : A → M S B) :
  respects R m → (∀ a, respects R (f a)) → respects R (m ≫= f).
Proof.
  intros Hm Hf s. unfold mbind, M_bind. specialize (Hm s).
  destruct (m s) as [[a|e] s1]; simpl in *; [|done].
  by etrans; [|apply Hf].
Qed.

Lemma respects_when c (m : M S unit) : respects R m → respects R (when c m).
Proof. intros Hm. destruct c; [done|apply respects_ret]. Qed.

Lemma respects_try_except {A} (body : M S A) handled handler :
  respects R body → (∀ e, respects R (handler e)) →
  respects R (try_except body handled handler).
Proof.
  intros Hb Hh s. unfold try_except. specialize (Hb s).
  destruct (body s) as [[a|e] s1]; simpl in *; [done|].
  destruct (handled e); [|done]. by etrans; [|apply Hh].
Qed.

End Respects.

Lemma returns_ret {S A} (a : A) : returns (S:=S) (mret a).
Proof. intros s. by eexists. Qed.

Lemma returns_bind {S A B} (m : M S A) (f : A → M S B) :
  returns m → (∀ a, returns (f a)) → returns (m ≫= f).
Proof.
  intros Hm Hf s. unfold mbind, M_bind. destruct (Hm s) as [a Ha].
  destruct (m s) as [r s1]; simpl in *; subst. apply Hf.
Qed.

Ltac respects_step :=
  first [ apply respects_bind; [apply _| |intros ?]
        | apply respects_gets; apply _
        | apply respects_when; [apply _|]
        | apply respects_ret; apply _
        | apply respects_raise; apply _
        | match goal with
          | |- respects _ (if ?b then _ else _) => destruct b
          | |- respects _ (match ?x with _ => _ end) => destruct x
          end ].

(** ** The daily ceiling *)

#[local] Instance keeps_daily_preorder : PreOrder keeps_daily.
Proof.
  split.
  - intros s. by unfold keeps_daily.
  - intros s1 s2 s3 (H1 & H2 & H3 & H4) (H1' & H2' & H3' & H4').
    unfold keeps_daily. rewrite H1', H1, H2', H2. rewrite H1, H2 in *.
    split_and!; try done; intros; [apply H3', H3|]; try done.
    etrans; [apply H4|apply H4']; done.
Qed.

#[local] Instance daily_frame_preorder : PreOrder daily_frame.
Proof.
  split.
  - intros s. by unfold daily_frame.
  - intros s1 s2 s3 (H1 & H2 & H3) (H1' & H2' & H3').
    unfold daily_frame. by rewrite H1', H1, H2', H2, H3', H3.
Qed.

Lemma daily_frame_keeps s s' : daily_frame s s' → keeps_daily s s'.
Proof.
  intros (H1 & H2 & H3). unfold keeps_daily. rewrite H1, H2, H3.
  split_and!; try done; lia.
Qed.

Lemma sleep_frame d : respects daily_frame (AIParser._sleep_with_jitter d).
Proof.
  unfold AIParser._sleep_with_jitter. destruct (Qle_bool d 0).
  - apply respects_ret; apply _.
  - intros s. by unfold daily_frame.
Qed.

Lemma wait_for_budget_frame est :
  respects daily_frame (AIParser._wait_for_budget est).
Proof.
  unfold AIParser._wait_for_budget.
  repeat (first [ apply respects_bind; [apply _| |intros ?]
                | apply respects_gets; apply _
                | apply respects_when; [apply _|]
                | apply respects_ret; apply _
                | apply respects_raise; apply _
                | apply sleep_frame
                | match goal with
                  | |- respects _ (if ?b then _ else _) => destruct b
                  end
                | (intros s; by unfold daily_frame) ]).
Qed.

(** [_wait_for_budget] returns only when the daily ceiling allows the
    call. *)
Lemma wait_for_budget_ok est s s' :
  AIParser._wait_for_budget est s = (Ok (), s') →
  AIParser._daily_tokens s + est <= AIParser._tpd_limit s.
Proof.
  intros H.
  destruct (Z_le_gt_dec (AIParser._daily_tokens s + est)
              (AIParser._tpd_limit s)) as [|Hgt]; [done|].
  rewrite (wait_for_budget_daily _ _ Hgt) in H. discriminate.
Qed.

Section ParseContentFacts.
Context (groq_installed : bool) (groq : nat → AIParser.completion).

Lemma sleep_keeps d : respects keeps_daily (AIParser._sleep_with_jitter d).
Proof. intros s. apply daily_frame_keeps, sleep_frame. Qed.

Lemma create_completion_keeps :
  respects keeps_daily (AIParser.create_completion groq).
Proof. intros s. apply daily_frame_keeps. by unfold daily_frame. Qed.

Lemma retry_loop_keeps F raw attempts :
  (∀ x, respects keeps_daily (F x)) →
  respects keeps_daily (AIParser.retry_loop groq F raw attempts).
Proof.
  intros HF. induction attempts as [|a rest IH]; cbn [AIParser.retry_loop].
  - apply respects_ret; apply _.
  - repeat first [ apply create_completion_keeps | apply sleep_keeps
                 | apply IH | apply HF | respects_step ].
Qed.

Lemma parse_content_body_keeps F raw :
  (∀ x, respects keeps_daily (F x)) →
  respects keeps_daily (AIParser.parse_content_body groq_installed groq F raw).
Proof.
  intros HF s. unfold AIParser.parse_content_body, AIParser._get_client.
  destruct (_ || _); [reflexivity|].
  unfold_M. cbn beta iota.
  pose proof (wait_for_budget_frame
                (AIParser._estimate_tokens (AIParser.truncate_input raw)
                 + AIParser._max_tokens s) s) as Hframe.
  pose proof (wait_for_budget_ok
                (AIParser._estimate_tokens (AIParser.truncate_input raw)
                 + AIParser._max_tokens s) s) as Hok.
  destruct (AIParser._wait_for_budget _ s) as [[[]|e] s1]; cbn beta iota.
  - cbn [negb]. specialize (Hok s1 eq_refl). simpl in Hframe.
    destruct Hframe as (Ht & Hm & Hd).
    set (est := AIParser._estimate_tokens (AIParser.truncate_input raw)
                + AIParser._max_tokens s) in *.
    set (s2 := AIParser.set_daily_tokens _ _).
    assert (H12 : keeps_daily s s2).
    { unfold keeps_daily, s2. simpl. rewrite Hd.
      split_and!; [done|done|lia|].
      intros Hmax. unfold est, AIParser._estimate_tokens. lia. }
    destruct groq_installed; cbn beta iota; [|done].
    etrans; [exact H12|]. by apply retry_loop_keeps.
  - apply daily_frame_keeps in Hframe. simpl in Hframe.
    destruct (is_RuntimeError e); [|done].
    unfold AIParser.print. unfold_M. simpl.
    etrans; [exact Hframe|]. apply daily_frame_keeps. by unfold daily_frame.
Qed.

End ParseContentFacts.

(** X14 (the daily ceiling is never passed).  If the tokens counted for
    the day are within the daily limit before a call of [parse_content]
    and [max_tokens] is not negative, they are within it after the call,
    whatever the service answers and whether the call returns or raises;
    the limit itself is unchanged and the count never goes down. *)
Theorem parse_content_keeps_daily_ceiling groq_installed groq raw_content s :
  AIParser._daily_tokens s <= AIParser._tpd_limit s →
  0 <= AIParser._max_tokens s →
  let s' := (AIParser.parse_content groq_installed groq raw_content s).2 in
  AIParser._tpd_limit s' = AIParser._tpd_limit s
  ∧ AIParser._daily_tokens s <= AIParser._daily_tokens s'
  ∧ AIParser._daily_tokens s' <= AIParser._tpd_limit s'.
Proof.
  intros Hd Hm s'.
  destruct (parse_content_body_keeps groq_installed groq
              (AIParser.parse_content_body groq_installed groq
                 (λ _, mret None)) raw_content) with (s := s)
    as (H1 & H2 & H3 & H4).
  { intros x. apply parse_content_body_keeps. intros y.
    apply respects_ret; apply _. }
  fold (AIParser.parse_content groq_installed groq) in *. fold s' in H1, H3, H4.
  rewrite H1. auto.
Qed.

Lemma parse_content_keeps_daily_ceiling_witness :
  let s' :=
    (AIParser.parse_content true groq_down (lit "some page")
       (AIParser.init 0)).2 in
  AIParser._tpd_limit s' = 500000
  ∧ 0 <= AIParser._daily_tokens s'
  ∧ AIParser._daily_tokens s' <= AIParser._tpd_limit s'.
Proof.
  apply (parse_content_keeps_daily_ceiling true groq_down (lit "some page")
           (AIParser.init 0)); by vm_compute.
Defined.

(** ** The number of requests *)

Lemma sends_bind {A B} n k (m : M AIParser.state A)
    (f : A → M AIParser.state B) :
  sends_at_most n m → (∀ a, sends_at_most k (f a)) →
  sends_at_most (n + k) (m ≫= f).
Proof.
  intros Hm Hf s. unfold mbind, M_bind. specialize (Hm s).
  destruct (m s) as [[a|e] s1]; simpl in *; [|lia].
  specialize (Hf a s1). lia.
Qed.

Lemma sends_weaken {A} n k (m : M AIParser.state A) :
  (n <= k)%nat → sends_at_most n m → sends_at_most k m.
Proof. intros Hnk Hm s. specialize (Hm s). lia. Qed.

Lemma sends_ret {A} (a : A) : sends_at_most 0 (mret a).
Proof. intros s. simpl. lia. Qed.

Lemma sends_sleep d : sends_at_most 0 (AIParser._sleep_with_jitter d).
Proof.
  intros s. unfold AIParser._sleep_with_jitter.
  destruct (Qle_bool d 0); simpl; lia.
Qed.

Section Requests.
Context (groq_installed : bool) (groq : nat → AIParser.completion).

Lemma retry_loop_sends k F raw attempts :
  (∀ x, sends_at_most k (F x)) →
  sends_at_most (length attempts + k)
    (AIParser.retry_loop groq F raw attempts).
Proof.
  intros HF. induction attempts as [|a rest IH]; cbn [AIParser.retry_loop].
  - eapply sends_weaken; [|apply sends_ret]. lia.
  - change (length (a :: rest) + k)%nat with (1 + (length rest + k))%nat.
    apply sends_bind.
    { intros s. simpl. lia. }
    intros [[r|]|err].
    + destruct (_ || _); (eapply sends_weaken; [|apply sends_ret]); lia.
    + eapply sends_weaken; [|apply sends_ret]. lia.
    + destruct (_ || _ || _).
      { change (length rest + k)%nat with (0 + (length rest + k))%nat.
        apply sends_bind; [apply sends_sleep|]. intros _. apply IH. }
      destruct (_ && _).
      { destruct (_ >? _).
        - eapply sends_weaken; [|apply HF]. lia.
        - eapply sends_weaken; [|apply sends_ret]. lia. }
      destruct (_ <? _).
      { change (length rest + k)%nat with (0 + (length rest + k))%nat.
        apply sends_bind; [apply sends_sleep|]. intros _. apply IH. }
      eapply sends_weaken; [|apply sends_ret]. lia.
Qed.

Lemma wait_for_budget_sends est :
  sends_at_most 0 (AIParser._wait_for_budget est).
Proof.
  intros s. 
  assert (H : AIParser.requests_sent (AIParser._wait_for_budget est s).2
              = AIParser.requests_sent s); [|lia].
  unfold AIParser._wait_for_budget, AIParser.reset_window,
    AIParser._sleep_with_jitter, AIParser.time_sleep, AIParser.time_time,
    AIParser.print.
  unfold_M. unfold_M. cbn beta iota.
  repeat (match goal with
          | |- context [if ?b then _ else _] => destruct b
          end; cbn); reflexivity.
Qed.

Lemma parse_content_body_sends k F raw :
  (∀ x, sends_at_most k (F x)) →
  sends_at_most (5 + k)
    (AIParser.parse_content_body groq_installed groq F raw).
Proof.
  intros HF s. unfold AIParser.parse_content_body, AIParser._get_client.
  destruct (_ || _); [simpl; lia|].
  unfold_M. cbn beta iota.
  pose proof (wait_for_budget_sends
                (AIParser._estimate_tokens (AIParser.truncate_input raw)
                 + AIParser._max_tokens s) s) as Hw.
  destruct (AIParser._wait_for_budget _ s) as [[[]|e] s1]; cbn beta iota.
  - cbn [negb]. simpl in Hw.
    destruct groq_installed; cbn beta iota; [|simpl; lia].
    match goal with
    | |- context [AIParser.retry_loop groq F ?r ?a ?st] =>
        pose proof (retry_loop_sends k F r a HF st) as Hr
    end.
    cbn [length map seq Z.to_nat Pos.to_nat Pos.iter_op AIParser.max_retries
         Nat.add] in Hr.
    simpl in Hr |- *. lia.
  - simpl in Hw. destruct (is_RuntimeError e); simpl; lia.
Qed.

End Requests.

(** X15 (a bounded number of requests).  One call of [parse_content] sends
    at most ten requests to the service: five for the content and five for
    its first 3000 characters when the service refuses the content for its
    size.  A content of at most 3000 characters costs at most five. *)
Theorem parse_content_bounded_requests groq_installed groq raw_content s :
  let s' := (AIParser.parse_content groq_installed groq raw_content s).2 in
  (AIParser.requests_sent s' <= AIParser.requests_sent s + 10)%nat
  ∧ (len raw_content <= 3000 →
     (AIParser.requests_sent s' <= AIParser.requests_sent s + 5)%nat).
Proof.
  intros s'. split.
  - apply (parse_content_body_sends groq_installed groq 5).
    intros x. apply (parse_content_body_sends groq_installed groq 0).
    intros y. apply sends_ret.
  - intros Hlen. unfold s', AIParser.parse_content.
    rewrite (parse_content_body_short groq_installed groq _ (λ _, mret None))
      by done.
    apply (parse_content_body_sends groq_installed groq 0).
    intros y. apply sends_ret.
Qed.

(** ** Exceptions *)

Lemma returns_sleep d : returns (AIParser._sleep_with_jitter d).
Proof.
  intros s. unfold AIParser._sleep_with_jitter.
  destruct (Qle_bool d 0); by eexists.
Qed.

Section Returns.
Context (groq : nat → AIParser.completion).

Lemma retry_loop_returns F raw attempts :
  (∀ x, returns (F x)) →
  returns (AIParser.retry_loop groq F raw attempts).
Proof.
  intros HF. induction attempts as [|a rest IH]; cbn [AIParser.retry_loop].
  - apply returns_ret.
  - apply returns_bind; [intros s; by eexists|].
    intros [[r|]|err]; try apply returns_ret.
    + destruct (_ || _); apply returns_ret.
    + destruct (_ || _ || _).
      { apply returns_bind; [apply returns_sleep|]. intros _. apply IH. }
      destruct (_ && _).
      { destruct (_ >? _); [apply HF|apply returns_ret]. }
      destruct (_ <? _); [|apply returns_ret].
      apply returns_bind; [apply returns_sleep|]. intros _. apply IH.
Qed.

Lemma wait_for_budget_raises est s e s1 :
  AIParser._wait_for_budget est s = (Raise e, s1) →
  is_RuntimeError e = true.
Proof.
  unfold AIParser._wait_for_budget, AIParser.reset_window,
    AIParser._sleep_with_jitter, AIParser.time_sleep, AIParser.time_time,
    AIParser.print.
  unfold_M. unfold_M. cbn beta iota.
  repeat (match goal with
          | |- context [if ?b then _ else _] => destruct b
          end; cbn); intros H; by simplify_eq.
Qed.

Lemma parse_content_body_returns F raw :
  (∀ x, returns (F x)) →
  returns (AIParser.parse_content_body true groq F raw).
Proof.
  intros HF s. unfold AIParser.parse_content_body, AIParser._get_client.
  destruct (_ || _); [by eexists|].
  unfold_M. cbn beta iota.
  destruct (AIParser._wait_for_budget _ s) as [[[]|e] s1] eqn:E;
    cbn beta iota.
  - cbn [negb]. apply retry_loop_returns, HF.
  - rewrite (wait_for_budget_raises _ _ _ _ E).
    unfold AIParser.print. unfold_M. cbn. by eexists.
Qed.

End Returns.

(** X16 (no exception leaves [parse_content]).  When the [groq] package is
    installed, [parse_content] returns, a text or [None], whatever the
    content, the state of the budget and the answers of the service. *)
Theorem parse_content_never_raises groq raw_content s :
  ∃ result,
    (AIParser.parse_content true groq raw_content s).1 = Ok result.
Proof.
  apply parse_content_body_returns. intros x.
  apply parse_content_body_returns. intros y. apply returns_ret.
Qed.

Lemma wait_for_budget_returns est s :
  AIParser._daily_tokens s + est <= AIParser._tpd_limit s →
  ∃ s', AIParser._wait_for_budget est s = (Ok (), s').
Proof.
  intros Hd.
  destruct (AIParser._wait_for_budget est s) as [[[]|e] s1] eqn:E;
    [by eexists|exfalso].
  revert E.
  unfold AIParser._wait_for_budget, AIParser.reset_window,
    AIParser._sleep_with_jitter, AIParser.time_sleep, AIParser.time_time,
    AIParser.print.
  unfold_M. unfold_M. cbn beta iota.
  assert (Hf : (AIParser._daily_tokens s + est >? AIParser._tpd_limit s)
               = false).
  { rewrite Z.gtb_ltb. by apply Z.ltb_ge. }
  destruct (Qle_bool _ _); cbn; rewrite Hf;
    repeat (match goal with
            | |- context [if ?b then _ else _] => destruct b
            end; cbn); discriminate.
Qed.

Lemma wait_for_budget_requests est s :
  AIParser.requests_sent (AIParser._wait_for_budget est s).2
  = AIParser.requests_sent s.
Proof.
  unfold AIParser._wait_for_budget, AIParser.reset_window,
    AIParser._sleep_with_jitter, AIParser.time_sleep, AIParser.time_time,
    AIParser.print.
  unfold_M. unfold_M. cbn beta iota.
  repeat (match goal with
          | |- context [if ?b then _ else _] => destruct b
          end; cbn); reflexivity.
Qed.

(** X17 (a missing package is found after the budget is charged).  When
    the [groq] package is not installed, a call of [parse_content] on a
    content that is not blank and fits the daily limit raises the
    [RuntimeError] of [_get_client]; no request is sent, and the tokens
    reserved for the call stay counted for the day. *)
Theorem parse_content_without_groq groq raw_content s :
  truthy (strip raw_content) = true →
  let reserved :=
    AIParser._estimate_tokens (AIParser.truncate_input raw_content)
    + AIParser._max_tokens s in
  AIParser._daily_tokens s + reserved <= AIParser._tpd_limit s →
  let r := AIParser.parse_content false groq raw_content s in
  r.1 = Raise (RuntimeError GroqNotInstalled)
  ∧ AIParser._daily_tokens r.2 = AIParser._daily_tokens s + reserved
  ∧ AIParser.requests_sent r.2 = AIParser.requests_sent s.
Proof.
  intros Hraw reserved Hd r.
  assert (Hne : truthy raw_content = true) by (by destruct raw_content).
  destruct (wait_for_budget_returns reserved s Hd) as [s1 E].
  pose proof (wait_for_budget_frame reserved s) as (_ & _ & Hframe).
  pose proof (wait_for_budget_requests reserved s) as Hs.
  rewrite E in Hframe, Hs. simpl in Hframe, Hs.
  assert (Hr : r = (Raise (RuntimeError GroqNotInstalled),
                    AIParser.set_daily_tokens
                      (AIParser._daily_tokens s1 + reserved)
                      (AIParser.set_window (AIParser._window_start s1)
                         (AIParser._window_requests s1 + 1)
                         (AIParser._window_tokens s1 + reserved) s1))).
  { unfold r, AIParser.parse_content, AIParser.parse_content_body at 1,
      AIParser._get_client.
    rewrite Hne, Hraw. cbn [negb orb]. unfold_M. cbn beta iota.
    fold reserved. rewrite E. reflexivity. }
  rewrite Hr. cbn. split_and!; [done|lia|done].
Qed.

Lemma parse_content_without_groq_witness :
  let r :=
    AIParser.parse_content false groq_down (lit "some page")
      (AIParser.init 0) in
  r.1 = Raise (RuntimeError GroqNotInstalled)
  ∧ AIParser._daily_tokens r.2 = 1026
  ∧ AIParser.requests_sent r.2 = 0%nat.
Proof.
  apply (parse_content_without_groq groq_down (lit "some page")
           (AIParser.init 0)); by vm_compute.
Defined.

(** ** Estimates *)



(** ** Waiting for the next window *)

Lemma jitter_bounds t :
  let jitter := ((5 # 100) * (1 + (1 # 10) * (t - inject_Z (Qfloor t))))%Q in
  ((5 # 100) <= jitter ∧ jitter < (55 # 1000))%Q.
Proof.
  intros jitter. subst jitter.
  pose proof (Qfloor_le t) as H1. pose proof (Qlt_floor t) as H2.
  rewrite inject_Z_plus in H2. change (inject_Z 1) with 1%Q in H2.
  split; lra.
Qed.

(** X19 (a full window is waited out).  While the window is less than 60
    seconds old and the daily limit allows the call, a call of
    [_wait_for_budget] that would exceed the limit of requests or of
    tokens per minute sleeps until the end of the window and between 0.05
    and 0.055 seconds more, then opens a new window with both counters at
    zero; the tokens counted for the day are unchanged. *)
Theorem wait_for_budget_waits_out_window s est :
  (AIParser.clock s - AIParser._window_start s < 60)%Q →
  AIParser._daily_tokens s + est <= AIParser._tpd_limit s →
  AIParser._rpm_limit s < AIParser._window_requests s + 1
  ∨ AIParser._tpm_limit s < AIParser._window_tokens s + est →
  ∃ s',
    AIParser._wait_for_budget est s = (Ok (), s')
    ∧ (AIParser._window_start s + 60 + (5 # 100) <= AIParser.clock s')%Q
    ∧ (AIParser.clock s' < AIParser._window_start s + 60 + (55 # 1000))%Q
    ∧ AIParser._window_start s' = AIParser.clock s'
    ∧ AIParser._window_requests s' = 0
    ∧ AIParser._window_tokens s' = 0
    ∧ AIParser._daily_tokens s' = AIParser._daily_tokens s.
Proof.
  intros Hfresh Hd Hover.
  unfold AIParser._wait_for_budget, AIParser.reset_window,
    AIParser._sleep_with_jitter, AIParser.time_sleep, AIParser.time_time,
    AIParser.print, AIParser._window_seconds.
  unfold_M. unfold_M. cbn beta iota.
  assert (Qle_bool 60 (AIParser.clock s - AIParser._window_start s) = false)
    as -> by (by apply Qle_bool_false).
  cbn beta iota.
  assert ((AIParser._daily_tokens s + est >? AIParser._tpd_limit s) = false)
    as -> by (rewrite Z.gtb_ltb; by apply Z.ltb_ge).
  assert ((AIParser._window_requests s + 1 >? AIParser._rpm_limit s)
          || (AIParser._window_tokens s + est >? AIParser._tpm_limit s)
          = true) as Hor.
  { apply orb_true_iff. rewrite !Z.gtb_ltb, !Z.ltb_lt. done. }
  rewrite orb_false_r, Hor. cbn [negb]. cbn beta iota.
  match goal with
  | |- context [negb (Qle_bool ?x 0)] =>
      assert (Qle_bool x 0 = false) as Hs
        by (apply Qle_bool_false; unfold Qminus in *; lra)
  end.
  rewrite Hs. cbn [negb]. cbn beta iota.
  cbn [AIParser.clock AIParser.set_stdout AIParser.set_clock].
  eexists. split; [reflexivity|].
  cbn [AIParser.clock AIParser.set_window AIParser.set_clock
       AIParser.set_stdout AIParser._window_start AIParser._window_requests
       AIParser._window_tokens AIParser._daily_tokens].
  pose proof (jitter_bounds (AIParser.clock s)) as [J1 J2].
  split_and!; try reflexivity; lra.
Qed.

Lemma wait_for_budget_waits_out_window_witness :
  ∃ s',
    AIParser._wait_for_budget 1100 full_parser = (Ok (), s')
    ∧ AIParser._window_requests s' = 0
    ∧ AIParser._window_tokens s' = 0.
Proof.
  destruct (wait_for_budget_waits_out_window full_parser 1100)
    as (s' & H & _ & _ & _ & H1 & H2 & _).
  - reflexivity.
  - by vm_compute.
  - left. by vm_compute.
  - by exists s'.
Defined.

(** ** [parse_batch] *)

#[local] Instance clock_le_preorder : PreOrder clock_le.
Proof.
  split.
  - intros s. apply Qle_refl.
  - intros s1 s2 s3. apply Qle_trans.
Qed.

Lemma sleep_clock d : respects clock_le (AIParser._sleep_with_jitter d).
Proof.
  intros s. unfold AIParser._sleep_with_jitter, clock_le.
  destruct (Qle_bool d 0) eqn:E; [apply Qle_refl|].
  apply Qle_bool_false in E.
  unfold AIParser.time_sleep, AIParser.time_time. unfold_M.
  cbn [AIParser.clock AIParser.set_clock fst snd].
  pose proof (jitter_bounds (AIParser.clock s)) as [J _]. cbv zeta in J. lra.
Qed.

(** A positive sleep lasts at least the time asked for, and 0.05 s more. *)
Lemma sleep_at_least d s :
  (0 < d)%Q →
  (AIParser.clock s + d + (5 # 100)
   <= AIParser.clock (AIParser._sleep_with_jitter d s).2)%Q.
Proof.
  intros Hd. unfold AIParser._sleep_with_jitter.
  assert (Qle_bool d 0 = false) as -> by (by apply Qle_bool_false).
  unfold AIParser.time_sleep, AIParser.time_time. unfold_M.
  cbn [AIParser.clock AIParser.set_clock fst snd].
  pose proof (jitter_bounds (AIParser.clock s)) as [J _]. cbv zeta in J. lra.
Qed.

Lemma wait_for_budget_clock est :
  respects clock_le (AIParser._wait_for_budget est).
Proof.
  unfold AIParser._wait_for_budget, AIParser.reset_window, AIParser.print,
    AIParser.time_time.
  repeat first [ apply sleep_clock
               | (intros s; apply Qle_refl)
               | respects_step ].
Qed.

Section ParseBatch.
Context (groq_installed : bool) (groq : nat → AIParser.completion).

Lemma retry_loop_clock F raw attempts :
  (∀ x, respects clock_le (F x)) →
  respects clock_le (AIParser.retry_loop groq F raw attempts).
Proof.
  intros HF. induction attempts as [|a rest IH]; cbn [AIParser.retry_loop].
  - apply respects_ret; apply _.
  - unfold AIParser.create_completion.
    repeat first [ apply sleep_clock | apply IH | apply HF
                 | (intros s; apply Qle_refl)
                 | respects_step ].
Qed.

Lemma parse_content_body_clock F raw :
  (∀ x, respects clock_le (F x)) →
  respects clock_le (AIParser.parse_content_body groq_installed groq F raw).
Proof.
  intros HF. unfold AIParser.parse_content_body, AIParser._get_client,
    AIParser.print.
  repeat first [ apply wait_for_budget_clock | apply retry_loop_clock
               | apply respects_try_except; [apply _| |intros ?]
               | (intros s; apply Qle_refl)
               | respects_step | done ].
Qed.

Lemma parse_content_clock raw :
  respects clock_le (AIParser.parse_content groq_installed groq raw).
Proof.
  apply parse_content_body_clock. intros x.
  apply parse_content_body_clock. intros y. apply respects_ret; apply _.
Qed.

Lemma parse_content_sends raw :
  sends_at_most 10 (AIParser.parse_content groq_installed groq raw).
Proof.
  apply (parse_content_body_sends groq_installed groq 5).
  intros x. apply (parse_content_body_sends groq_installed groq 0).
  intros y. apply sends_ret.
Qed.

Lemma parse_content_keeps raw :
  respects keeps_daily (AIParser.parse_content groq_installed groq raw).
Proof.
  apply parse_content_body_keeps. intros x.
  apply parse_content_body_keeps. intros y. apply respects_ret; apply _.
Qed.

End ParseBatch.

Lemma parse_content_returns groq raw :
  returns (AIParser.parse_content true groq raw).
Proof.
  apply parse_content_body_returns. intros x.
  apply parse_content_body_returns. intros y. apply returns_ret.
Qed.

(** One result per content, in the order of the contents. *)
Lemma parse_batch_loop_returns groq total i rest results s :
  ∃ out,
    (AIParser.parse_batch_loop true groq total i rest results s).1
    = Ok (results ++ out)
    ∧ out.*1 = rest.*2.
Proof.
  revert i results s.
  induction rest as [|[raw page_url] rest IH]; intros i results s.
  { exists []. by rewrite app_nil_r. }
  cbn [AIParser.parse_batch_loop]. unfold_M.
  destruct (parse_content_returns groq raw s) as [parsed Hp].
  destruct (AIParser.parse_content true groq raw s) as [r s1].
  simpl in Hp. subst r. cbn beta iota.
  destruct (returns_sleep (5 # 2) s1) as [[] Hs].
  destruct (i <? total - 1); cbn [when].
  - destruct (AIParser._sleep_with_jitter (5 # 2) s1) as [r s2].
    simpl in Hs. subst r. cbn beta iota.
    destruct (IH (i + 1) (results ++ [(page_url, parsed)]) s2)
      as (out & -> & Hout).
    exists ((page_url, parsed) :: out). rewrite <- app_assoc.
    split; [done|]. rewrite !fmap_cons. cbn [fst snd]. by rewrite Hout.
  - unfold_M. cbn beta iota.
    destruct (IH (i + 1) (results ++ [(page_url, parsed)]) s1)
      as (out & -> & Hout).
    exists ((page_url, parsed) :: out). rewrite <- app_assoc.
    split; [done|]. rewrite !fmap_cons. cbn [fst snd]. by rewrite Hout.
Qed.

(** X20 (one result per content).  When the [groq] package is installed,
    [parse_batch] returns one pair per content, in the order of the
    contents, each with the URL of its content. *)
Theorem parse_batch_one_result_per_content groq contents s :
  ∃ results,
    (AIParser.parse_batch true groq contents s).1 = Ok results
    ∧ results.*1 = contents.*2.
Proof.
  destruct (parse_batch_loop_returns groq (len contents) 0 contents [] s)
    as (out & H & Hout).
  exists out. by split.
Qed.

Section ParseBatchBudget.
Context (groq_installed : bool) (groq : nat → AIParser.completion).

Lemma parse_batch_loop_keeps total i rest results :
  respects keeps_daily
    (AIParser.parse_batch_loop groq_installed groq total i rest results).
Proof.
  revert i results.
  induction rest as [|[raw page_url] rest IH]; intros i results;
    cbn [AIParser.parse_batch_loop].
  - apply respects_ret; apply _.
  - repeat first [ apply parse_content_keeps | apply sleep_keeps | apply IH
                 | respects_step ].
Qed.

Lemma parse_batch_loop_sends total i rest results :
  sends_at_most (10 * length rest)
    (AIParser.parse_batch_loop groq_installed groq total i rest results).
Proof.
  revert i results.
  induction rest as [|[raw page_url] rest IH]; intros i results;
    cbn [AIParser.parse_batch_loop].
  - apply sends_ret.
  - replace (10 * length ((raw, page_url) :: rest))%nat
      with (10 + (0 + 10 * length rest))%nat by (simpl; lia).
    apply sends_bind; [apply parse_content_sends|]. intros parsed.
    apply sends_bind; [|intros _; apply IH].
    destruct (_ <? _); [apply sends_sleep|apply sends_ret].
Qed.

End ParseBatchBudget.

Lemma parse_batch_loop_pace groq total i rest results s :
  total = i + len rest →
  (AIParser.clock s + (255 # 100) * inject_Z (len rest - 1)
   <= AIParser.clock
        (AIParser.parse_batch_loop true groq total i rest results s).2)%Q.
Proof.
  revert i results s.
  induction rest as [|[raw page_url] rest IH]; intros i results s Htotal.
  { cbn [AIParser.parse_batch_loop]. unfold_M. cbn [snd].
    change (inject_Z (len [] - 1)) with (-1)%Q. lra. }
  cbn [AIParser.parse_batch_loop]. unfold_M.
  pose proof (parse_content_clock true groq raw s) as Hc.
  destruct (parse_content_returns groq raw s) as [parsed Hp].
  destruct (AIParser.parse_content true groq raw s) as [r s1].
  cbn [fst snd] in Hp, Hc. subst r. cbn beta iota. unfold clock_le in Hc.
  assert (Hlen : len ((raw, page_url) :: rest) = len rest + 1).
  { unfold len. cbn [length]. lia. }
  rewrite Hlen in *. clear Hlen.
  destruct rest as [|c rest].
  - replace (i <? total - 1) with false
      by (symmetry; apply Z.ltb_ge; unfold len in *; cbn [length] in *; lia).
    cbn [when AIParser.parse_batch_loop]. unfold_M. cbn [snd].
    change (inject_Z (len [] + 1 - 1)) with 0%Q. lra.
  - replace (i <? total - 1) with true
      by (symmetry; apply Z.ltb_lt; unfold len in *; cbn [length] in *; lia).
    cbn [when].
    pose proof (sleep_at_least (5 # 2) s1 eq_refl) as Hs.
    destruct (returns_sleep (5 # 2) s1) as [[] Hr].
    destruct (AIParser._sleep_with_jitter (5 # 2) s1) as [r s2].
    cbn [fst snd] in Hr, Hs. subst r. cbn beta iota.
    specialize (IH (i + 1) (results ++ [(page_url, parsed)]) s2).
    specialize (IH ltac:(lia)).
    replace (len (c :: rest) + 1 - 1) with ((len (c :: rest) - 1) + 1)
      by lia.
    rewrite inject_Z_plus. change (inject_Z 1) with 1%Q.
    set (n := inject_Z (len (c :: rest) - 1)) in *.
    set (k := AIParser.clock (AIParser.parse_batch_loop _ _ _ _ _ _ _).2)
      in *.
    clearbody k n. lra.
Qed.

(** X21 (the pace of [parse_batch]).  When the [groq] package is
    installed, a call of [parse_batch] on [n] contents sends at most [10 n]
    requests and lasts at least 2.55 seconds for each content but the last;
    tokens counted for the day that were within the daily limit are within
    it at the end. *)
Theorem parse_batch_paces_requests groq contents s :
  let s' := (AIParser.parse_batch true groq contents s).2 in
  (AIParser.requests_sent s'
   <= AIParser.requests_sent s + 10 * length contents)%nat
  ∧ (AIParser.clock s + (255 # 100) * inject_Z (len contents - 1)
     <= AIParser.clock s')%Q
  ∧ (AIParser._daily_tokens s <= AIParser._tpd_limit s →
     AIParser._daily_tokens s' <= AIParser._tpd_limit s').
Proof.
  intros s'. unfold AIParser.parse_batch in s'. split_and!.
  - exact (parse_batch_loop_sends true groq (len contents) 0 contents [] s).
  - apply (parse_batch_loop_pace groq (len contents) 0 contents [] s). lia.
  - destruct (parse_batch_loop_keeps true groq (len contents) 0 contents
                [] s) as (H1 & _ & H3 & _).
    fold s' in H1, H3. rewrite H1. exact H3.
Qed.


(* ===================================================================== *)
(** * Further properties: the vector store and the usage file             *)
(* ===================================================================== *)

(** ** What [upsert] stores *)

Lemma slice_to_len_le {A} k (l : list A) : 0 <= k → len (slice_to k l) <= k.
Proof. intros Hk. unfold len. rewrite slice_to_length by done. lia. Qed.

Lemma row_of_ok dims p : passes_checks dims p = true → row_ok dims (row_of p).
Proof.
  unfold passes_checks. rewrite !andb_true_iff, Z.eqb_eq.
  intros [[_ [_ Hlen]] Hfin]. unfold row_ok, row_of, VectorStore.to_row. simpl.
  split_and!; [done| |by apply slice_to_len_le..].
  apply Forall_forall. intros v Hv. rewrite forallb_forall in Hfin.
  by apply Hfin, list_elem_of_In.
Qed.

Lemma upsert_dimensions s chunks embeddings :
  VectorStore.dimensions (VectorStore.upsert chunks embeddings s).2
  = VectorStore.dimensions s.
Proof.
  unfold VectorStore.upsert. destruct chunks as [|c0 chunks]; [done|].
  destruct (truthy embeddings); cbn [negb]; [|done].
  unfold_M. unfold id. cbn beta iota.
  destruct (VectorStore.upsert_loop _ _ _ _ _) as [[data skipped] out].
  pose proof (print_all out) as Hp. unfold_M. rewrite Hp. cbn beta iota.
  destruct (negb (skipped =? 0)), (negb (truthy data)); reflexivity.
Qed.

(** X22 (the schema is an invariant of [upsert]).  If every row of the
    store has a vector of the configured dimension with finite values, a
    text of at most 32000 characters and a source name of at most 512, the
    same holds after any call of [upsert]. *)
Theorem upsert_keeps_store_ok s chunks embeddings :
  store_ok s →
  store_ok (VectorStore.upsert chunks embeddings s).2.
Proof.
  intros Hs c rows. rewrite upsert_dimensions.
  destruct chunks as [|chunk0 chunks]; [apply Hs|].
  destruct (upsert_spec s chunk0 chunks embeddings) as (s' & -> & Hm & _).
  cbn [snd]. rewrite Hm. destruct (truthy _); [|apply Hs].
  set (cn := VectorStore._get_collection s _).
  destruct (decide (cn = c)) as [->|Hne].
  - rewrite lookup_insert_eq. intros [= <-]. apply Forall_app. split.
    + unfold lookup_total, map_lookup_total.
      destruct (VectorStore.milvus s !! c) as [old|] eqn:E; simpl; [|done].
      by apply (Hs c).
    + apply Forall_forall. intros r [p [-> Hp]]%list_elem_of_fmap.
      apply row_of_ok.
      apply list_elem_of_In, filter_In in Hp. apply Hp.
  - rewrite lookup_insert_ne by done. apply Hs.
Qed.

Lemma upsert_keeps_store_ok_witness :
  store_ok
    (VectorStore.upsert mixed_chunks [unit_vector; unit_vector]
       small_store).2.
Proof.
  apply upsert_keeps_store_ok. intros c rows H.
  unfold small_store, VectorStore.init in H. cbn [VectorStore.milvus] in H.
  apply lookup_insert_Some in H as [[_ <-]|[_ H]]; [constructor|].
  apply lookup_insert_Some in H as [[_ <-]|[_ H]]; [constructor|].
  by rewrite lookup_empty in H.
Defined.

(** ** [get_chunk_count] *)

Section CountFacts.
Context (client_query : str → str → Z → Z → Exc (list VectorStore.Row)).

Lemma count_pages_exact fuel collection_name filter rows offset count :
  pages_through client_query collection_name filter rows →
  0 <= offset →
  (length (drop (Z.to_nat offset) rows) < fuel)%nat →
  VectorStoreQueries.count_pages client_query fuel collection_name filter
    offset count
  = Some (count + len (drop (Z.to_nat offset) rows)).
Proof.
  intros Hq. revert offset count.
  induction fuel as [|fuel IH]; intros offset count Hoff Hfuel; [lia|].
  cbn [VectorStoreQueries.count_pages].
  rewrite Hq by (done || unfold VectorStoreQueries.batch; lia).
  set (rest := drop (Z.to_nat offset) rows) in *.
  unfold VectorStoreQueries.batch.
  destruct (Z.ltb_spec (len (take (Z.to_nat 16383) rest)) 16383) as [Hlt|Hge].
  - assert (take (Z.to_nat 16383) rest = rest) as ->; [|done].
    apply take_ge. unfold len in Hlt. rewrite length_take in Hlt. lia.
  - unfold len in Hge. rewrite length_take in Hge.
    assert (Hd : drop (Z.to_nat (offset + 16383)) rows
                 = drop (Z.to_nat 16383) rest).
    { unfold rest. rewrite drop_drop. f_equal. lia. }
    rewrite IH; [|lia|rewrite Hd, length_drop; lia].
    rewrite Hd. f_equal. unfold len. rewrite length_take, length_drop. lia.
Qed.

End CountFacts.

(** X23 (the count is exact).  With a client that pages faithfully through
    the rows of a source in each of the two collections,
    [get_chunk_count] returns the number of these rows, however many pages
    of 16383 rows they fill; a number of iterations above the number of
    rows of each collection is enough. *)
Theorem get_chunk_count_exact client_query fuel self source_name docs chats :
  let filter :=
    VectorStoreQueries.source_name_filter
      (VectorStoreQueries.escape source_name) in
  pages_through client_query (VectorStore.collection_docs self) filter docs →
  pages_through client_query (VectorStore.collection_chats self) filter
    chats →
  (length docs < fuel)%nat → (length chats < fuel)%nat →
  VectorStoreQueries.get_chunk_count client_query fuel self source_name
  = Some (len docs + len chats).
Proof.
  intros filter Hd Hc Hfd Hfc. unfold VectorStoreQueries.get_chunk_count.
  fold filter.
  rewrite (count_pages_exact client_query fuel _ filter docs 0 0 Hd)
    by (done || (simpl; lia)).
  cbn [mbind option_bind].
  rewrite (count_pages_exact client_query fuel _ filter chats 0 _ Hc)
    by (done || (simpl; lia)).
  f_equal.
Qed.

Lemma get_chunk_count_exact_witness :
  VectorStoreQueries.get_chunk_count (paging_query two_rows) 3 small_store
    (lit "source")
  = Some 4.
Proof.
  apply (get_chunk_count_exact (paging_query two_rows) 3 small_store
           (lit "source") two_rows two_rows).
  - by intros limit offset _ _.
  - by intros limit offset _ _.
  - simpl. lia.
  - simpl. lia.
Defined.

Section CountFailure.
Context (client_query : str → str → Z → Z → Exc (list VectorStore.Row)).

Lemma count_pages_failure fuel collection_name filter (k j : nat) count :
  fails_at_page client_query collection_name filter k →
  (j <= k)%nat → (k - j < fuel)%nat →
  VectorStoreQueries.count_pages client_query fuel collection_name filter
    (Z.of_nat j * 16383) count
  = Some (count + Z.of_nat (k - j) * 16383).
Proof.
  intros [Hfull [e Hfail]]. revert j count.
  induction fuel as [|fuel IH]; intros j count Hj Hfuel; [lia|].
  cbn [VectorStoreQueries.count_pages]. unfold VectorStoreQueries.batch.
  destruct (decide (j = k)) as [->|Hne].
  - rewrite Hfail. f_equal. lia.
  - destruct (Hfull j) as (page & -> & Hlen); [lia|].
    rewrite Hlen, Z.ltb_irrefl.
    replace (Z.of_nat j * 16383 + 16383) with (Z.of_nat (S j) * 16383)
      by lia.
    rewrite IH by lia. f_equal. lia.
Qed.

End CountFailure.

(** X24 (a failure keeps the rows counted so far).  [get_chunk_count]
    never raises.  When the queries on the collection of documents give
    [k] full pages and then fail, and the client pages faithfully through
    the rows of the other collection, the count is [16383 k] plus the
    number of these rows: the rows of the pages read before the failure
    stay counted, the others are silently left out. *)
Theorem get_chunk_count_keeps_partial_count client_query fuel self
    source_name (k : nat) chats :
  let filter :=
    VectorStoreQueries.source_name_filter
      (VectorStoreQueries.escape source_name) in
  fails_at_page client_query (VectorStore.collection_docs self) filter k →
  pages_through client_query (VectorStore.collection_chats self) filter
    chats →
  (k < fuel)%nat → (length chats < fuel)%nat →
  VectorStoreQueries.get_chunk_count client_query fuel self source_name
  = Some (Z.of_nat k * 16383 + len chats).
Proof.
  intros filter Hd Hc Hfd Hfc. unfold VectorStoreQueries.get_chunk_count.
  fold filter.
  pose proof (count_pages_failure client_query fuel _ filter k 0 0 Hd) as H.
  rewrite Z.mul_0_l in H. rewrite H by lia. cbn [mbind option_bind].
  rewrite (count_pages_exact client_query fuel _ filter chats 0 _ Hc)
    by (done || (simpl; lia)).
  f_equal. rewrite Nat.sub_0_r. change (Z.to_nat 0) with 0%nat.
  rewrite drop_0. lia.
Qed.

Lemma get_chunk_count_keeps_partial_count_witness :
  VectorStoreQueries.get_chunk_count (chats_only_query two_rows) 3
    small_store (lit "source")
  = Some 2.
Proof.
  apply (get_chunk_count_keeps_partial_count (chats_only_query two_rows) 3
           small_store (lit "source") 0 two_rows).
  - split; [intros j Hj; lia|]. by eexists.
  - by intros limit offset _ _.
  - lia.
  - simpl. lia.
Defined.

(** ** Escaping *)

Lemma flat_map_flat_map {A B C} (f : A → list B) (g : B → list C) l :
  flat_map g (flat_map f l) = flat_map (λ x, flat_map g (f x)) l.
Proof.
  induction l as [|x l IH]; simpl; [done|].
  by rewrite flat_map_app, IH.
Qed.

Lemma escape_flat_map s :
  VectorStoreQueries.escape s = flat_map escape_char s.
Proof.
  unfold VectorStoreQueries.escape, replace_char.
  rewrite flat_map_flat_map. apply flat_map_ext. intros c.
  unfold escape_char.
  destruct (N.eqb_spec c 92) as [->|H92]; [done|].
  simpl. destruct (N.eqb_spec c 34) as [->|H34]; [done|].
  by rewrite app_nil_r.
Qed.

(** X25 (escaping loses nothing).  The escaping of a source name, used in
    the filters of [get_chunk_count] and [delete_source], is injective: two
    names with the same escaped form are the same name. *)
Theorem escape_injective a b :
  VectorStoreQueries.escape a = VectorStoreQueries.escape b → a = b.
Proof.
  rewrite !escape_flat_map. revert b.
  induction a as [|x a IH]; intros [|y b]; simpl.
  - done.
  - unfold escape_char. by repeat case_match.
  - unfold escape_char. by repeat case_match.
  - intros H.
    assert (x = y ∧ flat_map escape_char a = flat_map escape_char b)
      as [-> H'].
    { revert H. unfold escape_char at 1 3.
      destruct (N.eqb_spec x 92) as [->|Hx92], (N.eqb_spec y 92) as [->|Hy92];
        try destruct (N.eqb_spec x 34) as [->|Hx34];
        try destruct (N.eqb_spec y 34) as [->|Hy34];
        simpl; intros H; simplify_eq; auto. }
    f_equal. by apply IH.
Qed.

Lemma escape_injective_witness : [34%N; 92%N] = [34%N; 92%N].
Proof. apply escape_injective. reflexivity. Defined.

(** ** The usage file *)

Lemma load_counter_keys f :
  ∃ d r c t u,
    RequestCounter._load_counter f
    = (Ok (RequestCounter.mkCounter (Some d) (Some r) (Some c) (Some t)
             (Some u)), f)
    ∧ d = default [] (f ≫= RequestCounter.date)
    ∧ r = default 0 (f ≫= RequestCounter.embedding_requests)
    ∧ c = default 0 (f ≫= RequestCounter.embedding_chunks).
Proof.
  unfold RequestCounter._load_counter. unfold_M. unfold id.
  destruct f as [data|]; cbn beta iota.
  - do 5 eexists. split; [reflexivity|]. by split_and!.
  - do 5 eexists. split; [reflexivity|]. by split_and!.
Qed.



(* ===================================================================== *)
(** * Further properties: the pages of a website                           *)
(* ===================================================================== *)

(** ** The batches given to the parser *)

Lemma getitem_lookup {A} (l : list A) (i : Z) :
  0 <= i < len l →
  ∃ x, getitem l i = Ok x ∧ l !! Z.to_nat i = Some x.
Proof.
  intros [H0 H1]. unfold getitem.
  replace (i <? 0) with false by (symmetry; by apply Z.ltb_ge).
  replace (i <? 0) with false by (symmetry; by apply Z.ltb_ge).
  destruct (l !! Z.to_nat i) as [x|] eqn:E; [by eexists|].
  apply lookup_ge_None in E. unfold len in H1. lia.
Qed.

Lemma sum_app l1 l2 :
  Embedder.sum (l1 ++ l2) = Embedder.sum l1 + Embedder.sum l2.
Proof.
  unfold Embedder.sum. induction l1 as [|x l1 IH]; simpl; [done|].
  rewrite IH. lia.
Qed.

Section BatchingFacts.
Context (rpm tpm : Z) (pages : list WebsiteIngester.Page)
  (est : WebsiteIngester.Page → Z).
Context (Hrpm : 1 <= rpm).

Abbreviation estimated := (map est pages).

Lemma between_refl idx : between pages idx idx = [].
Proof. unfold between. by rewrite Z.sub_diag. Qed.

Lemma between_step idx idx' p :
  0 <= idx → idx + 1 <= idx' →
  pages !! Z.to_nat idx = Some p →
  between pages idx idx' = p :: between pages (idx + 1) idx'.
Proof.
  intros H0 H1 Hp. unfold between.
  replace (Z.to_nat (idx' - idx)) with (S (Z.to_nat (idx' - (idx + 1))))
    by lia.
  rewrite (drop_S _ p _ Hp). simpl.
  by replace (Z.to_nat (idx + 1)) with (S (Z.to_nat idx)) by lia.
Qed.

Lemma fill_batch_spec fuel idx batch_pages batch_sum :
  0 <= idx <= len pages →
  (Z.to_nat (len pages - idx) <= fuel)%nat →
  (batch_pages = [] → batch_sum = 0) →
  (batch_pages ≠ [] → batch_sum <= tpm) →
  ∃ idx' batch_sum',
    WebsiteIngester.fill_batch rpm tpm pages estimated fuel idx batch_pages
      batch_sum
    = Ok (Some (idx', batch_pages ++ between pages idx idx', batch_sum'))
    ∧ idx <= idx' <= len pages
    ∧ batch_sum'
      = batch_sum + Embedder.sum (map est (between pages idx idx'))
    ∧ len (batch_pages ++ between pages idx idx')
      <= Z.max rpm (len batch_pages)
    ∧ (idx' = idx ∨ batch_sum' <= tpm
       ∨ (batch_pages = [] ∧ idx' = idx + 1))
    ∧ (batch_pages = [] → idx < len pages → idx < idx').
Proof.
  revert idx batch_pages batch_sum.
  induction fuel as [|fuel IH]; intros idx batch_pages batch_sum
    Hidx Hfuel Hempty Hsum.
  - assert (idx = len pages) as -> by lia.
    cbn [WebsiteIngester.fill_batch]. rewrite Z.ltb_irrefl. cbn [andb].
    exists (len pages), batch_sum. rewrite between_refl, app_nil_r.
    split; [done|split; [lia|split; [simpl; lia|
      split; [lia|split; [by left|lia]]]]].
  - cbn [WebsiteIngester.fill_batch].
    destruct (Z.ltb_spec idx (len pages)) as [Hlt|Hge]; cbn [andb]; cycle 1.
    { exists idx, batch_sum. rewrite between_refl, app_nil_r.
      split; [done|split; [lia|split; [simpl; lia|
        split; [lia|split; [by left|lia]]]]]. }
    destruct (Z.ltb_spec (len batch_pages) rpm) as [Hroom|Hfull]; cycle 1.
    { exists idx, batch_sum. rewrite between_refl, app_nil_r.
      split; [done|split; [lia|split; [simpl; lia|
        split; [lia|split; [by left|idtac]]]]].
      intros ->. unfold len in Hfull. simpl in Hfull. lia. }
    destruct (getitem_lookup pages idx) as (p & Hget & Hp); [lia|].
    assert (Hgete : getitem estimated idx = Ok (est p)).
    { destruct (getitem_lookup estimated idx) as (t & Ht & Hl).
      { unfold len in *. rewrite length_map. lia. }
      rewrite list_lookup_fmap, Hp in Hl. simpl in Hl. congruence. }
    rewrite Hgete, Hget.
    destruct batch_pages as [|b0 batch_pages].
    + (* the first page of the batch *)
      specialize (Hempty eq_refl). subst batch_sum.
      cbn [truthy negb andb app]. rewrite Z.add_0_l.
      destruct (Z.gtb_spec (est p) tpm) as [Hbig|Hfits].
      * exists (idx + 1), (est p).
        rewrite (between_step idx (idx + 1) p), between_refl by (done || lia).
        split; [done|split; [lia|split; [simpl; lia|
          split; [idtac|split; [auto|lia]]]]].
        unfold len. simpl. lia.
      * destruct (IH (idx + 1) [p] (est p))
          as (idx' & sum' & -> & Hi & Hs & Hl & Hx & _);
          [lia|lia|done|intros _; lia|].
        exists idx', sum'.
        rewrite (between_step idx idx' p) by (done || lia).
        split; [done|split; [lia|split; [simpl; lia|
          split; [idtac|split; [idtac|lia]]]]].
        -- change ([p] ++ between pages (idx + 1) idx')
             with ([] ++ p :: between pages (idx + 1) idx') in Hl.
           unfold len in *. simpl in *. lia.
        -- destruct Hx as [->|[Hx|[? _]]]; [|auto|done].
           right; left. rewrite Hs, between_refl. simpl. lia.
    + (* one more page in a batch that has some *)
      specialize (Hsum ltac:(done)).
      cbn [truthy negb andb].
      destruct (Z.gtb_spec (batch_sum + est p) tpm) as [Hover|Hfits].
      * exists idx, batch_sum. rewrite between_refl, app_nil_r.
        split; [done|split; [lia|split; [simpl; lia|
          split; [lia|split; [by left|done]]]]].
      * destruct (IH (idx + 1) ((b0 :: batch_pages) ++ [p])
                    (batch_sum + est p))
          as (idx' & sum' & -> & Hi & Hs & Hl & Hx & _);
          [lia|lia|by destruct batch_pages|intros _; lia|].
        exists idx', sum'.
        rewrite (between_step idx idx' p) by (done || lia).
        rewrite <- app_assoc. cbn [app].
        split; [done|split; [lia|split; [simpl; lia|
          split; [idtac|split; [idtac|done]]]]].
        -- unfold len in *. rewrite ?length_app in *. simpl in *.
           rewrite ?length_app in *. simpl in *. lia.
        -- right; left. destruct Hx as [->|[Hx|[? _]]]; [|done|].
           ++ rewrite Hs, between_refl. simpl. lia.
           ++ by destruct batch_pages.
Qed.

Lemma between_length idx idx' :
  0 <= idx <= idx' → idx' <= len pages →
  len (between pages idx idx') = idx' - idx.
Proof.
  intros H1 H2. unfold between, len in *.
  rewrite length_take, length_drop. lia.
Qed.

Lemma between_drop idx idx' :
  0 <= idx <= idx' →
  between pages idx idx' ++ drop (Z.to_nat idx') pages
  = drop (Z.to_nat idx) pages.
Proof.
  intros H. unfold between.
  replace (Z.to_nat idx') with (Z.to_nat idx + Z.to_nat (idx' - idx))%nat
    by lia.
  rewrite <- drop_drop. apply take_drop.
Qed.

Lemma batches_from_spec fuel idx batches :
  0 <= idx <= len pages →
  (Z.to_nat (len pages - idx) <= fuel)%nat →
  ∃ bs,
    WebsiteIngester.batches_from rpm tpm pages estimated fuel idx batches
    = Ok (Some (batches ++ bs))
    ∧ concat bs = drop (Z.to_nat idx) pages
    ∧ Forall (batch_within rpm tpm est) bs.
Proof.
  revert idx batches.
  induction fuel as [|fuel IH]; intros idx batches Hidx Hfuel.
  - assert (idx = len pages) as -> by lia.
    cbn [WebsiteIngester.batches_from]. rewrite Z.ltb_irrefl.
    exists []. rewrite app_nil_r. split_and!; [done| |done].
    unfold len. rewrite Nat2Z.id. by rewrite drop_all.
  - cbn [WebsiteIngester.batches_from].
    destruct (Z.ltb_spec idx (len pages)) as [Hlt|Hge]; cycle 1.
    { assert (idx = len pages) as -> by lia.
      exists []. rewrite app_nil_r. split_and!; [done| |done].
      unfold len. rewrite Nat2Z.id. by rewrite drop_all. }
    destruct (fill_batch_spec (S fuel) idx [] 0)
      as (idx' & sum' & Hfill & Hi & Hs & Hl & Hx & Hprog);
      [lia|lia|done|done|].
    rewrite Hfill. cbn [app] in *.
    specialize (Hprog eq_refl Hlt).
    destruct (IH idx' (batches ++ [between pages idx idx']))
      as (bs & -> & Hc & Hb); [lia|lia|].
    exists (between pages idx idx' :: bs). rewrite <- app_assoc.
    split_and!; [done| |].
    + simpl. rewrite Hc. apply between_drop. lia.
    + constructor; [|done].
      pose proof (between_length idx idx' ltac:(lia) ltac:(lia)) as Hlen.
      unfold batch_within. split_and!.
      * intros E. rewrite E in Hlen. unfold len in Hlen. simpl in Hlen. lia.
      * change (len []) with 0 in Hl. lia.
      * destruct Hx as [->|[Hx|[_ ->]]]; [lia| |right; lia].
        left. rewrite Hs in Hx. lia.
Qed.

End BatchingFacts.

Lemma with_raw_length pages :
  (length (WebsiteIngester.with_raw pages) <= length pages)%nat.
Proof.
  unfold WebsiteIngester.with_raw.
  induction pages as [|p pages IH]; [done|].
  cbn [omap list_omap]. destruct (_ ≫= _); cbn [length]; lia.
Qed.

(** X27 (every page is parsed once, in batches within the limits).  The
    loops of [_pages_to_chunks_ai] end within as many iterations as there
    are pages and raise no [IndexError].  The batches they form are, put
    end to end, the pages that have a text, in their order; no batch is
    empty or holds more than 30 pages, and the estimates of a batch add up
    to at most 30000 tokens unless the batch is a single page. *)
Theorem pages_are_batched _clean_text _ai_parser pages :
  let est p :=
    AIParser.estimate_request_tokens _ai_parser
      (_clean_text (WebsiteIngester.raw p)) in
  ∃ batches,
    WebsiteIngester._pages_to_chunks_ai_batches _clean_text _ai_parser
      (length pages) pages
    = Ok (Some batches)
    ∧ concat batches = WebsiteIngester.with_raw pages
    ∧ Forall (batch_within 30 30000 est) batches.
Proof.
  intros est. unfold WebsiteIngester._pages_to_chunks_ai_batches.
  destruct (truthy pages) eqn:Hp; cbn [negb].
  2:{ exists []. apply truthy_nil in Hp. subst. by split_and!. }
  destruct (truthy (WebsiteIngester.with_raw pages)) eqn:Hw; cbn [negb].
  2:{ exists []. apply truthy_nil in Hw. rewrite Hw. by split_and!. }
  pose proof (with_raw_length pages) as Hlen.
  destruct (batches_from_spec Config.AI_PARSER_rpm_limit
              Config.AI_PARSER_tpm_limit (WebsiteIngester.with_raw pages)
              est ltac:(done) (length pages) 0 [])
    as (bs & Hb & Hc & Hf); [unfold len; lia|unfold len; lia|].
  exists bs. split_and!; [exact Hb|by rewrite Hc|exact Hf].
Qed.

(** ** Chunking *)

Section SubstringFacts.

Lemma substring_refl a : substring a a.
Proof. exists [], []. by rewrite app_nil_r. Qed.

Lemma substring_trans a b c : substring a b → substring b c → substring a c.
Proof.
  intros (p1 & q1 & ->) (p2 & q2 & ->).
  exists (p2 ++ p1), (q1 ++ q2). by rewrite <- !app_assoc.
Qed.

Lemma substring_take n (l : list N) : substring (take n l) l.
Proof. exists [], (drop n l). simpl. by rewrite take_drop. Qed.

Lemma substring_drop n (l : list N) : substring (drop n l) l.
Proof. exists (take n l), []. by rewrite app_nil_r, take_drop. Qed.

Lemma substring_slice i j (l : list N) : substring (slice i j l) l.
Proof.
  unfold slice. eapply substring_trans; [apply substring_drop|].
  apply substring_take.
Qed.

Lemma substring_slice_to k (l : list N) : substring (slice_to k l) l.
Proof. apply substring_take. Qed.

Lemma substring_lstrip s : substring (lstrip s) s.
Proof.
  induction s as [|c s IH]; simpl; [apply substring_refl|].
  destruct (isspace c); [|apply substring_refl].
  eapply substring_trans; [exact IH|]. exists [c], []. by rewrite app_nil_r.
Qed.

Lemma substring_rev a b : substring a b → substring (rev a) (rev b).
Proof.
  intros (p & q & ->). exists (rev q), (rev p).
  by rewrite !rev_app_distr, <- app_assoc.
Qed.

Lemma substring_strip s : substring (strip s) s.
Proof.
  unfold strip, rstrip.
  eapply substring_trans; [|apply substring_lstrip].
  rewrite <- (rev_involutive (lstrip s)) at 2.
  apply substring_rev, substring_lstrip.
Qed.

Lemma substring_contains a b : substring a b → contains a b = true.
Proof. intros (p & q & ->). apply contains_middle. Qed.

Lemma substring_len a b : substring a b → len a <= len b.
Proof.
  intros (p & q & ->). unfold len. rewrite !length_app. lia.
Qed.

End SubstringFacts.

Section ChunkingFacts.
Context (chunk_size overlap : Z) (now text page_url root_url title : str).
Context (Hsize : 0 <= chunk_size).

Lemma cut_at_boundary_substring bs chunk_text :
  substring (WebsiteIngester.cut_at_boundary chunk_size bs chunk_text)
    chunk_text.
Proof.
  induction bs as [|b bs IH]; simpl; [apply substring_refl|].
  destruct (_ >? _); [apply substring_slice_to|exact IH].
Qed.

Lemma piece_substring start : substring (piece chunk_size text start) text.
Proof.
  unfold piece. cbn zeta.
  eapply substring_trans; [apply substring_strip|].
  destruct (_ <? _).
  - eapply substring_trans; [apply cut_at_boundary_substring|].
    apply substring_slice.
  - apply substring_slice.
Qed.

Lemma piece_len start : 0 <= start → len (piece chunk_size text start) <= chunk_size.
Proof.
  intros Hs. unfold piece. cbn zeta.
  etrans; [apply substring_len, substring_strip|].
  assert (Hslice : len (slice start (start + chunk_size) text) <= chunk_size).
  { rewrite slice_take by lia. unfold len. rewrite length_take. lia. }
  destruct (_ <? _); [|done].
  etrans; [apply substring_len, cut_at_boundary_substring|done].
Qed.

Lemma numbered_snoc chunks c :
  numbered chunks →
  VectorStore.metadata c !! lit "chunk_index"
    = Some (str_of_int (len chunks)) →
  numbered (chunks ++ [c]).
Proof.
  unfold numbered. intros Hn Hc.
  rewrite map_app, length_app, Hn. simpl.
  rewrite Nat.add_1_r, seq_S, map_app. simpl. by rewrite Hc.
Qed.

Lemma chunks_from_spec fuel start chunk_idx chunks :
  0 <= start →
  (Z.to_nat (len text - start) <= fuel)%nat →
  chunk_idx = len chunks →
  len chunks <= 5000 →
  Forall (excerpt_of chunk_size text root_url) chunks →
  numbered chunks →
  ∃ out,
    WebsiteIngester.chunks_from chunk_size overlap now fuel text page_url
      root_url title start chunk_idx chunks = Some out
    ∧ len out <= 5001
    ∧ Forall (excerpt_of chunk_size text root_url) out
    ∧ numbered out.
Proof.
  revert start chunk_idx chunks.
  induction fuel as [|fuel IH];
    intros start chunk_idx chunks Hstart Hfuel Hidx Hcap Hall Hnum;
    cbn [WebsiteIngester.chunks_from].
  { destruct (Z.ltb_spec start (len text)); [lia|].
    exists chunks. split_and!; [done|lia|done|done]. }
  destruct (Z.ltb_spec start (len text)) as [Hlt|Hge]; cycle 1.
  { exists chunks. split_and!; [done|lia|done|done]. }
  cbn zeta. fold (piece chunk_size text start).
  pose proof (piece_substring start) as Hsub.
  pose proof (piece_len start Hstart) as Hlen.
  set (p := piece chunk_size text start) in *.
  set (advance := Z.max (len p - overlap) 1).
  destruct ((len (split p) >=? WebsiteIngester.MIN_WORDS_PER_CHUNK)
            && (len p >=? WebsiteIngester.MIN_CHUNK_CHARS)) eqn:Egate.
  - apply andb_true_iff in Egate as [Hw Hc].
    apply Z.geb_le in Hw, Hc.
    unfold WebsiteIngester.MIN_WORDS_PER_CHUNK in Hw.
    unfold WebsiteIngester.MIN_CHUNK_CHARS in Hc.
    set (c := VectorStore.mkChunk p _ _ _).
    assert (Hgood : Forall (excerpt_of chunk_size text root_url)
                      (chunks ++ [c])).
    { apply Forall_app. split; [done|]. constructor; [|done].
      unfold excerpt_of, c. simpl.
      split_and!; [by apply substring_contains|lia|lia|lia|done|done]. }
    assert (Hnum' : numbered (chunks ++ [c])).
    { apply numbered_snoc; [done|]. unfold c. simpl. subst chunk_idx.
      rewrite lookup_insert_ne by done. rewrite lookup_insert_ne by done.
      by rewrite lookup_insert_eq. }
    assert (Hlen' : len (chunks ++ [c]) = len chunks + 1).
    { unfold len. rewrite length_app. simpl. lia. }
    destruct (Z.gtb_spec (chunk_idx + 1) 5000) as [Hstop|Hgo].
    + exists (chunks ++ [c]). split_and!; [done|lia|done|done].
    + apply IH; [lia|lia|lia|lia|done|done].
  - destruct (Z.gtb_spec chunk_idx 5000) as [Hstop|Hgo].
    + exists chunks. split_and!; [done|lia|done|done].
    + apply IH; [lia|lia|lia|lia|done|done].
Qed.

End ChunkingFacts.



(** ** Deduplication *)

Section DedupFacts.
Context (md5_hexdigest : str → str).

Lemma dedup_loop_spec chunks seen unique :
  (∀ h, h ∈ seen ↔ h ∈ map (fingerprint md5_hexdigest) unique) →
  NoDup (map (fingerprint md5_hexdigest) unique) →
  ∃ kept,
    WebsiteIngester.dedup_loop md5_hexdigest chunks seen unique
    = unique ++ kept
    ∧ sublist kept chunks
    ∧ NoDup (map (fingerprint md5_hexdigest) (unique ++ kept))
    ∧ (∀ c, c ∈ chunks →
         fingerprint md5_hexdigest c
         ∈ map (fingerprint md5_hexdigest) (unique ++ kept))
    ∧ (∀ c, c ∈ kept →
         fingerprint md5_hexdigest c ∉ map (fingerprint md5_hexdigest) unique).
Proof.
  revert seen unique.
  induction chunks as [|chunk rest IH]; intros seen unique Hseen Hnd.
  { exists []. rewrite app_nil_r. split_and!; try done.
    - intros c Hc. by apply elem_of_nil in Hc.
    - intros c Hc. by apply elem_of_nil in Hc. }
  cbn [WebsiteIngester.dedup_loop]. fold (fingerprint md5_hexdigest chunk).
  destruct (bool_decide_reflect (fingerprint md5_hexdigest chunk ∉ seen))
    as [Hnew|Hold].
  - destruct (IH (seen ∪ {[fingerprint md5_hexdigest chunk]})
                (unique ++ [chunk]))
      as (kept & -> & Hsub & Hnd' & Hcov & Hfresh).
    { intros h. rewrite map_app, elem_of_union, elem_of_singleton, Hseen.
      simpl. rewrite !list_elem_of_In, in_app_iff. simpl.
      intuition congruence. }
    { rewrite map_app. simpl. apply NoDup_app. split_and!; [done| |].
      - intros h Hh Hk. apply list_elem_of_singleton in Hk. subst h.
        by apply Hnew, Hseen.
      - apply NoDup_singleton. }
    exists (chunk :: kept). rewrite <- app_assoc in *. cbn [app] in *.
    split_and!; [done|by constructor|done| |].
    + intros c [->|Hc]%elem_of_cons; [|by apply Hcov].
      rewrite map_app. simpl. rewrite !list_elem_of_In, in_app_iff.
      right. by left.
    + intros c [->|Hc]%elem_of_cons.
      * intros H. by apply Hnew, Hseen.
      * specialize (Hfresh c Hc). rewrite map_app in Hfresh.
        intros H. apply Hfresh. rewrite list_elem_of_In, in_app_iff.
        left. by apply list_elem_of_In.
  - destruct (IH seen unique Hseen Hnd)
      as (kept & -> & Hsub & Hnd' & Hcov & Hfresh).
    exists kept. split_and!; [done|by constructor|done| |done].
    intros c [->|Hc]%elem_of_cons; [|by apply Hcov].
    assert (Hin : fingerprint md5_hexdigest chunk ∈ seen).
    { destruct (decide (fingerprint md5_hexdigest chunk ∈ seen)); [done|].
      by destruct Hold. }
    apply Hseen in Hin. rewrite map_app, list_elem_of_In, in_app_iff.
    left. by apply list_elem_of_In.
Qed.

End DedupFacts.

